(** * seg2io: a shallow embedding of [seg2io.py]

    The two public functions of the module, [read_seg2_header] and
    [read_seg], are embedded as programs of a small state-and-exception
    monad.  The state is the cursor of the opened file together with what
    has been printed; the file's contents are read-only.  Python locals
    that may be unbound when they are used ([endian], [dtype]) are
    options.  The dictionaries built by the parser live in a store and
    are appended to [trace_headers] by reference, as in Python. *)

From Stdlib Require Import String Strings.Byte DecimalString.
From Stdlib Require Import List ZArith Lia Bool.
Import ListNotations.

Local Open Scope Z_scope.

(** ** Bytes objects *)

Definition bytes := list byte.

Definition byte_val (b : byte) : Z := Z.of_N (Byte.to_N b).

Arguments byte_val : simpl never.

(** [b[i:j]] for [0 <= i <= j]. *)
Definition slice (b : bytes) (i j : nat) : bytes :=
  firstn (j - i) (skipn i b).

(** [bytes.isspace] on one byte: space, tab, newline, carriage return,
    vertical tab, form feed. *)
Definition isspace (b : byte) : bool :=
  match b with
  | x09 | x0a | x0b | x0c | x0d | x20 => true
  | _ => false
  end.

(** [bytes.split()] without arguments: the maximal runs of bytes that are
    not whitespace, in order. *)
Fixpoint bytes_split (s : bytes) : list bytes :=
  match s with
  | [] => []
  | b :: t =>
      if isspace b then bytes_split t
      else match t with
           | [] => [[b]]
           | c :: _ =>
               if isspace c then [b] :: bytes_split t
               else match bytes_split t with
                    | w :: ws => (b :: w) :: ws
                    | [] => [[b]]
                    end
           end
  end.

(** ** Exceptions and results *)

Inductive exn : Type :=
| StructError
| UnboundLocalError (name : string)
| AssertionError
| ValueError (msg : string)
| UnicodeDecodeError.

(** [Diverged] is the outcome of a loop of the model that was given too
    little fuel; [read_seg_total] and [read_seg2_header_total] show that
    the public functions never produce it. *)
Inductive result (A : Type) : Type :=
| Ok (a : A)
| Raise (e : exn)
| Diverged.

Arguments Ok {A} a.
Arguments Raise {A} e.
Arguments Diverged {A}.

(** ** [struct.unpack] *)

Inductive endianness : Type := Little | Big.

(** The unsigned integer held by [bs] in byte order [e]. *)
Definition int_from_bytes (e : endianness) (bs : bytes) : Z :=
  match e with
  | Little => fold_right (fun b acc => byte_val b + 256 * acc) 0 bs
  | Big => fold_left (fun acc b => 256 * acc + byte_val b) bs 0
  end.

(** A format [endian + b'...'] cannot be built when [endian] was never
    assigned. *)
Definition the_endian (endian : option endianness) : result endianness :=
  match endian with
  | Some e => Ok e
  | None => Raise (UnboundLocalError "endian")
  end.

Definition unpack_fixed (width : nat) (e : endianness) (b : bytes)
  : result Z :=
  if Nat.eqb (length b) width then Ok (int_from_bytes e b)
  else Raise StructError.

(** [unpack(b'B', b)]. *)
Definition unpack_B (b : bytes) : result Z :=
  unpack_fixed 1 Little b.

(** [unpack(endian + b'B', b)], [unpack(endian + b'H', b)] and
    [unpack(endian + b'L', b)]. *)
Definition unpack_eB (endian : option endianness) (b : bytes) : result Z :=
  match the_endian endian with
  | Ok e => unpack_fixed 1 e b
  | Raise x => Raise x
  | Diverged => Diverged
  end.

Definition unpack_eH (endian : option endianness) (b : bytes) : result Z :=
  match the_endian endian with
  | Ok e => unpack_fixed 2 e b
  | Raise x => Raise x
  | Diverged => Diverged
  end.

Definition unpack_eL (endian : option endianness) (b : bytes) : result Z :=
  match the_endian endian with
  | Ok e => unpack_fixed 4 e b
  | Raise x => Raise x
  | Diverged => Diverged
  end.

(** [unpack(endian + b'HII', b)]: a 2-byte and two 4-byte unsigned
    integers, without padding since a byte order is given. *)
Definition unpack_eHII (endian : option endianness) (b : bytes)
  : result (Z * Z * Z) :=
  match the_endian endian with
  | Ok e =>
      if Nat.eqb (length b) 10
      then Ok (int_from_bytes e (slice b 0 2),
               int_from_bytes e (slice b 2 6),
               int_from_bytes e (slice b 6 10))
      else Raise StructError
  | Raise x => Raise x
  | Diverged => Diverged
  end.

(** [unpack(b'BccBcc', b)]: six one-byte items. *)
Definition unpack_BccBcc (b : bytes)
  : result (Z * bytes * bytes * Z * bytes * bytes) :=
  match b with
  | [s; s1; s2; l; l1; l2] =>
      Ok (byte_val s, [s1], [s2], byte_val l, [l1], [l2])
  | _ => Raise StructError
  end.

(** ** [bytes.decode('utf-8')]

    A Python [str] is represented by its UTF-8 encoding, so that decoding
    is the identity on the well-formed byte sequences and raises on the
    others. *)

Definition str := list byte.

Definition in_range (lo hi : Z) (b : byte) : bool :=
  (lo <=? byte_val b) && (byte_val b <=? hi).

Definition cont (b : byte) : bool := in_range 128 191 b.

(** Well-formed UTF-8 as [bytes.decode] accepts it: no overlong forms,
    no surrogates, nothing above U+10FFFF. *)
Fixpoint utf8_valid (s : bytes) : bool :=
  match s with
  | [] => true
  | b :: t =>
      let v := byte_val b in
      if v <=? 127 then utf8_valid t
      else if in_range 194 223 b then
        match t with
        | c1 :: t' => cont c1 && utf8_valid t'
        | _ => false
        end
      else if in_range 224 239 b then
        match t with
        | c1 :: c2 :: t' =>
            (if v =? 224 then in_range 160 191 c1
             else if v =? 237 then in_range 128 159 c1
             else cont c1)
            && cont c2 && utf8_valid t'
        | _ => false
        end
      else if in_range 240 244 b then
        match t with
        | c1 :: c2 :: c3 :: t' =>
            (if v =? 240 then in_range 144 191 c1
             else if v =? 244 then in_range 128 143 c1
             else cont c1)
            && cont c2 && cont c3 && utf8_valid t'
        | _ => false
        end
      else false
  end.

Definition decode_utf8 (s : bytes) : result str :=
  if utf8_valid s then Ok s else Raise UnicodeDecodeError.

(** ** Dictionaries

    A [dict] keeps its keys in insertion order; assigning to a key that is
    present replaces the value where the key stands. *)

Definition dict := list (str * str).

Definition str_eqb (a b : str) : bool :=
  if list_eq_dec Byte.byte_eq_dec a b then true else false.

Arguments str_eqb : simpl never.

Fixpoint dict_setitem (d : dict) (k v : str) : dict :=
  match d with
  | [] => [(k, v)]
  | (k', v') :: d' =>
      if str_eqb k' k then (k, v) :: d'
      else (k', v') :: dict_setitem d' k v
  end.

Fixpoint dict_get (d : dict) (k : str) : option str :=
  match d with
  | [] => None
  | (k', v') :: d' => if str_eqb k' k then Some v' else dict_get d' k
  end.

(** ** NumPy arrays

    An item of an integer array is its value; an item of a floating-point
    array is kept as the IEEE-754 bit pattern it was read from. *)

Inductive dtype : Type := int16 | int32 | float32 | float64.

Definition DATA_FORMAT_CODES (code : Z) : option dtype :=
  match code with
  | 1 => Some int16
  | 2 => Some int32
  | 4 => Some float32
  | 5 => Some float64
  | _ => None
  end.

(** [dtype().nbytes]. *)
Definition nbytes (d : dtype) : Z :=
  match d with
  | int16 => 2
  | int32 => 4
  | float32 => 4
  | float64 => 8
  end.

Record ndarray : Type := mk_ndarray {
  arr_dtype : dtype;
  arr_items : list Z
}.

Definition signed (bits : Z) (u : Z) : Z :=
  if u <? 2 ^ (bits - 1) then u else u - 2 ^ bits.

Definition item_of_bytes (native : endianness) (d : dtype) (b : bytes) : Z :=
  match d with
  | int16 => signed 16 (int_from_bytes native b)
  | int32 => signed 32 (int_from_bytes native b)
  | float32 | float64 => int_from_bytes native b
  end.

(** [np.fromstring(raw, dtype=dtype)] in its binary mode: the items are
    read in the byte order of the host, [native]. *)
Definition np_fromstring (native : endianness) (raw : bytes) (d : dtype)
  : result ndarray :=
  let w := Z.to_nat (nbytes d) in
  if Nat.eqb (Nat.modulo (length raw) w) 0 then
    Ok (mk_ndarray d
          (map (fun i => item_of_bytes native d (slice raw (i * w) (i * w + w)))
               (seq 0 (Nat.div (length raw) w))))
  else Raise (ValueError "string size must be a multiple of element size").

(** The dtype that holds the values of two dtypes ([np.promote_types]):
    a floating-point type precise enough for every integer type it is
    joined with. *)
Definition promote_types (a b : dtype) : dtype :=
  match a, b with
  | float64, _ | _, float64 => float64
  | int32, float32 | float32, int32 => float64
  | float32, _ | _, float32 => float32
  | int32, _ | _, int32 => int32
  | int16, int16 => int16
  end.

(** The bit pattern of the floating-point number, with [ebits] exponent
    bits and [mbits] fraction bits, that equals the integer [z]; [z] has
    at most [mbits + 1] significant bits. *)
Definition float_of_int (ebits mbits : Z) (z : Z) : Z :=
  if z =? 0 then 0
  else
    let a := Z.abs z in
    let k := Z.log2 a in
    (if z <? 0 then 2 ^ (ebits + mbits) else 0)
    + (k + (2 ^ (ebits - 1) - 1)) * 2 ^ mbits
    + (a - 2 ^ k) * 2 ^ (mbits - k).

(** The bit pattern of the [float64] that equals the [float32] of bit
    pattern [b]: zeros, subnormal numbers (normal in [float64]),
    normal numbers, infinities, and NaNs (made quiet). *)
Definition float64_of_float32 (b : Z) : Z :=
  let s := b / 2 ^ 31 in
  let e := (b / 2 ^ 23) mod 256 in
  let m := b mod 2 ^ 23 in
  s * 2 ^ 63
  + (if e =? 0 then
       if m =? 0 then 0
       else let k := Z.log2 m in
            (k - 149 + 1023) * 2 ^ 52 + (m - 2 ^ k) * 2 ^ (52 - k)
     else if e =? 255 then
       2047 * 2 ^ 52 + (if m =? 0 then 0 else Z.lor (m * 2 ^ 29) (2 ^ 51))
     else (e - 127 + 1023) * 2 ^ 52 + m * 2 ^ 29).

(** One item converted from a dtype to one that [promote_types] gives
    for it: integers keep their value, and become the floating-point
    number of that value in a floating-point array. *)
Definition astype_item (from to : dtype) (z : Z) : Z :=
  match from, to with
  | int16, float32 => float_of_int 8 23 z
  | int16, float64 | int32, float64 => float_of_int 11 52 z
  | float32, float64 => float64_of_float32 z
  | _, _ => z
  end.

Definition astype (to : dtype) (a : ndarray) : ndarray :=
  mk_ndarray to (map (astype_item (arr_dtype a) to) (arr_items a)).

(** The two-dimensional array made by [np.stack]: its rows, each with
    the items of one trace, all converted to the dtype that holds the
    dtypes of all the traces. *)
Record ndarray2 : Type := mk_ndarray2 {
  rows : list ndarray;
  ncols : nat
}.

Definition shape (a : ndarray2) : nat * nat := (length (rows a), ncols a).

Definition np_stack (arrays : list ndarray) : result ndarray2 :=
  match arrays with
  | [] => Raise (ValueError "need at least one array to stack")
  | a :: rest =>
      if forallb (fun a' => Nat.eqb (length (arr_items a'))
                                    (length (arr_items a))) rest
      then
        let common :=
          fold_left promote_types (map arr_dtype rest) (arr_dtype a) in
        Ok (mk_ndarray2 (map (astype common) arrays)
                        (length (arr_items a)))
      else Raise (ValueError "all input arrays must have the same shape")
  end.

(** ** The interpreter state and its monad *)

Record world : Type := mk_world {
  cursor : nat;
  stdout : list string
}.

Definition py (A : Type) : Type := world -> world * result A.

Definition ret {A} (a : A) : py A := fun w => (w, Ok a).

Definition bind {A B} (m : py A) (k : A -> py B) : py B :=
  fun w =>
    match m w with
    | (w', Ok a) => k a w'
    | (w', Raise e) => (w', Raise e)
    | (w', Diverged) => (w', Diverged)
    end.

Definition lift {A} (r : result A) : py A := fun w => (w, r).

Definition raise {A} (e : exn) : py A := lift (Raise e).

Definition print (s : string) : py unit :=
  fun w => (mk_world (cursor w) (stdout w ++ [s]), Ok tt).

Notation "x <- m ;; k" := (bind m (fun x => k))
  (at level 61, m at next level, right associativity).
Notation "' pat <- m ;; k" := (bind m (fun x => match x with pat => k end))
  (at level 61, pat pattern, m at next level, right associativity).
Notation "m ;;; k" := (bind m (fun _ => k))
  (at level 61, right associativity).

Section File.

(** The bytes of the file opened with [open(fname, 'rb')]. *)
Variable data : bytes.

(** [f.read(n)]: the next [n] bytes, fewer at the end of the file; all
    the remaining bytes when [n] is negative. *)
Definition f_read (n : Z) : py bytes :=
  fun w =>
    let rest := skipn (cursor w) data in
    let got := if n <? 0 then rest else firstn (Z.to_nat n) rest in
    (mk_world (cursor w + length got) (stdout w), Ok got).

(** [f.seek(p, 0)] and [f.seek(k, 1)]. *)
Definition f_seek_set (p : Z) : py unit :=
  fun w => (mk_world (Z.to_nat p) (stdout w), Ok tt).

Definition f_seek_cur (k : Z) : py unit :=
  fun w => (mk_world (Z.to_nat (Z.of_nat (cursor w) + k)) (stdout w), Ok tt).

End File.

(** ** The store of dictionaries

    A dictionary object is a cell of the store and is named by its index;
    [trace_headers] holds such names, so that two entries naming one cell
    are the same object. *)

Definition store := list dict.

Fixpoint store_update (s : store) (a : nat) (f : dict -> dict) : store :=
  match s, a with
  | [], _ => []
  | d :: s', O => f d :: s'
  | d :: s', S a' => d :: store_update s' a' f
  end.

Definition store_get (s : store) (a : nat) : dict := nth a s [].

(** [rev] as [str.format] prints it. *)
Definition show_int (z : Z) : string :=
  DecimalString.NilZero.string_of_int (Z.to_int z).

Section Decoder.

(** The byte order of the host running the decoder. *)
Variable native : endianness.

(** The bytes of the file named [fname]. *)
Variable data : bytes.

(** *** Lines 43-90 and 125-172

    Both functions begin with the same statements: the file descriptor
    block and the trace pointer sub-block.  They are embedded once. *)

(** [for i in range(N)] over the pointer sub-block. *)
Fixpoint pointers_loop (endian : option endianness)
         (trace_pointer_sub_block : bytes) (range : list nat)
         (trace_pointers : list Z) : result (list Z) :=
  match range with
  | [] => Ok trace_pointers
  | i :: range' =>
      let index := (i * 4)%nat in
      let this_word := slice trace_pointer_sub_block index (index + 4) in
      match unpack_eL endian this_word with
      | Ok pointer =>
          pointers_loop endian trace_pointer_sub_block range'
                        (trace_pointers ++ [pointer])
      | Raise e => Raise e
      | Diverged => Diverged
      end
  end.

Definition read_descriptor : py (option endianness * Z * Z) :=
  file_descriptor_block <- f_read data 32 ;;
  first_byte <- lift (unpack_B (slice file_descriptor_block 0 1)) ;;
  endian <- (if first_byte =? 0x55 then ret (Some Little)
             else if first_byte =? 0x3a then ret (Some Big)
             else print "This is not a SEG2 file." ;;; ret None) ;;
  rev <- lift (unpack_eH endian (slice file_descriptor_block 2 4)) ;;
  (if rev =? 1 then ret tt
   else print ("This might not work, file is rev "
               ++ show_int rev ++ ".")%string) ;;;
  M <- lift (unpack_eH endian (slice file_descriptor_block 4 6)) ;;
  N <- lift (unpack_eH endian (slice file_descriptor_block 6 8)) ;;
  '(size_of_string_terminator,
    first_string_terminator_char,
    second_string_terminator_char,
    size_of_line_terminator,
    first_line_terminator_char,
    second_line_terminator_char)
    <- lift (unpack_BccBcc (slice file_descriptor_block 8 14)) ;;
  let string_terminator :=
    if size_of_string_terminator =? 2
    then first_string_terminator_char ++ second_string_terminator_char
    else first_string_terminator_char in
  let line_terminator :=
    if size_of_line_terminator =? 2
    then first_line_terminator_char ++ second_line_terminator_char
    else first_line_terminator_char in
  ret (endian, M, N).

Definition read_trace_pointers (endian : option endianness) (M N : Z)
  : py (list Z) :=
  trace_pointer_sub_block <- f_read data M ;;
  lift (pointers_loop endian trace_pointer_sub_block
                      (seq 0 (Z.to_nat N)) []).

(** *** [read_seg2_header] *)

(** The [while True] loop of lines 93-103. *)
Fixpoint file_header_loop (fuel : nat) (endian : option endianness)
         (file_header : dict) : py dict :=
  match fuel with
  | O => lift Diverged
  | S fuel' =>
      offset_word <- f_read data 2 ;;
      offset <- lift (unpack_eH endian offset_word) ;;
      if offset =? 0 then ret file_header
      else
        this_string <- f_read data (offset - 2) ;;
        match bytes_split this_string with
        | [k; v] =>
            v' <- lift (decode_utf8 (removelast v)) ;;
            k' <- lift (decode_utf8 k) ;;
            file_header_loop fuel' endian (dict_setitem file_header k' v')
        | _ => file_header_loop fuel' endian file_header
        end
  end.

Definition read_seg2_header_body : py dict :=
  '(endian, M, N) <- read_descriptor ;;
  trace_pointers <- read_trace_pointers endian M N ;;
  file_header_loop (S (length data)) endian [].

(** *** [read_seg] *)

(** The [while True] loop of lines 196-209.  [trace_header] names the
    dictionary of the current trace. *)
Fixpoint trace_header_loop (fuel : nat) (endian : option endianness)
         (trace_header : nat) (heap : store) (trace_headers : list nat)
  : py (store * list nat) :=
  match fuel with
  | O => lift Diverged
  | S fuel' =>
      offset_word <- f_read data 2 ;;
      offset <- lift (unpack_eH endian offset_word) ;;
      if offset =? 0 then ret (heap, trace_headers)
      else
        this_string <- f_read data (offset - 2) ;;
        match bytes_split this_string with
        | [k; v] =>
            v' <- lift (decode_utf8 (removelast v)) ;;
            k' <- lift (decode_utf8 k) ;;
            trace_header_loop fuel' endian trace_header
              (store_update heap trace_header
                            (fun d => dict_setitem d k' v'))
              (trace_headers ++ [trace_header])
        | _ => trace_header_loop fuel' endian trace_header heap trace_headers
        end
  end.

(** The variables of [read_seg] that outlive one pass of the loop over
    the trace pointers. *)
Record locals : Type := mk_locals {
  l_dtype : option dtype;
  l_heap : store;
  l_trace_headers : list nat;
  l_traces : list ndarray
}.

(** One pass of [for p in trace_pointers], lines 177-220. *)
Definition trace_body (endian : option endianness) (p : Z) (l : locals)
  : py locals :=
  f_seek_set p ;;;
  trace_descriptor_block <- f_read data 32 ;;
  ID <- lift (unpack_eH endian (slice trace_descriptor_block 0 2)) ;;
  (if ID =? 0x4422 then ret tt else raise AssertionError) ;;;
  '(_, _, NS) <- lift (unpack_eHII endian
                                   (slice trace_descriptor_block 2 12)) ;;
  format_code <- lift (unpack_eB endian
                                 (slice trace_descriptor_block 12 13)) ;;
  dtype_var <- match DATA_FORMAT_CODES format_code with
               | Some d => ret (Some d)
               | None => print "Data type not supported." ;;;
                         ret (l_dtype l)
               end ;;
  d <- match dtype_var with
       | Some d => ret d
       | None => raise (UnboundLocalError "dtype")
       end ;;
  let trace_header := length (l_heap l) in
  '(heap, trace_headers)
    <- trace_header_loop (S (length data)) endian trace_header
                         (l_heap l ++ [[]]) (l_trace_headers l) ;;
  f_seek_cur 1 ;;;
  raw <- f_read data (NS * nbytes d) ;;
  trace <- lift (np_fromstring native raw d) ;;
  ret (mk_locals dtype_var heap trace_headers (l_traces l ++ [trace])).

Fixpoint traces_loop (endian : option endianness) (trace_pointers : list Z)
         (l : locals) : py locals :=
  match trace_pointers with
  | [] => ret l
  | p :: ps =>
      l' <- trace_body endian p l ;;
      traces_loop endian ps l'
  end.

(** What [read_seg] returns: the list [trace_headers], whose entries
    name dictionaries of [seg_heap], and the stacked array. *)
Record seg : Type := mk_seg {
  seg_trace_headers : list nat;
  seg_heap : store;
  seg_x_arr : ndarray2
}.

Definition read_seg_body : py seg :=
  '(endian, M, N) <- read_descriptor ;;
  trace_pointers <- read_trace_pointers endian M N ;;
  l <- traces_loop endian trace_pointers (mk_locals None [] [] []) ;;
  x_arr <- lift (np_stack (l_traces l)) ;;
  ret (mk_seg (l_trace_headers l) (l_heap l) x_arr).

End Decoder.

Definition initial_world : world := mk_world 0 [].

(** [read_seg2_header(fname)] and [read_seg(fname)] on a file holding
    [data]: what was printed, and the result. *)
Definition read_seg2_header (data : bytes) : list string * result dict :=
  let (w, r) := read_seg2_header_body data initial_world in (stdout w, r).

Definition read_seg (native : endianness) (data : bytes)
  : list string * result seg :=
  let (w, r) := read_seg_body native data initial_world in (stdout w, r).

(** The list of trace headers as the caller sees it. *)
Definition trace_headers_of (s : seg) : list dict :=
  map (store_get (seg_heap s)) (seg_trace_headers s).

(** ** The layout of a SEG-2 file

    The module only reads files.  To state what it reads, the byte
    sequences of the layout are built here: integers in a byte order,
    chunks of a free-format block. *)

Definition byte_of_Z (z : Z) : byte :=
  match Byte.of_N (Z.to_N (z mod 256)) with
  | Some b => b
  | None => x00
  end.

Fixpoint le_bytes (n : nat) (z : Z) : bytes :=
  match n with
  | O => []
  | S n' => byte_of_Z z :: le_bytes n' (z / 256)
  end.

(** The [n] bytes of [z] in byte order [e]. *)
Definition pack (e : endianness) (n : nat) (z : Z) : bytes :=
  match e with
  | Little => le_bytes n z
  | Big => rev (le_bytes n z)
  end.

(** A chunk as the block parser reads it: a 2-byte length that counts
    itself, then the text. *)
Definition chunk (e : endianness) (text : bytes) : bytes :=
  pack e 2 (Z.of_nat (length text) + 2) ++ text.

(** The text of a well-formed entry: a key, a run of whitespace, a value
    and one terminator byte. *)
Record entry : Type := mk_entry {
  e_key : bytes;
  e_sep : bytes;
  e_value : bytes;
  e_term : byte
}.

Definition entry_text (x : entry) : bytes :=
  e_key x ++ e_sep x ++ e_value x ++ [e_term x].

Definition nonspace (b : byte) : bool := negb (isspace b).

Definition well_formed (x : entry) : Prop :=
  e_key x <> [] /\ forallb nonspace (e_key x) = true /\
  e_sep x <> [] /\ forallb isspace (e_sep x) = true /\
  forallb nonspace (e_value x) = true /\
  isspace (e_term x) = false /\
  utf8_valid (e_key x) = true /\ utf8_valid (e_value x) = true /\
  Z.of_nat (length (entry_text x)) + 2 < 65536.

(** What a block is made of: entries, and texts that do not split into
    two parts. *)
Inductive item : Type :=
| Good (x : entry)
| Bad (text : bytes).

Definition item_text (i : item) : bytes :=
  match i with
  | Good x => entry_text x
  | Bad text => text
  end.

Definition item_ok (i : item) : Prop :=
  match i with
  | Good x => well_formed x
  | Bad text => length (bytes_split text) <> 2%nat /\
                Z.of_nat (length text) + 2 < 65536
  end.

Definition encode_items (e : endianness) (items : list item) : bytes :=
  concat (map (fun i => chunk e (item_text i)) items).

(** The zero-length marker that ends a block. *)
Definition terminator : bytes := [x00; x00].

(** The assignments the good items of a block amount to, in order. *)
Definition store_items (items : list item) (d : dict) : dict :=
  fold_left (fun d i => match i with
                        | Good x => dict_setitem d (e_key x) (e_value x)
                        | Bad _ => d
                        end) items d.


(** The assignment [file_header[key] = value] of one entry. *)
Definition assign (d : dict) (x : entry) : dict :=
  dict_setitem d (e_key x) (e_value x).

(** The keys of a sequence in the order they are first seen. *)
Definition first_seen (ks : list str) : list str :=
  fold_left (fun acc k => if existsb (fun k' => str_eqb k' k) acc
                          then acc else acc ++ [k]) ks [].

(** The value of the last entry of [xs] whose key is [k]. *)
Definition last_value (xs : list entry) (k : str) : option str :=
  fold_left (fun o x => if str_eqb (e_key x) k then Some (e_value x) else o)
            xs None.

(** Three entries, the third assigning again to the key of the first. *)
Definition sample_entries : list entry :=
  [mk_entry [x41] [x20] [x31] x00;
   mk_entry [x42] [x20; x09] [x32; x33] x00;
   mk_entry [x41] [x20] [x34] x00].


(** A text without any whitespace. *)
Definition sample_bad : bytes := [x4a; x55; x4e; x4b].

(** The first byte of a file in byte order [e]. *)
Definition magic (e : endianness) : byte :=
  match e with
  | Little => x55
  | Big => x3a
  end.

(** A 32-byte file descriptor block of revision 1: [M], [N] and the six
    bytes [st] that describe the string and line terminators. *)
Definition file_descriptor_block (e : endianness) (M N : Z) (st : bytes)
  : bytes :=
  [magic e; x00] ++ pack e 2 1 ++ pack e 2 M ++ pack e 2 N
    ++ firstn 6 (st ++ repeat x00 6) ++ repeat x00 18.

(** A 32-byte trace descriptor block: the block ID, X, Y, the number of
    samples and the data format code. *)
Definition trace_descriptor_block (e : endianness) (ID NS code : Z)
  : bytes :=
  pack e 2 ID ++ pack e 2 0 ++ pack e 4 0 ++ pack e 4 NS
    ++ [byte_of_Z code] ++ repeat x00 19.

(** A trace: descriptor, free-format header, the byte that the decoder
    skips, and the payload. *)
Definition trace_block (e : endianness) (ID NS code : Z)
           (items : list item) (payload : bytes) : bytes :=
  trace_descriptor_block e ID NS code
    ++ encode_items e items ++ terminator ++ [x00] ++ payload.

(** The usual terminators: one NUL for strings, one newline for lines. *)
Definition usual_terminators : bytes := [x01; x00; x00; x01; x0a; x00].

(** A little-endian file of two traces of one [int16] sample each; the
    block ID of the second is [0x4423]. *)
Definition bad_id_file : bytes :=
  file_descriptor_block Little 8 2 usual_terminators
    ++ pack Little 4 40 ++ pack Little 4 77
    ++ trace_block Little 0x4422 1 1 [] [x07; x00]
    ++ trace_block Little 0x4423 1 1 [] [x08; x00].

(** The width in bytes of one sample for each supported format code, as
    the specification states it. *)
Definition width (code : Z) : Z :=
  match code with
  | 1 => 2
  | 2 => 4
  | 4 => 4
  | 5 => 8
  | _ => 0
  end.

(** A little-endian file of one [int16] trace that declares two samples
    and ends after the first. *)
Definition short_payload_file : bytes :=
  file_descriptor_block Little 4 1 usual_terminators
    ++ pack Little 4 36
    ++ trace_block Little 0x4422 2 1 [] [x07; x00].

(** The same trace with its two samples. *)
Definition full_payload_file : bytes :=
  file_descriptor_block Little 4 1 usual_terminators
    ++ pack Little 4 36
    ++ trace_block Little 0x4422 2 1 [] [x07; x00; x08; x00].

(** A descriptor that declares the two-byte string terminator CR LF. *)
Definition crlf_terminators : bytes := [x02; x0d; x0a; x01; x0a; x00].

(** A header-only file with that descriptor and the one entry
    [K V] followed by CR LF. *)
Definition crlf_file : bytes :=
  file_descriptor_block Little 0 0 crlf_terminators
    ++ chunk Little [x4b; x20; x56; x0d; x0a] ++ terminator.

(** A descriptor that declares a two-byte string terminator of two
    NULs, and an entry [K V] followed by them. *)
Definition nul2_terminators : bytes := [x02; x00; x00; x01; x0a; x00].

Definition nul2_text : bytes := [x4b; x20; x56; x00; x00].

(** A little-endian file of one [int16] trace of one sample, whose
    header holds the two entries [A 1] and [B 23]. *)
Definition two_entry_file : bytes :=
  file_descriptor_block Little 4 1 usual_terminators
    ++ pack Little 4 36
    ++ trace_block Little 0x4422 1 1
         [Good (mk_entry [x41] [x20] [x31] x00);
          Good (mk_entry [x42] [x20] [x32; x33] x00)]
         [x07; x00].

(** A little-endian file of two traces of one sample each: the first
    has format code 1, the second the unsupported code 3. *)
Definition stale_dtype_file : bytes :=
  file_descriptor_block Little 8 2 usual_terminators
    ++ pack Little 4 40 ++ pack Little 4 77
    ++ trace_block Little 0x4422 1 1 [] [x07; x00]
    ++ trace_block Little 0x4422 1 3 [] [x08; x00].

(** A little-endian file whose only trace has the unsupported code 3. *)
Definition unsupported_first_file : bytes :=
  file_descriptor_block Little 4 1 usual_terminators
    ++ pack Little 4 36
    ++ trace_block Little 0x4422 1 3 [] [x08; x00].

(** A program that ends in every state: it returns or raises. *)
Definition total {A} (m : py A) : Prop :=
  forall w, snd (m w) <> Diverged.

(** A big-endian file of one [int32] trace of one sample, whose header
    holds an entry, a text without whitespace and another entry. *)
Definition bad_chunk_trace_file : bytes :=
  file_descriptor_block Big 4 1 usual_terminators
    ++ pack Big 4 36
    ++ trace_block Big 0x4422 1 2
         [Good (mk_entry [x41] [x20] [x31] x00);
          Bad sample_bad;
          Good (mk_entry [x42] [x20] [x32; x33] x00)]
         [x00; x00; x00; x09].

(** A chunk whose key is the byte [0xFF], which no UTF-8 text holds. *)
Definition bad_utf8_text : bytes := [xff; x20; x56; x00].

(** A little-endian file of two [int16] traces, of one sample and of
    two. *)
Definition ragged_file : bytes :=
  file_descriptor_block Little 8 2 usual_terminators
    ++ pack Little 4 40 ++ pack Little 4 77
    ++ trace_block Little 0x4422 1 1 [] [x07; x00]
    ++ trace_block Little 0x4422 2 1 [] [x08; x00; x09; x00].

(** A little-endian file whose only pointer is the length of the file. *)
Definition dangling_pointer_file : bytes :=
  file_descriptor_block Little 4 1 usual_terminators ++ pack Little 4 36.

(** What every dictionary built by the block parser is like: distinct
    keys, each a non-empty word, each value a word or empty, both
    decoded from UTF-8. *)
Definition word_pair (kv : str * str) : Prop :=
  fst kv <> [] /\
  forallb nonspace (fst kv) = true /\ forallb nonspace (snd kv) = true /\
  utf8_valid (fst kv) = true /\ utf8_valid (snd kv) = true.

Definition header_like (d : dict) : Prop :=
  NoDup (map fst d) /\ Forall word_pair d.

(** What the store and [trace_headers] of [read_seg] are like: the
    names in the list are those of the dictionaries that hold an entry,
    and every dictionary is like a header. *)
Definition headers_ok (heap : store) (ths : list nat) : Prop :=
  (forall a, In a ths <-> (a < length heap)%nat /\ store_get heap a <> [])
  /\ Forall header_like heap.

(** The format code of the trace descriptor at pointer [p]. *)
Definition code_at (e : endianness) (data : bytes) (p : Z) : Z :=
  int_from_bytes e (slice data (Z.to_nat p + 12) (Z.to_nat p + 13)).

(** The trace that [read_seg] decodes at pointer [p] when it is the
    first, if it decodes one. *)
Definition trace_alone (native e : endianness) (data : bytes) (p : Z)
  : option ndarray :=
  match trace_body native data (Some e) p (mk_locals None [] [] [])
                   initial_world with
  | (_, Ok l) => hd_error (l_traces l)
  | _ => None
  end.

(** The dtype of the array that [np.stack] makes of some traces. *)
Definition stack_dtype (ts : list ndarray) : dtype :=
  match ts with
  | [] => int16
  | a :: rest => fold_left promote_types (map arr_dtype rest) (arr_dtype a)
  end.

(** A little-endian file of an [int16] trace and a [float32] trace, of
    one sample each: 7 and 1.0. *)
Definition mixed_file : bytes :=
  file_descriptor_block Little 8 2 usual_terminators
    ++ pack Little 4 40 ++ pack Little 4 77
    ++ trace_block Little 0x4422 1 1 [] [x07; x00]
    ++ trace_block Little 0x4422 1 4 [] [x00; x00; x80; x3f].

(** A big-endian file of one [int16] trace with the two samples 7 and
    8, stored big-endian as the first byte of the file declares. *)
Definition big_endian_payload_file : bytes :=
  file_descriptor_block Big 4 1 usual_terminators
    ++ pack Big 4 36
    ++ trace_block Big 0x4422 2 1 [] [x00; x07; x00; x08].



(** A header-only file with the one entry [NOTE hi you], whose value is
    made of two words, and a NUL. *)
Definition multiword_text : bytes :=
  [x4e; x4f; x54; x45; x20; x68; x69; x20; x79; x6f; x75; x00].

Definition multiword_file : bytes :=
  file_descriptor_block Little 0 0 usual_terminators
    ++ chunk Little multiword_text ++ terminator.


(** A header-only file with the one entry [K V] ended by a newline. *)
Definition newline_text : bytes := [x4b; x20; x56; x0a].

Definition newline_file : bytes :=
  file_descriptor_block Little 0 0 usual_terminators
    ++ chunk Little newline_text ++ terminator.

(** ** Properties *)

(** *** Integers and bytes *)

Lemma byte_val_range (b : byte) : 0 <= byte_val b < 256.
Proof.
  unfold byte_val. pose proof (Byte.to_N_bounded b). lia.
Qed.

Lemma byte_val_of_Z (z : Z) : byte_val (byte_of_Z z) = z mod 256.
Proof.
  unfold byte_of_Z, byte_val.
  assert (Hr : 0 <= z mod 256 < 256) by (apply Z.mod_pos_bound; lia).
  destruct (Byte.of_N (Z.to_N (z mod 256))) as [b|] eqn:E.
  - apply Byte.to_of_N in E. rewrite E. lia.
  - apply Byte.of_N_None_iff in E. lia.
Qed.

Lemma length_le_bytes (n : nat) (z : Z) : length (le_bytes n z) = n.
Proof.
  revert z. induction n as [|n IH]; intros z; simpl; [reflexivity|].
  now rewrite IH.
Qed.

Lemma length_pack (e : endianness) (n : nat) (z : Z) :
  length (pack e n z) = n.
Proof.
  destruct e; simpl; [|rewrite length_rev]; apply length_le_bytes.
Qed.

Lemma int_from_bytes_pack2 (e : endianness) (z : Z) :
  0 <= z < 65536 -> int_from_bytes e (pack e 2 z) = z.
Proof.
  intros Hz.
  assert (Hd : 0 <= z / 256 < 256)
    by (split; [apply Z.div_pos; lia | apply Z.div_lt_upper_bound; lia]).
  pose proof (Z.div_mod z 256 ltac:(lia)) as Hm.
  destruct e; cbn [int_from_bytes pack le_bytes rev app fold_right fold_left];
    rewrite !byte_val_of_Z, (Z.mod_small (z / 256)) by lia; lia.
Qed.

Lemma unpack_eH_pack (e : endianness) (z : Z) :
  0 <= z < 65536 -> unpack_eH (Some e) (pack e 2 z) = Ok z.
Proof.
  intros Hz. unfold unpack_eH, unpack_fixed; simpl the_endian; cbv iota.
  rewrite length_pack. simpl Nat.eqb. cbv iota.
  now rewrite int_from_bytes_pack2.
Qed.

(** *** Splitting *)

Lemma bytes_split_nonspace (w : bytes) :
  w <> [] -> forallb nonspace w = true -> bytes_split w = [w].
Proof.
  induction w as [|b t IH]; intros Hne Hw; [congruence|].
  simpl in Hw. apply andb_true_iff in Hw as [Hb Ht].
  unfold nonspace in Hb. apply negb_true_iff in Hb.
  simpl. rewrite Hb. destruct t as [|c t']; [reflexivity|].
  pose proof Ht as Ht'. simpl in Ht'. apply andb_true_iff in Ht' as [Hc _].
  unfold nonspace in Hc. apply negb_true_iff in Hc. rewrite Hc.
  rewrite IH by (congruence || assumption). reflexivity.
Qed.

Lemma bytes_split_space (s t : bytes) :
  forallb isspace s = true -> bytes_split (s ++ t) = bytes_split t.
Proof.
  induction s as [|b s IH]; intros Hs; [reflexivity|].
  simpl in Hs. apply andb_true_iff in Hs as [Hb Hs].
  simpl. rewrite Hb. auto.
Qed.

Lemma bytes_split_cons2 (b c : byte) (t : bytes) :
  bytes_split (b :: c :: t) =
  if isspace b then bytes_split (c :: t)
  else if isspace c then [b] :: bytes_split (c :: t)
       else match bytes_split (c :: t) with
            | w :: ws => (b :: w) :: ws
            | [] => [[b]]
            end.
Proof. reflexivity. Qed.

Lemma bytes_split_word (w : bytes) (c : byte) (t : bytes) :
  w <> [] -> forallb nonspace w = true -> isspace c = true ->
  bytes_split (w ++ c :: t) = w :: bytes_split t.
Proof.
  induction w as [|b w IH]; intros Hne Hw Hc; [congruence|].
  simpl in Hw. apply andb_true_iff in Hw as [Hb Hw].
  unfold nonspace in Hb. apply negb_true_iff in Hb.
  destruct w as [|b' w'].
  - change ([b] ++ c :: t) with (b :: c :: t).
    rewrite bytes_split_cons2, Hb, Hc.
    simpl. now rewrite Hc.
  - assert (Hb' : isspace b' = false).
    { simpl in Hw. apply andb_true_iff in Hw as [Hb' _].
      unfold nonspace in Hb'. now apply negb_true_iff in Hb'. }
    specialize (IH ltac:(congruence) Hw Hc).
    change ((b :: b' :: w') ++ c :: t) with (b :: b' :: (w' ++ c :: t)).
    change ((b' :: w') ++ c :: t) with (b' :: (w' ++ c :: t)) in IH.
    rewrite bytes_split_cons2, Hb, Hb', IH. reflexivity.
Qed.

Lemma bytes_split_entry (x : entry) :
  well_formed x ->
  bytes_split (entry_text x) = [e_key x; e_value x ++ [e_term x]].
Proof.
  intros (Hk & Hkn & Hs & Hsp & Hv & Ht & _).
  unfold entry_text.
  destruct (e_sep x) as [|c s] eqn:Es; [congruence|].
  simpl in Hsp. apply andb_true_iff in Hsp as [Hc Hsp].
  change ((c :: s) ++ e_value x ++ [e_term x])
    with (c :: (s ++ e_value x ++ [e_term x])).
  rewrite bytes_split_word by assumption.
  rewrite bytes_split_space by assumption.
  rewrite bytes_split_nonspace; [reflexivity| |].
  - destruct (e_value x); discriminate.
  - rewrite forallb_app, Hv. simpl. unfold nonspace. now rewrite Ht.
Qed.

(** *** The monad and the file *)

Lemma bind_ok {A B} (m : py A) (k : A -> py B) (w w' : world) (a : A) :
  m w = (w', Ok a) -> bind m k w = k a w'.
Proof. intros H. unfold bind. now rewrite H. Qed.

Lemma bind_lift_ok {A B} (a : A) (k : A -> py B) (w : world) :
  bind (lift (Ok a)) k w = k a w.
Proof. reflexivity. Qed.

Lemma bind_raise {A B} (m : py A) (k : A -> py B) (w w' : world) (e : exn) :
  m w = (w', Raise e) -> bind m k w = (w', Raise e).
Proof. intros H. unfold bind. now rewrite H. Qed.

Lemma f_read_at (data pre x rest : bytes) (n : Z) (c c' : nat)
      (out : list string) :
  data = pre ++ x ++ rest -> c = length pre -> n = Z.of_nat (length x) ->
  c' = (c + length x)%nat ->
  f_read data n (mk_world c out) = (mk_world c' out, Ok x).
Proof.
  intros -> -> -> ->. unfold f_read. simpl cursor. simpl stdout.
  rewrite skipn_app, skipn_all, Nat.sub_diag. simpl skipn.
  change ([] ++ x ++ rest) with (x ++ rest).
  destruct (Z.of_nat (length x) <? 0) eqn:E; [apply Z.ltb_lt in E; lia|].
  rewrite Nat2Z.id, firstn_app, firstn_all, Nat.sub_diag.
  simpl firstn. now rewrite app_nil_r.
Qed.

Lemma store_update_at (h1 h2 : store) (d : dict) (f : dict -> dict) :
  store_update (h1 ++ d :: h2) (length h1) f = h1 ++ f d :: h2.
Proof.
  induction h1 as [|d' h1 IH]; simpl; [reflexivity|]. now rewrite IH.
Qed.

Lemma decode_utf8_valid (s : bytes) :
  utf8_valid s = true -> decode_utf8 s = Ok s.
Proof. intros H. unfold decode_utf8. now rewrite H. Qed.

Lemma length_chunk (e : endianness) (text : bytes) :
  length (chunk e text) = (2 + length text)%nat.
Proof. unfold chunk. now rewrite length_app, length_pack. Qed.

Lemma item_text_bound (i : item) :
  item_ok i -> Z.of_nat (length (item_text i)) + 2 < 65536.
Proof.
  destruct i as [x|text]; simpl.
  - intros H. apply H.
  - intros [_ H]. exact H.
Qed.

(** *** The free-format block parser *)

Section Blocks.

Variable e : endianness.

Lemma unpack_terminator : unpack_eH (Some e) terminator = Ok 0.
Proof. destruct e; reflexivity. Qed.

(** One pass of the loop of [read_seg2_header] over a chunk: the
    length word and the text are read, and the cursor stands after
    the text. *)
Lemma file_header_loop_chunk (fuel : nat) (pre text rest : bytes)
      (d : dict) (out : list string) :
  Z.of_nat (length text) + 2 < 65536 ->
  file_header_loop (pre ++ chunk e text ++ rest) (S fuel) (Some e) d
                   (mk_world (length pre) out)
  = match bytes_split text with
    | [k; v] =>
        (v' <- lift (decode_utf8 (removelast v)) ;;
         k' <- lift (decode_utf8 k) ;;
         file_header_loop (pre ++ chunk e text ++ rest) fuel (Some e)
                          (dict_setitem d k' v'))
          (mk_world (length (pre ++ chunk e text)) out)
    | _ => file_header_loop (pre ++ chunk e text ++ rest) fuel (Some e) d
                            (mk_world (length (pre ++ chunk e text)) out)
    end.
Proof.
  intros Hlen. set (data := pre ++ chunk e text ++ rest).
  cbn [file_header_loop].
  rewrite (bind_ok _ _ _ (mk_world (length pre + 2) out)
                   (pack e 2 (Z.of_nat (length text) + 2))).
  2:{ apply f_read_at with (pre := pre) (rest := text ++ rest).
      - unfold data, chunk. now rewrite <- app_assoc.
      - reflexivity.
      - now rewrite length_pack.
      - now rewrite length_pack. }
  rewrite unpack_eH_pack by lia. rewrite bind_lift_ok.
  destruct (Z.of_nat (length text) + 2 =? 0) eqn:E0;
    [apply Z.eqb_eq in E0; lia|].
  rewrite (bind_ok _ _ _ (mk_world (length pre + 2 + length text) out) text).
  2:{ apply f_read_at
        with (pre := pre ++ pack e 2 (Z.of_nat (length text) + 2))
             (rest := rest).
      - unfold data, chunk. now rewrite <- !app_assoc.
      - now rewrite length_app, length_pack.
      - lia.
      - reflexivity. }
  replace (length (pre ++ chunk e text))
    with (length pre + 2 + length text)%nat
    by (rewrite length_app, length_chunk; lia).
  destruct (bytes_split text) as [|k [|v [|z l]]]; reflexivity.
Qed.

Lemma file_header_loop_end (fuel : nat) (pre rest : bytes)
      (d : dict) (out : list string) :
  file_header_loop (pre ++ terminator ++ rest) (S fuel) (Some e) d
                   (mk_world (length pre) out)
  = (mk_world (length pre + 2) out, Ok d).
Proof.
  cbn [file_header_loop].
  rewrite (bind_ok _ _ _ (mk_world (length pre + 2) out) terminator)
    by (now apply f_read_at with (pre := pre) (rest := rest)).
  rewrite unpack_terminator, bind_lift_ok. reflexivity.
Qed.

Lemma file_header_loop_items (items : list item) :
  forall (fuel : nat) (pre post : bytes) (d : dict) (out : list string),
    Forall item_ok items ->
    (length items < fuel)%nat ->
    file_header_loop (pre ++ encode_items e items ++ terminator ++ post)
                     fuel (Some e) d (mk_world (length pre) out)
    = (mk_world (length pre + length (encode_items e items) + 2) out,
       Ok (store_items items d)).
Proof.
  induction items as [|i items IH]; intros fuel pre post d out Hok Hfuel.
  - destruct fuel as [|fuel]; [simpl in Hfuel; lia|].
    change (encode_items e [] ++ terminator ++ post)
      with (terminator ++ post).
    rewrite file_header_loop_end. simpl. now rewrite Nat.add_0_r.
  - destruct fuel as [|fuel]; [simpl in Hfuel; lia|].
    inversion Hok as [|? ? Hi Hitems]; subst.
    unfold encode_items. cbn [map concat]. fold (encode_items e items).
    rewrite <- app_assoc.
    rewrite file_header_loop_chunk by now apply item_text_bound.
    assert (Hnext :
      forall d', file_header_loop
              (pre ++ chunk e (item_text i) ++
                   encode_items e items ++ terminator ++ post)
              fuel (Some e) d'
              (mk_world (length (pre ++ chunk e (item_text i))) out)
      = (mk_world (length pre +
                   length (chunk e (item_text i) ++ encode_items e items)
                   + 2) out,
         Ok (store_items items d'))).
    { intros d'. rewrite app_assoc.
      rewrite IH by (assumption || simpl in Hfuel; lia).
      rewrite !length_app. f_equal. f_equal. lia. }
    destruct i as [x|text].
    + cbn [item_text] in *. rewrite (bytes_split_entry x Hi).
      rewrite removelast_last.
      destruct Hi as (_ & _ & _ & _ & _ & _ & Hk & Hv & _).
      rewrite (decode_utf8_valid _ Hv), (decode_utf8_valid _ Hk).
      rewrite !bind_lift_ok, Hnext. reflexivity.
    + cbn [item_text] in *. destruct Hi as [Hsplit _].
      destruct (bytes_split text) as [|k [|v [|z l]]];
        try (simpl in Hsplit; congruence);
        rewrite Hnext; reflexivity.
Qed.

(** The loop of [read_seg] does the same on the dictionary named
    [trace_header], and appends that name to [trace_headers] once for
    every entry it stores. *)
Lemma trace_header_loop_chunk (fuel : nat) (pre text rest : bytes)
      (a : nat) (h : store) (ths : list nat) (out : list string) :
  Z.of_nat (length text) + 2 < 65536 ->
  trace_header_loop (pre ++ chunk e text ++ rest) (S fuel) (Some e) a h ths
                    (mk_world (length pre) out)
  = match bytes_split text with
    | [k; v] =>
        (v' <- lift (decode_utf8 (removelast v)) ;;
         k' <- lift (decode_utf8 k) ;;
         trace_header_loop (pre ++ chunk e text ++ rest) fuel (Some e) a
           (store_update h a (fun d => dict_setitem d k' v'))
           (ths ++ [a]))
          (mk_world (length (pre ++ chunk e text)) out)
    | _ => trace_header_loop (pre ++ chunk e text ++ rest) fuel (Some e)
                             a h ths
                             (mk_world (length (pre ++ chunk e text)) out)
    end.
Proof.
  intros Hlen. set (data := pre ++ chunk e text ++ rest).
  cbn [trace_header_loop].
  rewrite (bind_ok _ _ _ (mk_world (length pre + 2) out)
                   (pack e 2 (Z.of_nat (length text) + 2))).
  2:{ apply f_read_at with (pre := pre) (rest := text ++ rest).
      - unfold data, chunk. now rewrite <- app_assoc.
      - reflexivity.
      - now rewrite length_pack.
      - now rewrite length_pack. }
  rewrite unpack_eH_pack by lia. rewrite bind_lift_ok.
  destruct (Z.of_nat (length text) + 2 =? 0) eqn:E0;
    [apply Z.eqb_eq in E0; lia|].
  rewrite (bind_ok _ _ _ (mk_world (length pre + 2 + length text) out) text).
  2:{ apply f_read_at
        with (pre := pre ++ pack e 2 (Z.of_nat (length text) + 2))
             (rest := rest).
      - unfold data, chunk. now rewrite <- !app_assoc.
      - now rewrite length_app, length_pack.
      - lia.
      - reflexivity. }
  replace (length (pre ++ chunk e text))
    with (length pre + 2 + length text)%nat
    by (rewrite length_app, length_chunk; lia).
  destruct (bytes_split text) as [|k [|v [|z l]]]; reflexivity.
Qed.



End Blocks.

(** *** Dictionaries built by successive assignments *)

Lemma store_items_good (xs : list entry) (d : dict) :
  store_items (map Good xs) d = fold_left assign xs d.
Proof.
  revert d. induction xs as [|x xs IH]; intros d; [reflexivity|].
  simpl. apply IH.
Qed.


Lemma str_eqb_eq (a b : str) : str_eqb a b = true <-> a = b.
Proof.
  unfold str_eqb. destruct (list_eq_dec Byte.byte_eq_dec a b);
    split; congruence.
Qed.

Lemma str_eqb_refl (a : str) : str_eqb a a = true.
Proof. now apply str_eqb_eq. Qed.

Lemma str_eqb_neq (a b : str) : str_eqb a b = false <-> a <> b.
Proof.
  unfold str_eqb. destruct (list_eq_dec Byte.byte_eq_dec a b);
    split; congruence.
Qed.

Lemma dict_setitem_fresh (d : dict) (k v : str) :
  ~ In k (map fst d) -> dict_setitem d k v = d ++ [(k, v)].
Proof.
  induction d as [|[k' v'] d IH]; intros Hk; [reflexivity|].
  simpl in *. destruct (str_eqb k' k) eqn:E.
  - apply str_eqb_eq in E. tauto.
  - rewrite IH by tauto. reflexivity.
Qed.

Lemma fold_assign_nodup (xs : list entry) (d : dict) :
  NoDup (map fst d ++ map e_key xs) ->
  fold_left assign xs d = d ++ map (fun x => (e_key x, e_value x)) xs.
Proof.
  revert d. induction xs as [|x xs IH]; intros d Hnd.
  - simpl. now rewrite app_nil_r.
  - simpl fold_left. unfold assign at 2.
    rewrite dict_setitem_fresh.
    + rewrite IH.
      * simpl. now rewrite <- app_assoc.
      * rewrite map_app. simpl. rewrite <- app_assoc. exact Hnd.
    + simpl in Hnd. apply NoDup_remove_2 in Hnd.
      intros Hin. apply Hnd. apply in_or_app. now left.
Qed.

Lemma dict_get_setitem (d : dict) (k v k' : str) :
  dict_get (dict_setitem d k v) k' =
  if str_eqb k k' then Some v else dict_get d k'.
Proof.
  induction d as [|[k0 v0] d IH]; simpl.
  - reflexivity.
  - destruct (str_eqb k0 k) eqn:E0; simpl.
    + apply str_eqb_eq in E0. subst k0.
      destruct (str_eqb k k'); reflexivity.
    + rewrite IH. destruct (str_eqb k0 k') eqn:E1; [|reflexivity].
      apply str_eqb_eq in E1. subst k0.
      destruct (str_eqb k k') eqn:E2; [|reflexivity].
      apply str_eqb_eq in E2. subst k'.
      rewrite str_eqb_refl in E0. discriminate.
Qed.

Lemma keys_setitem (d : dict) (k v : str) :
  map fst (dict_setitem d k v) =
  if existsb (fun k' => str_eqb k' k) (map fst d) then map fst d
  else map fst d ++ [k].
Proof.
  induction d as [|[k0 v0] d IH]; simpl; [reflexivity|].
  destruct (str_eqb k0 k) eqn:E0; simpl.
  - apply str_eqb_eq in E0. now subst.
  - rewrite IH. now destruct (existsb _ (map fst d)).
Qed.

Lemma length_encode_items (e : endianness) (items : list item) :
  (length items <= length (encode_items e items))%nat.
Proof.
  induction items as [|i items IH]; simpl; [lia|].
  unfold encode_items in *. simpl. rewrite length_app, length_chunk. lia.
Qed.

Lemma keys_fold_assign (xs : list entry) (d : dict) :
  map fst (fold_left assign xs d) =
  fold_left (fun acc k => if existsb (fun k' => str_eqb k' k) acc
                          then acc else acc ++ [k])
            (map e_key xs) (map fst d).
Proof.
  revert d. induction xs as [|x xs IH]; intros d; [reflexivity|].
  simpl. rewrite IH. unfold assign. now rewrite keys_setitem.
Qed.

Lemma get_fold_assign (xs : list entry) (d : dict) (k : str) :
  dict_get (fold_left assign xs d) k =
  fold_left (fun o x => if str_eqb (e_key x) k then Some (e_value x) else o)
            xs (dict_get d k).
Proof.
  revert d. induction xs as [|x xs IH]; intros d; [reflexivity|].
  simpl. rewrite IH. unfold assign. now rewrite dict_get_setitem.
Qed.

(** *** The free-format block of the file header *)

Lemma good_items_ok (xs : list entry) :
  Forall well_formed xs -> Forall item_ok (map Good xs).
Proof.
  intros H. apply Forall_forall. intros i Hi.
  apply in_map_iff in Hi as (x & <- & Hx).
  simpl. eapply Forall_forall; eassumption.
Qed.






(** *** The trace pointer sub-block *)

Lemma length_slice (b : bytes) (i j : nat) :
  length (slice b i j) = Nat.min (j - i) (length b - i).
Proof. unfold slice. now rewrite length_firstn, length_skipn. Qed.

Lemma slice_slice (b : bytes) (a a' i j : nat) :
  (a + j <= a')%nat ->
  slice (slice b a a') i j = slice b (a + i) (a + j).
Proof.
  intros H. unfold slice.
  rewrite skipn_firstn_comm, skipn_skipn, firstn_firstn.
  f_equal; [lia|f_equal; lia].
Qed.



Lemma int_from_bytes_little_range (b : bytes) :
  0 <= int_from_bytes Little b < 256 ^ Z.of_nat (length b).
Proof.
  induction b as [|x b IH]; [simpl; lia|].
  cbn [int_from_bytes fold_right length] in *.
  rewrite Nat2Z.inj_succ, Z.pow_succ_r by lia.
  pose proof (byte_val_range x). nia.
Qed.

Lemma fold_left_big_range (b : bytes) (acc : Z) :
  0 <= acc ->
  0 <= fold_left (fun acc b => 256 * acc + byte_val b) b acc
    < (acc + 1) * 256 ^ Z.of_nat (length b).
Proof.
  revert acc. induction b as [|x b IH]; intros acc Hacc.
  - simpl. lia.
  - cbn [fold_left length]. rewrite Nat2Z.inj_succ, Z.pow_succ_r by lia.
    pose proof (byte_val_range x).
    specialize (IH (256 * acc + byte_val x) ltac:(lia)).
    assert (0 < 256 ^ Z.of_nat (length b)) by (apply Z.pow_pos_nonneg; lia).
    nia.
Qed.

Lemma int_from_bytes_range (e : endianness) (b : bytes) :
  0 <= int_from_bytes e b < 256 ^ Z.of_nat (length b).
Proof.
  destruct e; [apply int_from_bytes_little_range|].
  pose proof (fold_left_big_range b 0 ltac:(lia)) as H.
  unfold int_from_bytes. rewrite Z.add_0_l, Z.mul_1_l in H. exact H.
Qed.

Lemma unpack_eL_ok (e : endianness) (b : bytes) :
  length b = 4%nat -> unpack_eL (Some e) b = Ok (int_from_bytes e b).
Proof.
  intros H. unfold unpack_eL, unpack_fixed. simpl the_endian.
  now rewrite H.
Qed.

Lemma unpack_eL_short (e : endianness) (b : bytes) :
  length b <> 4%nat -> unpack_eL (Some e) b = Raise StructError.
Proof.
  intros H. unfold unpack_eL, unpack_fixed. simpl the_endian.
  apply Nat.eqb_neq in H. now rewrite H.
Qed.

Lemma pointers_loop_ok (e : endianness) (block : bytes) (n : nat) :
  forall (a : nat) (acc : list Z),
    (4 * (a + n) <= length block)%nat ->
    pointers_loop (Some e) block (seq a n) acc
    = Ok (acc ++ map (fun i => int_from_bytes e
                                 (slice block (i * 4) (i * 4 + 4)))
                     (seq a n)).
Proof.
  induction n as [|n IH]; intros a acc Hlen.
  - simpl. now rewrite app_nil_r.
  - cbn [seq pointers_loop map].
    rewrite unpack_eL_ok by (rewrite length_slice; lia).
    rewrite IH by lia. now rewrite <- app_assoc.
Qed.

Lemma pointers_loop_short (e : endianness) (block : bytes) (n : nat) :
  forall (a : nat) (acc : list Z),
    (0 < n)%nat -> (length block < 4 * (a + n))%nat ->
    pointers_loop (Some e) block (seq a n) acc = Raise StructError.
Proof.
  induction n as [|n IH]; intros a acc Hn Hlen; [lia|].
  cbn [seq pointers_loop].
  destruct (Nat.le_gt_cases (a * 4 + 4) (length block)) as [Hfit|Hshort].
  - rewrite unpack_eL_ok by (rewrite length_slice; lia).
    apply IH; lia.
  - now rewrite unpack_eL_short by (rewrite length_slice; lia).
Qed.



(** *** The file descriptor block *)

Lemma byte_val_x55 (b : byte) : b <> x55 -> (byte_val b =? 0x55) = false.
Proof. intros H. destruct b; try reflexivity. congruence. Qed.

Lemma byte_val_x3a (b : byte) : b <> x3a -> (byte_val b =? 0x3a) = false.
Proof. intros H. destruct b; try reflexivity. congruence. Qed.

Lemma unpack_B_one (b : byte) : unpack_B [b] = Ok (byte_val b).
Proof.
  unfold unpack_B, unpack_fixed. simpl.
  f_equal. lia.
Qed.

(** The descriptor of a file that begins with the magic byte of [e] and
    holds the fourteen bytes that are decoded. *)
Lemma read_descriptor_magic (e : endianness) (rest : bytes) :
  (13 <= length rest)%nat ->
  exists out,
    read_descriptor (magic e :: rest) initial_world
    = (mk_world (Nat.min 32 (S (length rest))) out,
       Ok (Some e,
           int_from_bytes e (slice (magic e :: rest) 4 6),
           int_from_bytes e (slice (magic e :: rest) 6 8))).
Proof.
  intros Hlen.
  do 13 (destruct rest as [|? rest]; [simpl in Hlen; lia|]).
  unfold read_descriptor.
  assert (Hread :
    f_read (magic e :: b :: b0 :: b1 :: b2 :: b3 :: b4 :: b5 :: b6 :: b7
              :: b8 :: b9 :: b10 :: b11 :: rest) 32 initial_world
    = (mk_world (Nat.min 32 (S (length (b :: b0 :: b1 :: b2 :: b3 :: b4
                 :: b5 :: b6 :: b7 :: b8 :: b9 :: b10 :: b11 :: rest)))) [],
       Ok (magic e :: b :: b0 :: b1 :: b2 :: b3 :: b4 :: b5 :: b6 :: b7
             :: b8 :: b9 :: b10 :: b11 :: firstn 18 rest))).
  { unfold f_read, initial_world. cbn [cursor stdout skipn Z.ltb Z.compare].
    change (Z.to_nat 32) with 32%nat.
    change (firstn 32 (magic e :: b :: b0 :: b1 :: b2 :: b3 :: b4 :: b5
                         :: b6 :: b7 :: b8 :: b9 :: b10 :: b11 :: rest))
      with (magic e :: b :: b0 :: b1 :: b2 :: b3 :: b4 :: b5 :: b6 :: b7
              :: b8 :: b9 :: b10 :: b11 :: firstn 18 rest).
    f_equal. f_equal. cbn [length]. rewrite length_firstn. lia. }
  rewrite (bind_ok _ _ _ _ _ Hread).
  change (slice (magic e :: b :: b0 :: b1 :: b2 :: b3 :: b4 :: b5 :: b6
                   :: b7 :: b8 :: b9 :: b10 :: b11 :: firstn 18 rest) 0 1)
    with [magic e].
  rewrite unpack_B_one, bind_lift_ok.
  assert (Hend :
    (if byte_val (magic e) =? 0x55 then ret (Some Little)
     else if byte_val (magic e) =? 0x3a then ret (Some Big)
          else print "This is not a SEG2 file." ;;; ret None)
    = ret (Some e)) by (destruct e; reflexivity).
  rewrite Hend. clear Hend Hread.
  unfold bind at 1. unfold ret at 1.
  cbn [slice Nat.sub skipn firstn].
  unfold unpack_eH, unpack_fixed. cbn [the_endian length Nat.eqb].
  rewrite !bind_lift_ok.
  destruct (int_from_bytes e [b0; b1] =? 1).
  - eexists. reflexivity.
  - eexists. reflexivity.
Qed.

(** The first byte of the file decides the byte order held by
    [endian], with which every later field is unpacked: [0x55] gives
    little-endian, [0x3A] big-endian, and [M] and [N] are read so.  For
    any other first byte the message is printed and the next statement,
    which needs [endian] to unpack the revision, raises: neither
    function decodes anything of what follows the first byte, whatever
    it is. *)
Theorem magic_byte_selects_byte_order
        (native : endianness) (b : byte) (rest : bytes) :
  (b = x55 -> (13 <= length rest)%nat ->
   exists w,
     read_descriptor (b :: rest) initial_world
     = (w, Ok (Some Little,
               int_from_bytes Little (slice (b :: rest) 4 6),
               int_from_bytes Little (slice (b :: rest) 6 8))))
  /\ (b = x3a -> (13 <= length rest)%nat ->
      exists w,
        read_descriptor (b :: rest) initial_world
        = (w, Ok (Some Big,
                  int_from_bytes Big (slice (b :: rest) 4 6),
                  int_from_bytes Big (slice (b :: rest) 6 8))))
  /\ (b <> x55 -> b <> x3a ->
      read_seg native (b :: rest)
      = (["This is not a SEG2 file."%string],
         Raise (UnboundLocalError "endian"))
      /\ read_seg2_header (b :: rest)
         = (["This is not a SEG2 file."%string],
            Raise (UnboundLocalError "endian"))).
Proof.
  split; [|split].
  - intros -> Hlen.
    destruct (read_descriptor_magic Little rest Hlen) as [out H].
    eexists. exact H.
  - intros -> Hlen.
    destruct (read_descriptor_magic Big rest Hlen) as [out H].
    eexists. exact H.
  - intros H55 H3a.
    assert (Hd : read_descriptor (b :: rest) initial_world
                 = (mk_world (S (length (firstn 31 rest)))
                             ["This is not a SEG2 file."%string],
                    Raise (UnboundLocalError "endian"))).
    { unfold read_descriptor.
      assert (Hread : f_read (b :: rest) 32 initial_world
                      = (mk_world (S (length (firstn 31 rest))) [],
                         Ok (b :: firstn 31 rest))) by reflexivity.
      rewrite (bind_ok _ _ _ _ _ Hread).
      change (slice (b :: firstn 31 rest) 0 1) with [b].
      rewrite unpack_B_one, bind_lift_ok.
      rewrite (byte_val_x55 b H55), (byte_val_x3a b H3a).
      reflexivity. }
    split.
    + unfold read_seg, read_seg_body.
      rewrite (bind_raise _ _ _ _ _ Hd). reflexivity.
    + unfold read_seg2_header, read_seg2_header_body.
      rewrite (bind_raise _ _ _ _ _ Hd). reflexivity.
Qed.

Lemma magic_byte_selects_byte_order_witness :
  (x00 <> x55 /\ x00 <> x3a) /\
  read_seg Little [x00; x01; x02]
  = (["This is not a SEG2 file."%string],
     Raise (UnboundLocalError "endian")).
Proof.
  assert (H1 : x00 <> x55) by discriminate.
  assert (H2 : x00 <> x3a) by discriminate.
  split; [tauto|].
  exact (proj1 (proj2 (proj2 (magic_byte_selects_byte_order
                                Little x00 [x01; x02])) H1 H2)).
Defined.

(** *** A file without traces *)

Lemma read_trace_pointers_none (data : bytes) (endian : option endianness)
      (M : Z) (w : world) :
  exists w', read_trace_pointers data endian M 0 w = (w', Ok []).
Proof.
  unfold read_trace_pointers, bind, f_read. simpl. eexists. reflexivity.
Qed.

(** C10.  A file that begins with a magic byte and whose descriptor
    holds [N = 0] never makes [read_seg] return: no pointer is read, no
    trace is decoded, and [np.stack] raises on the empty list. *)
Theorem no_traces_never_returns
        (native e : endianness) (rest : bytes) :
  (13 <= length rest)%nat ->
  int_from_bytes e (slice (magic e :: rest) 6 8) = 0 ->
  snd (read_seg native (magic e :: rest))
  = Raise (ValueError "need at least one array to stack").
Proof.
  intros Hlen HN.
  destruct (read_descriptor_magic e rest Hlen) as [out Hd].
  rewrite HN in Hd.
  unfold read_seg, read_seg_body.
  rewrite (bind_ok _ _ _ _ _ Hd).
  destruct (read_trace_pointers_none (magic e :: rest) (Some e)
              (int_from_bytes e (slice (magic e :: rest) 4 6))
              (mk_world (Nat.min 32 (S (length rest))) out)) as [w' Hp].
  rewrite (bind_ok _ _ _ _ _ Hp).
  reflexivity.
Qed.

Lemma no_traces_never_returns_witness :
  ((13 <= length (tl (file_descriptor_block Big 0 0 usual_terminators)))%nat
   /\ int_from_bytes Big
        (slice (magic Big
                  :: tl (file_descriptor_block Big 0 0 usual_terminators))
               6 8) = 0) /\
  snd (read_seg Little
         (magic Big :: tl (file_descriptor_block Big 0 0 usual_terminators)))
  = Raise (ValueError "need at least one array to stack").
Proof.
  assert (H1 : (13 <= length (tl (file_descriptor_block Big 0 0
                                     usual_terminators)))%nat)
    by (simpl; lia).
  assert (H2 : int_from_bytes Big
                 (slice (magic Big
                           :: tl (file_descriptor_block Big 0 0
                                    usual_terminators)) 6 8) = 0)
    by reflexivity.
  split; [tauto|].
  exact (no_traces_never_returns Little Big
           (tl (file_descriptor_block Big 0 0 usual_terminators)) H1 H2).
Defined.

(** *** The block ID of a trace *)

Lemma traces_loop_app (native : endianness) (data : bytes)
      (endian : option endianness) (ps1 ps2 : list Z) :
  forall (l : locals) (w : world),
    traces_loop native data endian (ps1 ++ ps2) l w
    = bind (traces_loop native data endian ps1 l)
           (traces_loop native data endian ps2) w.
Proof.
  induction ps1 as [|p ps1 IH]; intros l w; [reflexivity|].
  cbn [app traces_loop]. unfold bind.
  destruct (trace_body native data endian p l w) as [w' [l'| |]];
    try reflexivity.
  rewrite IH. reflexivity.
Qed.

Lemma firstn_slice_prefix (b : bytes) (n m c : nat) :
  (n <= m)%nat ->
  slice (firstn m (skipn c b)) 0 n = slice b c (c + n).
Proof.
  intros H. unfold slice. rewrite Nat.sub_0_r. simpl skipn.
  rewrite firstn_firstn. f_equal; lia.
Qed.

Lemma trace_body_bad_id (native : endianness) (data : bytes)
      (e : endianness) (p : Z) (l : locals) (w : world) :
  (Z.to_nat p + 2 <= length data)%nat ->
  int_from_bytes e (slice data (Z.to_nat p) (Z.to_nat p + 2)) <> 0x4422 ->
  snd (trace_body native data (Some e) p l w) = Raise AssertionError.
Proof.
  intros Hlen Hid. unfold trace_body.
  unfold bind at 1. unfold f_seek_set at 1.
  unfold bind at 1. unfold f_read at 1. cbn [cursor stdout Z.ltb Z.compare].
  change (Z.to_nat 32) with 32%nat.
  rewrite firstn_slice_prefix by lia.
  unfold unpack_eH, unpack_fixed. cbn [the_endian].
  rewrite length_slice.
  replace (Nat.min (Z.to_nat p + 2 - Z.to_nat p) (length data - Z.to_nat p))
    with 2%nat by lia.
  cbn [Nat.eqb]. rewrite bind_lift_ok.
  apply Z.eqb_neq in Hid. rewrite Hid.
  reflexivity.
Qed.

(** C4.  When the decoder comes to a trace pointer at which the two
    bytes of the block ID hold anything but [0x4422], the [assert]
    fails: whatever the rest of that trace and of the file is,
    [read_seg] raises [AssertionError] and returns nothing. *)
Theorem bad_block_id_aborts
        (native e : endianness) (data : bytes) (M N : Z)
        (w0 w1 w2 : world) (ps1 ps2 : list Z) (p : Z) (l : locals) :
  read_descriptor data initial_world = (w0, Ok (Some e, M, N)) ->
  read_trace_pointers data (Some e) M N w0 = (w1, Ok (ps1 ++ p :: ps2)) ->
  traces_loop native data (Some e) ps1 (mk_locals None [] [] []) w1
  = (w2, Ok l) ->
  (Z.to_nat p + 2 <= length data)%nat ->
  int_from_bytes e (slice data (Z.to_nat p) (Z.to_nat p + 2)) <> 0x4422 ->
  snd (read_seg native data) = Raise AssertionError.
Proof.
  intros Hd Hp Hl Hlen Hid.
  unfold read_seg, read_seg_body.
  rewrite (bind_ok _ _ _ _ _ Hd), (bind_ok _ _ _ _ _ Hp).
  unfold bind at 1. rewrite traces_loop_app.
  rewrite (bind_ok _ _ _ _ _ Hl).
  cbn [traces_loop]. unfold bind at 1.
  pose proof (trace_body_bad_id native data e p l w2 Hlen Hid) as Hb.
  destruct (trace_body native data (Some e) p l w2) as [w3 r].
  simpl in Hb. subst r. reflexivity.
Qed.

Lemma bad_block_id_aborts_witness :
  (read_descriptor bad_id_file initial_world
   = (mk_world 32 [], Ok (Some Little, 8, 2)) /\
   read_trace_pointers bad_id_file (Some Little) 8 2 (mk_world 32 [])
   = (mk_world 40 [], Ok ([40] ++ 77 :: [])) /\
   traces_loop Big bad_id_file (Some Little) [40] (mk_locals None [] [] [])
               (mk_world 40 [])
   = (mk_world 77 [],
      Ok (mk_locals (Some int16) [[]] [] [mk_ndarray int16 [1792]])) /\
   (Z.to_nat 77 + 2 <= length bad_id_file)%nat /\
   int_from_bytes Little
     (slice bad_id_file (Z.to_nat 77) (Z.to_nat 77 + 2)) <> 0x4422) /\
  snd (read_seg Big bad_id_file) = Raise AssertionError.
Proof.
  assert (H1 : read_descriptor bad_id_file initial_world
               = (mk_world 32 [], Ok (Some Little, 8, 2)))
    by (vm_compute; reflexivity).
  assert (H2 : read_trace_pointers bad_id_file (Some Little) 8 2
                 (mk_world 32 [])
               = (mk_world 40 [], Ok ([40] ++ 77 :: [])))
    by (vm_compute; reflexivity).
  assert (H3 : traces_loop Big bad_id_file (Some Little) [40]
                 (mk_locals None [] [] []) (mk_world 40 [])
               = (mk_world 77 [],
                  Ok (mk_locals (Some int16) [[]] []
                                [mk_ndarray int16 [1792]])))
    by (vm_compute; reflexivity).
  assert (H4 : (Z.to_nat 77 + 2 <= length bad_id_file)%nat)
    by (vm_compute; lia).
  assert (H5 : int_from_bytes Little
                 (slice bad_id_file (Z.to_nat 77) (Z.to_nat 77 + 2))
               <> 0x4422)
    by (vm_compute; discriminate).
  split; [tauto|].
  exact (bad_block_id_aborts Big Little bad_id_file 8 2 _ _ _ [40] [] 77 _
           H1 H2 H3 H4 H5).
Defined.

(** *** The payload of a trace *)

Lemma f_read_slice (data : bytes) (n : Z) (w : world) :
  0 <= n ->
  f_read data n w
  = (mk_world (cursor w
               + length (slice data (cursor w) (cursor w + Z.to_nat n)))
              (stdout w),
     Ok (slice data (cursor w) (cursor w + Z.to_nat n))).
Proof.
  intros Hn. unfold f_read, slice.
  destruct (n <? 0) eqn:E; [apply Z.ltb_lt in E; lia|].
  replace (cursor w + Z.to_nat n - cursor w)%nat with (Z.to_nat n) by lia.
  reflexivity.
Qed.

(** The loop over a trace header returns only after it has read a zero
    length: the cursor then stands just after that marker. *)
Lemma trace_header_loop_stops_after_marker (data : bytes) (e : endianness)
      (a : nat) (fuel : nat) :
  forall (h : store) (ths : list nat) (w w' : world)
         (r : store * list nat),
    trace_header_loop data fuel (Some e) a h ths w = (w', Ok r) ->
    (2 <= cursor w')%nat /\
    length (slice data (cursor w' - 2) (cursor w')) = 2%nat /\
    int_from_bytes e (slice data (cursor w' - 2) (cursor w')) = 0.
Proof.
  induction fuel as [|fuel IH]; intros h ths w w' r H.
  - discriminate H.
  - cbn [trace_header_loop] in H.
    unfold bind at 1 in H. rewrite f_read_slice in H by lia.
    unfold bind at 1 in H. unfold lift at 1 in H.
    unfold unpack_eH, unpack_fixed in H. cbn [the_endian] in H.
    change (Z.to_nat 2) with 2%nat in H.
    destruct (Nat.eqb (length (slice data (cursor w) (cursor w + 2))) 2)
      eqn:Elen; [|discriminate H].
    apply Nat.eqb_eq in Elen.
    destruct (int_from_bytes e (slice data (cursor w) (cursor w + 2)) =? 0)
      eqn:Ez.
    + unfold ret in H. injection H as <- _. cbn [cursor].
      rewrite Elen. apply Z.eqb_eq in Ez.
      replace (cursor w + 2 - 2)%nat with (cursor w) by lia.
      repeat split; [lia|assumption|assumption].
    + unfold bind at 1 in H.
      destruct (f_read data _ _) as [w1 [this_string| |]];
        try discriminate H.
      destruct (bytes_split this_string) as [|k [|v [|z t]]];
        try (eapply IH; exact H).
      unfold bind at 1 in H. unfold lift at 1 in H.
      destruct (decode_utf8 (removelast v)) as [v'| |]; try discriminate H.
      unfold bind at 1 in H. unfold lift at 1 in H.
      destruct (decode_utf8 k) as [k'| |]; try discriminate H.
      eapply IH; exact H.
Qed.

Lemma nbytes_cases (d : dtype) :
  Z.to_nat (nbytes d) = 2%nat \/ Z.to_nat (nbytes d) = 4%nat \/
  Z.to_nat (nbytes d) = 8%nat.
Proof. destruct d; simpl; auto. Qed.

Lemma np_fromstring_multiple (native : endianness) (raw : bytes)
      (d : dtype) :
  Nat.modulo (length raw) (Z.to_nat (nbytes d)) = 0%nat ->
  exists trace,
    np_fromstring native raw d = Ok trace /\
    arr_dtype trace = d /\
    length (arr_items trace)
    = Nat.div (length raw) (Z.to_nat (nbytes d)).
Proof.
  intros H. unfold np_fromstring. rewrite H. simpl Nat.eqb.
  eexists. split; [reflexivity|]. split; [reflexivity|].
  simpl. now rewrite length_map, length_seq.
Qed.

Lemma np_fromstring_ragged (native : endianness) (raw : bytes) (d : dtype) :
  Nat.modulo (length raw) (Z.to_nat (nbytes d)) <> 0%nat ->
  np_fromstring native raw d
  = Raise (ValueError "string size must be a multiple of element size").
Proof.
  intros H. unfold np_fromstring. apply Nat.eqb_neq in H. now rewrite H.
Qed.

(** One pass of the loop over the trace pointers, for a trace whose
    descriptor is whole, carries the block ID and a supported format
    code, and whose header is read to its end at cursor [q]. *)
Lemma trace_body_payload (native e : endianness) (data : bytes) (p : Z)
      (l : locals) (w : world) (NS : Z) (d : dtype) (q : nat)
      (out' : list string) (heap' : store) (ths' : list nat) :
  0 <= p -> (Z.to_nat p + 32 <= length data)%nat ->
  int_from_bytes e (slice data (Z.to_nat p) (Z.to_nat p + 2)) = 0x4422 ->
  int_from_bytes e (slice data (Z.to_nat p + 8) (Z.to_nat p + 12)) = NS ->
  DATA_FORMAT_CODES
    (int_from_bytes e (slice data (Z.to_nat p + 12) (Z.to_nat p + 13)))
  = Some d ->
  trace_header_loop data (S (length data)) (Some e) (length (l_heap l))
                    (l_heap l ++ [[]]) (l_trace_headers l)
                    (mk_world (Z.to_nat p + 32) (stdout w))
  = (mk_world q out', Ok (heap', ths')) ->
  trace_body native data (Some e) p l w
  = (mk_world
       (q + 1 + length (slice data (q + 1)
                              (q + 1 + Z.to_nat (NS * nbytes d))))
       out',
     match np_fromstring native
             (slice data (q + 1) (q + 1 + Z.to_nat (NS * nbytes d))) d with
     | Ok trace =>
         Ok (mk_locals (Some d) heap' ths' (l_traces l ++ [trace]))
     | Raise x => Raise x
     | Diverged => Diverged
     end).
Proof.
  intros Hp Hlen Hid Hns Hcode Hloop.
  set (P := Z.to_nat p) in *.
  assert (HNS : 0 <= NS)
    by (rewrite <- Hns; apply int_from_bytes_range).
  assert (Hnb : 0 < nbytes d) by (destruct d; simpl; lia).
  unfold trace_body.
  unfold bind at 1. unfold f_seek_set at 1. fold P.
  unfold bind at 1. rewrite f_read_slice by lia.
  cbn [cursor stdout]. change (Z.to_nat 32) with 32%nat.
  rewrite !slice_slice by lia.
  rewrite !Nat.add_0_r.
  unfold unpack_eH, unpack_eHII, unpack_eB, unpack_fixed.
  cbn [the_endian].
  rewrite !length_slice.
  replace (Nat.min (P + 2 - P) (length data - P)) with 2%nat by lia.
  replace (Nat.min (P + 12 - (P + 2)) (length data - (P + 2)))
    with 10%nat by lia.
  replace (Nat.min (P + 13 - (P + 12)) (length data - (P + 12)))
    with 1%nat by lia.
  replace (Nat.min (P + 32 - P) (length data - P)) with 32%nat by lia.
  cbn [Nat.eqb]. rewrite bind_lift_ok, Hid, Z.eqb_refl.
  unfold bind at 1. unfold ret at 1.
  rewrite bind_lift_ok. cbv beta iota.
  rewrite !slice_slice by lia.
  replace (P + 2 + 6)%nat with (P + 8)%nat by lia.
  replace (P + 2 + 10)%nat with (P + 12)%nat by lia.
  rewrite Hns, bind_lift_ok, Hcode.
  unfold bind at 1. unfold ret at 1.
  unfold bind at 1. unfold ret at 1.
  rewrite (bind_ok _ _ _ _ _ Hloop).
  unfold bind at 1. unfold f_seek_cur at 1. cbn [cursor stdout].
  replace (Z.to_nat (Z.of_nat q + 1)) with (q + 1)%nat by lia.
  unfold bind at 1. rewrite f_read_slice by lia.
  cbn [cursor stdout].
  unfold bind, lift, ret. rewrite ?length_slice.
  destruct (np_fromstring native _ d); reflexivity.
Qed.

Lemma width_nbytes (code : Z) (d : dtype) :
  DATA_FORMAT_CODES code = Some d -> nbytes d = width code.
Proof.
  unfold DATA_FORMAT_CODES, width.
  destruct code as [|[[[]|[]|]|[[]|[]|]|]|]; intros H;
    try discriminate H; injection H as <-; reflexivity.
Qed.

(** C5, as the code has it.  For a trace with a supported format code,
    the payload is what [f.read] gives for [NS * width] bytes from the
    byte that follows the one after the zero-length marker of the trace
    header: these bytes when the file holds them, and then the trace
    has exactly [NS] samples of the dtype of the code; the bytes that
    remain otherwise.  A short payload is no error of its own: the
    trace has as many samples as whole widths were read, and only a
    number of bytes that is not a multiple of the width makes
    [np.fromstring] raise [ValueError]. *)
Theorem payload_follows_header
        (native e : endianness) (data : bytes) (p : Z)
        (l : locals) (w : world) (NS : Z) (d : dtype) (q : nat)
        (out' : list string) (heap' : store) (ths' : list nat) :
  0 <= p -> (Z.to_nat p + 32 <= length data)%nat ->
  int_from_bytes e (slice data (Z.to_nat p) (Z.to_nat p + 2)) = 0x4422 ->
  int_from_bytes e (slice data (Z.to_nat p + 8) (Z.to_nat p + 12)) = NS ->
  DATA_FORMAT_CODES
    (int_from_bytes e (slice data (Z.to_nat p + 12) (Z.to_nat p + 13)))
  = Some d ->
  trace_header_loop data (S (length data)) (Some e) (length (l_heap l))
                    (l_heap l ++ [[]]) (l_trace_headers l)
                    (mk_world (Z.to_nat p + 32) (stdout w))
  = (mk_world q out', Ok (heap', ths')) ->
  ((2 <= q)%nat /\ length (slice data (q - 2) q) = 2%nat /\
   int_from_bytes e (slice data (q - 2) q) = 0)
  /\ nbytes d
     = width (int_from_bytes e
                (slice data (Z.to_nat p + 12) (Z.to_nat p + 13)))
  /\ trace_body native data (Some e) p l w
     = (mk_world
          (q + 1 + length (slice data (q + 1)
                                 (q + 1 + Z.to_nat (NS * nbytes d))))
          out',
        match np_fromstring native
                (slice data (q + 1) (q + 1 + Z.to_nat (NS * nbytes d))) d
        with
        | Ok trace =>
            Ok (mk_locals (Some d) heap' ths' (l_traces l ++ [trace]))
        | Raise x => Raise x
        | Diverged => Diverged
        end)
  /\ ((q + 1 + Z.to_nat (NS * nbytes d) <= length data)%nat ->
      exists trace,
        np_fromstring native
          (slice data (q + 1) (q + 1 + Z.to_nat (NS * nbytes d))) d
        = Ok trace /\
        arr_dtype trace = d /\ Z.of_nat (length (arr_items trace)) = NS)
  /\ (Nat.modulo
        (length (slice data (q + 1) (q + 1 + Z.to_nat (NS * nbytes d))))
        (Z.to_nat (nbytes d)) = 0%nat ->
      exists trace,
        np_fromstring native
          (slice data (q + 1) (q + 1 + Z.to_nat (NS * nbytes d))) d
        = Ok trace /\
        length (arr_items trace)
        = Nat.div (length (slice data (q + 1)
                                 (q + 1 + Z.to_nat (NS * nbytes d))))
                  (Z.to_nat (nbytes d)))
  /\ (Nat.modulo
        (length (slice data (q + 1) (q + 1 + Z.to_nat (NS * nbytes d))))
        (Z.to_nat (nbytes d)) <> 0%nat ->
      np_fromstring native
        (slice data (q + 1) (q + 1 + Z.to_nat (NS * nbytes d))) d
      = Raise (ValueError "string size must be a multiple of element size")).
Proof.
  intros Hp Hlen Hid Hns Hcode Hloop.
  assert (HNS : 0 <= NS)
    by (rewrite <- Hns; apply int_from_bytes_range).
  assert (Hnb : 0 < nbytes d) by (destruct d; simpl; lia).
  split; [|split; [|split; [|split; [|split]]]].
  - exact (trace_header_loop_stops_after_marker _ _ _ _ _ _ _ _ _ Hloop).
  - now apply width_nbytes.
  - now apply trace_body_payload.
  - intros Hfit.
    assert (Hraw :
      length (slice data (q + 1) (q + 1 + Z.to_nat (NS * nbytes d)))
      = (Z.to_nat NS * Z.to_nat (nbytes d))%nat).
    { rewrite length_slice, Z2Nat.inj_mul by lia. lia. }
    destruct (np_fromstring_multiple native
                (slice data (q + 1) (q + 1 + Z.to_nat (NS * nbytes d))) d)
      as (trace & Ht & Hd & Hn).
    { rewrite Hraw. apply Nat.Div0.mod_mul. }
    exists trace. repeat split; try assumption.
    rewrite Hn, Hraw, Nat.div_mul by lia. lia.
  - intros Hmod.
    destruct (np_fromstring_multiple native _ d Hmod)
      as (trace & Ht & _ & Hn).
    exists trace. now split.
  - apply np_fromstring_ragged.
Qed.

(** C5 as the specification states it fails: [short_payload_file]
    declares two [int16] samples and holds the two bytes of one, and
    [read_seg] returns a trace of one sample instead of raising. *)
Lemma short_payload_is_accepted :
  read_seg Little short_payload_file
  = ([], Ok (mk_seg [] [[]] (mk_ndarray2 [mk_ndarray int16 [7]] 1)))
  /\ (length short_payload_file < 36 + 32 + 2 + 1 + 2 * 2)%nat.
Proof. split; [vm_compute; reflexivity | vm_compute; lia]. Qed.

Lemma payload_follows_header_witness :
  (0 <= 36 /\
   (Z.to_nat 36 + 32 <= length full_payload_file)%nat /\
   int_from_bytes Little
     (slice full_payload_file (Z.to_nat 36) (Z.to_nat 36 + 2)) = 0x4422 /\
   int_from_bytes Little
     (slice full_payload_file (Z.to_nat 36 + 8) (Z.to_nat 36 + 12)) = 2 /\
   DATA_FORMAT_CODES
     (int_from_bytes Little
        (slice full_payload_file (Z.to_nat 36 + 12) (Z.to_nat 36 + 13)))
   = Some int16 /\
   trace_header_loop full_payload_file (S (length full_payload_file))
     (Some Little) (length (l_heap (mk_locals None [] [] [])))
     (l_heap (mk_locals None [] [] []) ++ [[]])
     (l_trace_headers (mk_locals None [] [] []))
     (mk_world (Z.to_nat 36 + 32) (stdout (mk_world 36 [])))
   = (mk_world 70 [], Ok ([[]], []))) /\
  exists trace,
    np_fromstring Little
      (slice full_payload_file (70 + 1)
             (70 + 1 + Z.to_nat (2 * nbytes int16))) int16
    = Ok trace /\
    arr_dtype trace = int16 /\ Z.of_nat (length (arr_items trace)) = 2.
Proof.
  assert (H1 : 0 <= 36) by lia.
  assert (H2 : (Z.to_nat 36 + 32 <= length full_payload_file)%nat)
    by (vm_compute; lia).
  assert (H3 : int_from_bytes Little
                 (slice full_payload_file (Z.to_nat 36) (Z.to_nat 36 + 2))
               = 0x4422) by (vm_compute; reflexivity).
  assert (H4 : int_from_bytes Little
                 (slice full_payload_file (Z.to_nat 36 + 8)
                        (Z.to_nat 36 + 12)) = 2)
    by (vm_compute; reflexivity).
  assert (H5 : DATA_FORMAT_CODES
                 (int_from_bytes Little
                    (slice full_payload_file (Z.to_nat 36 + 12)
                           (Z.to_nat 36 + 13))) = Some int16)
    by (vm_compute; reflexivity).
  assert (H6 : trace_header_loop full_payload_file
                 (S (length full_payload_file))
                 (Some Little) (length (l_heap (mk_locals None [] [] [])))
                 (l_heap (mk_locals None [] [] []) ++ [[]])
                 (l_trace_headers (mk_locals None [] [] []))
                 (mk_world (Z.to_nat 36 + 32) (stdout (mk_world 36 [])))
               = (mk_world 70 [], Ok ([[]], [])))
    by (vm_compute; reflexivity).
  assert (H7 : (70 + 1 + Z.to_nat (2 * nbytes int16)
                <= length full_payload_file)%nat) by (vm_compute; lia).
  split; [tauto|].
  exact (proj1 (proj2 (proj2 (proj2
           (payload_follows_header Little Little full_payload_file 36
              (mk_locals None [] [] []) (mk_world 36 []) 2 int16 70 []
              [[]] [] H1 H2 H3 H4 H5 H6)))) H7).
Defined.

(** *** Whole files *)

Lemma six_bytes (st : bytes) :
  exists s0 s1 s2 s3 s4 s5,
    firstn 6 (st ++ repeat x00 6) = [s0; s1; s2; s3; s4; s5].
Proof.
  destruct st as [|a0 [|a1 [|a2 [|a3 [|a4 [|a5 st]]]]]];
    repeat eexists; reflexivity.
Qed.

Lemma pack2_cons (e : endianness) (z : Z) :
  exists a b, pack e 2 z = [a; b].
Proof. destruct e; repeat eexists; reflexivity. Qed.

Lemma length_file_descriptor_block (e : endianness) (M N : Z) (st : bytes) :
  length (file_descriptor_block e M N st) = 32%nat.
Proof.
  unfold file_descriptor_block.
  destruct (six_bytes st) as (s0 & s1 & s2 & s3 & s4 & s5 & ->).
  rewrite !length_app, !length_pack. reflexivity.
Qed.

(** The descriptor of a file that begins with a block in the layout. *)
Lemma read_descriptor_block (e : endianness) (M N : Z) (st rest : bytes) :
  0 <= M < 65536 -> 0 <= N < 65536 ->
  read_descriptor (file_descriptor_block e M N st ++ rest) initial_world
  = (mk_world 32 [], Ok (Some e, M, N)).
Proof.
  intros HM HN.
  pose proof (int_from_bytes_pack2 e 1 ltac:(lia)) as Hrev.
  pose proof (int_from_bytes_pack2 e M HM) as HMv.
  pose proof (int_from_bytes_pack2 e N HN) as HNv.
  unfold file_descriptor_block.
  destruct (six_bytes st) as (s0 & s1 & s2 & s3 & s4 & s5 & ->).
  destruct (pack2_cons e 1) as (r0 & r1 & Er). rewrite Er in *.
  destruct (pack2_cons e M) as (m0 & m1 & Em). rewrite Em in *.
  destruct (pack2_cons e N) as (n0 & n1 & En). rewrite En in *.
  unfold read_descriptor.
  assert (Hread :
    f_read (([magic e; x00] ++ [r0; r1] ++ [m0; m1] ++ [n0; n1]
               ++ [s0; s1; s2; s3; s4; s5] ++ repeat x00 18) ++ rest)
           32 initial_world
    = (mk_world 32 [],
       Ok ([magic e; x00] ++ [r0; r1] ++ [m0; m1] ++ [n0; n1]
             ++ [s0; s1; s2; s3; s4; s5] ++ repeat x00 18))).
  { apply f_read_at with (pre := []) (rest := rest); reflexivity. }
  rewrite (bind_ok _ _ _ _ _ Hread). clear Hread.
  change (slice ([magic e; x00] ++ [r0; r1] ++ [m0; m1] ++ [n0; n1]
                   ++ [s0; s1; s2; s3; s4; s5] ++ repeat x00 18) 0 1)
    with [magic e].
  change (slice ([magic e; x00] ++ [r0; r1] ++ [m0; m1] ++ [n0; n1]
                   ++ [s0; s1; s2; s3; s4; s5] ++ repeat x00 18) 2 4)
    with [r0; r1].
  change (slice ([magic e; x00] ++ [r0; r1] ++ [m0; m1] ++ [n0; n1]
                   ++ [s0; s1; s2; s3; s4; s5] ++ repeat x00 18) 4 6)
    with [m0; m1].
  change (slice ([magic e; x00] ++ [r0; r1] ++ [m0; m1] ++ [n0; n1]
                   ++ [s0; s1; s2; s3; s4; s5] ++ repeat x00 18) 6 8)
    with [n0; n1].
  change (slice ([magic e; x00] ++ [r0; r1] ++ [m0; m1] ++ [n0; n1]
                   ++ [s0; s1; s2; s3; s4; s5] ++ repeat x00 18) 8 14)
    with [s0; s1; s2; s3; s4; s5].
  rewrite unpack_B_one, bind_lift_ok.
  assert (Hend :
    (if byte_val (magic e) =? 0x55 then ret (Some Little)
     else if byte_val (magic e) =? 0x3a then ret (Some Big)
          else print "This is not a SEG2 file." ;;; ret None)
    = ret (Some e)) by (destruct e; reflexivity).
  rewrite Hend. clear Hend.
  unfold bind at 1. unfold ret at 1.
  unfold unpack_eH, unpack_fixed. cbn [the_endian length Nat.eqb].
  rewrite Hrev, HMv, HNv, !bind_lift_ok.
  reflexivity.
Qed.

Lemma read_trace_pointers_empty (data : bytes) (endian : option endianness)
      (w : world) :
  read_trace_pointers data endian 0 0 w
  = (mk_world (cursor w) (stdout w), Ok []).
Proof.
  unfold read_trace_pointers, bind, f_read. simpl.
  now rewrite Nat.add_0_r.
Qed.

(** *** A file header read from a whole file *)

Lemma read_trace_pointers_at (e : endianness) (pre table rest : bytes)
      (N : Z) (out : list string) :
  0 <= N -> (4 * Z.to_nat N <= length table)%nat ->
  read_trace_pointers (pre ++ table ++ rest) (Some e)
                      (Z.of_nat (length table)) N
                      (mk_world (length pre) out)
  = (mk_world (length pre + length table) out,
     Ok (map (fun i => int_from_bytes e (slice table (i * 4) (i * 4 + 4)))
             (seq 0 (Z.to_nat N)))).
Proof.
  intros HN Hfit. unfold read_trace_pointers.
  rewrite (bind_ok _ _ _ (mk_world (length pre + length table) out) table)
    by (now apply f_read_at with (pre := pre) (rest := rest)).
  unfold lift. now rewrite pointers_loop_ok by lia.
Qed.

(** [read_seg2_header] on a file made of a descriptor block, a pointer
    sub-block that holds its [N] pointers, and a block of items. *)
Lemma read_seg2_header_items (e : endianness) (M N : Z)
      (st table : bytes) (items : list item) (post : bytes) :
  Forall item_ok items ->
  0 <= N -> M < 65536 -> N * 4 <= M -> Z.of_nat (length table) = M ->
  read_seg2_header
    (file_descriptor_block e M N st ++ table
       ++ encode_items e items ++ terminator ++ post)
  = ([], Ok (store_items items [])).
Proof.
  intros Hok HN HM Hcount Htable.
  unfold read_seg2_header, read_seg2_header_body.
  rewrite (bind_ok _ _ _ _ _
             (read_descriptor_block e M N st _ ltac:(lia) ltac:(lia))).
  replace (mk_world 32 [])
    with (mk_world (length (file_descriptor_block e M N st)) [])
    by (now rewrite length_file_descriptor_block).
  rewrite <- Htable.
  rewrite (bind_ok _ _ _ _ _
             (read_trace_pointers_at e _ table _ N [] HN ltac:(lia))).
  rewrite <- length_app.
  rewrite (app_assoc (file_descriptor_block e (Z.of_nat (length table)) N st)
                     table).
  rewrite file_header_loop_items; [reflexivity|assumption|].
  pose proof (length_encode_items e items). rewrite !length_app. lia.
Qed.

(** *** The free-format block parser, end to end *)

(** C6, as the code has it.  A block made of [K] chunks and the
    zero-length marker, each chunk a non-empty key without whitespace,
    a run of whitespace, a value without whitespace and one terminator
    byte that is not whitespace, with key and value valid UTF-8 and a
    length that fits the 2-byte prefix, standing anywhere in a file, is
    parsed by the loop of [read_seg2_header] into the dictionary of the
    [K] assignments in order; the cursor is left after the marker.  The keys of that
    dictionary are the keys of the chunks in first-seen order, each key
    has the value of its last chunk, and when the keys are distinct the
    dictionary is the list of the [K] pairs in their order.
    [read_seg2_header] returns that dictionary for a file in which the
    block follows the descriptor and the pointer sub-block. *)
Theorem block_parser_recovers_pairs
        (e : endianness) (xs : list entry) (pre post : bytes)
        (out : list string) :
  Forall well_formed xs ->
  file_header_loop
    (pre ++ encode_items e (map Good xs) ++ terminator ++ post)
    (S (length (pre ++ encode_items e (map Good xs) ++ terminator ++ post)))
    (Some e) [] (mk_world (length pre) out)
  = (mk_world (length pre + length (encode_items e (map Good xs)) + 2) out,
     Ok (fold_left assign xs []))
  /\ map fst (fold_left assign xs []) = first_seen (map e_key xs)
  /\ (forall k, dict_get (fold_left assign xs []) k = last_value xs k)
  /\ (NoDup (map e_key xs) ->
      fold_left assign xs [] = map (fun x => (e_key x, e_value x)) xs)
  /\ (forall (M N : Z) (st table : bytes),
         0 <= N -> M < 65536 -> N * 4 <= M ->
         Z.of_nat (length table) = M ->
         read_seg2_header
           (file_descriptor_block e M N st ++ table
              ++ encode_items e (map Good xs) ++ terminator ++ post)
         = ([], Ok (fold_left assign xs []))).
Proof.
  intros Hwf. split; [|split; [|split; [|split]]].
  - rewrite file_header_loop_items.
    + now rewrite store_items_good.
    + now apply good_items_ok.
    + pose proof (length_encode_items e (map Good xs)) as Hl.
      rewrite !length_app. lia.
  - apply keys_fold_assign.
  - intros k. apply get_fold_assign.
  - intros Hnd. now rewrite fold_assign_nodup.
  - intros M N st table HN HM Hcount Htable.
    rewrite read_seg2_header_items
      by (assumption || now apply good_items_ok).
    now rewrite store_items_good.
Qed.

Lemma block_parser_recovers_pairs_witness :
  Forall well_formed sample_entries /\
  file_header_loop
    ([x55] ++ encode_items Big (map Good sample_entries)
           ++ terminator ++ [x01])
    (S (length ([x55] ++ encode_items Big (map Good sample_entries)
                      ++ terminator ++ [x01])))
    (Some Big) [] (mk_world (length [x55]) [])
  = (mk_world (length [x55]
               + length (encode_items Big (map Good sample_entries)) + 2) [],
     Ok (fold_left assign sample_entries [])).
Proof.
  assert (H : Forall well_formed sample_entries)
    by (repeat constructor; simpl; try discriminate; try reflexivity).
  split; [exact H|].
  exact (proj1 (block_parser_recovers_pairs Big sample_entries
                  [x55] [x01] [] H)).
Defined.

(** The chunk [NOTE hi you] with its NUL is a key, a whitespace run and
    a value, yet [split()] makes three parts of it and the entry is
    dropped: the header of [multiword_file] is empty.  The chunk [K V]
    ended by a newline splits into two parts with nothing of the
    newline left in the second, and [v[:-1]] then removes the [V]:
    the header of [newline_file] has [K] with an empty value. *)
Lemma value_with_whitespace_is_dropped :
  read_seg2_header multiword_file = ([], Ok [])
  /\ read_seg2_header newline_file = ([], Ok [([x4b], [])]).
Proof. split; vm_compute; reflexivity. Qed.



(** *** The byte removed from a value *)

Lemma read_seg2_header_one_chunk (e : endianness) (st text post : bytes)
      (k v : bytes) :
  bytes_split text = [k; v] ->
  utf8_valid k = true -> utf8_valid (removelast v) = true ->
  Z.of_nat (length text) + 2 < 65536 ->
  read_seg2_header
    (file_descriptor_block e 0 0 st ++ chunk e text ++ terminator ++ post)
  = ([], Ok [(k, removelast v)]).
Proof.
  intros Hsplit Hk Hv Hlen.
  unfold read_seg2_header, read_seg2_header_body.
  rewrite (bind_ok _ _ _ _ _
             (read_descriptor_block e 0 0 st _ ltac:(lia) ltac:(lia))).
  rewrite (bind_ok _ _ _ _ _ (read_trace_pointers_empty _ _ _)).
  cbn [cursor stdout].
  remember (length (file_descriptor_block e 0 0 st
                      ++ chunk e text ++ terminator ++ post)) as n eqn:En.
  destruct n as [|n].
  { rewrite length_app, length_file_descriptor_block in En. discriminate. }
  replace (mk_world 32 [])
    with (mk_world (length (file_descriptor_block e 0 0 st)) [])
    by (now rewrite length_file_descriptor_block).
  rewrite file_header_loop_chunk by assumption.
  rewrite Hsplit, (decode_utf8_valid _ Hv), (decode_utf8_valid _ Hk).
  rewrite !bind_lift_ok.
  destruct n as [|n].
  { rewrite !length_app, length_file_descriptor_block, length_chunk in En.
    simpl in En. lia. }
  rewrite app_assoc, file_header_loop_end.
  reflexivity.
Qed.

Lemma length_removelast (v : bytes) :
  v <> [] -> S (length (removelast v)) = length v.
Proof.
  intros H. destruct (exists_last H) as (v' & b & ->).
  rewrite removelast_last, length_app. simpl. lia.
Qed.

Lemma bytes_split_nonempty_parts (s : bytes) :
  Forall (fun w => w <> []) (bytes_split s).
Proof.
  induction s as [|b t IH]; [constructor|].
  destruct t as [|c t'].
  - simpl. destruct (isspace b); repeat constructor; discriminate.
  - rewrite bytes_split_cons2.
    destruct (isspace b); [exact IH|].
    destruct (isspace c).
    + constructor; [discriminate | exact IH].
    + destruct (bytes_split (c :: t')) as [|w ws].
      * repeat constructor; discriminate.
      * inversion IH; subst. constructor; [discriminate | assumption].
Qed.

(** C9, as the code has it.  For every chunk that the split parses into
    a key [k] and a value part [v], what is stored under [k] is [v]
    without its last byte: exactly one byte shorter, whatever the six
    terminator bytes [st] of the file descriptor declare.  So a value
    part that ends with two terminator bytes keeps the first of them.
    The value part ends with the terminator bytes of the chunk when
    these are not whitespace.  Both loops, of [read_seg2_header] and of
    [read_seg], do so. *)
Theorem one_trailing_byte_removed
        (e : endianness) (st text post : bytes) (k v : bytes) :
  bytes_split text = [k; v] ->
  utf8_valid k = true -> utf8_valid (removelast v) = true ->
  Z.of_nat (length text) + 2 < 65536 ->
  read_seg2_header
    (file_descriptor_block e 0 0 st ++ chunk e text ++ terminator ++ post)
  = ([], Ok [(k, removelast v)])
  /\ S (length (removelast v)) = length v
  /\ (forall value t1 t2, v = value ++ [t1; t2] ->
                          removelast v = value ++ [t1])
  /\ (forall key sep value t1 t2,
         well_formed (mk_entry key sep (value ++ [t1]) t2) ->
         bytes_split (key ++ sep ++ value ++ [t1; t2])
         = [key; value ++ [t1; t2]])
  /\ (forall fuel pre rest a h ths out,
         trace_header_loop (pre ++ chunk e text ++ rest) (S fuel) (Some e)
                           a h ths (mk_world (length pre) out)
         = trace_header_loop (pre ++ chunk e text ++ rest) fuel (Some e) a
             (store_update h a (fun d => dict_setitem d k (removelast v)))
             (ths ++ [a])
             (mk_world (length (pre ++ chunk e text)) out)).
Proof.
  intros Hsplit Hk Hv Hlen.
  split; [|split; [|split; [|split]]].
  - now apply read_seg2_header_one_chunk.
  - apply length_removelast.
    pose proof (bytes_split_nonempty_parts text) as H.
    rewrite Hsplit in H. inversion H as [|? ? _ H']; subst.
    inversion H'; subst. assumption.
  - intros value t1 t2 ->.
    change [t1; t2] with ([t1] ++ [t2]).
    now rewrite app_assoc, removelast_last.
  - intros key sep value t1 t2 Hwf.
    pose proof (bytes_split_entry _ Hwf) as H.
    unfold entry_text in H. cbn [e_key e_sep e_value e_term] in H.
    rewrite <- !app_assoc in H. exact H.
  - intros fuel pre rest a h ths out.
    rewrite trace_header_loop_chunk by assumption.
    rewrite Hsplit, (decode_utf8_valid _ Hv), (decode_utf8_valid _ Hk).
    now rewrite !bind_lift_ok.
Qed.

Lemma one_trailing_byte_removed_witness :
  (bytes_split nul2_text = [[x4b]; [x56; x00; x00]] /\
   utf8_valid [x4b] = true /\
   utf8_valid (removelast [x56; x00; x00]) = true /\
   Z.of_nat (length nul2_text) + 2 < 65536) /\
  read_seg2_header
    (file_descriptor_block Big 0 0 nul2_terminators
       ++ chunk Big nul2_text ++ terminator ++ [])
  = ([], Ok [([x4b], removelast [x56; x00; x00])]).
Proof.
  assert (H1 : bytes_split nul2_text = [[x4b]; [x56; x00; x00]])
    by reflexivity.
  assert (H2 : utf8_valid [x4b] = true) by reflexivity.
  assert (H3 : utf8_valid (removelast [x56; x00; x00]) = true)
    by reflexivity.
  assert (H4 : Z.of_nat (length nul2_text) + 2 < 65536)
    by (simpl; lia).
  split; [tauto|].
  exact (proj1 (one_trailing_byte_removed Big nul2_terminators nul2_text []
                  [x4b] [x56; x00; x00] H1 H2 H3 H4)).
Defined.

(** C9 as it is stated fails for terminator bytes that are whitespace:
    [crlf_file] declares the two-byte string terminator CR LF and holds
    the entry [K V] followed by CR LF.  The split drops both terminator
    bytes, the byte removed is the [V], and the stored value is empty:
    no terminator byte remains in it. *)
Lemma crlf_terminator_leaves_nothing :
  read_seg2_header crlf_file = ([], Ok [([x4b], [])])
  /\ @nil byte <> [x56; x0d].
Proof. split; [vm_compute; reflexivity | discriminate]. Qed.

(** *** The list of trace headers *)

(** C1 at [two_entry_file], a file of [N = 1] trace whose header holds
    two entries: the array has one row, but [trace_headers] has two
    entries, both naming the one dictionary of the trace, since the
    [append] stands inside the loop over the entries. *)
Theorem trace_headers_grow_per_entry :
  exists s,
    read_seg Little two_entry_file = ([], Ok s) /\
    fst (shape (seg_x_arr s)) = 1%nat /\
    seg_trace_headers s = [0%nat; 0%nat] /\
    trace_headers_of s
    = [[([x41], [x31]); ([x42], [x32; x33])];
       [([x41], [x31]); ([x42], [x32; x33])]].
Proof.
  eexists. split; [vm_compute; reflexivity|].
  repeat split.
Qed.

(** A trace without header entries leaves no header at all. *)
Lemma trace_headers_empty_without_entries :
  exists s,
    read_seg Little full_payload_file = ([], Ok s) /\
    fst (shape (seg_x_arr s)) = 1%nat /\
    trace_headers_of s = [].
Proof.
  eexists. split; [vm_compute; reflexivity|].
  repeat split.
Qed.

(** *** Unsupported format codes *)

(** C2 at [stale_dtype_file]: the second trace has format code 3.  The
    message is printed, [dtype] keeps the value the first trace gave
    it, and the two bytes of the second trace are returned as an
    [int16] sample in the second row. *)
Theorem unsupported_code_reuses_dtype :
  read_seg Little stale_dtype_file
  = (["Data type not supported."%string],
     Ok (mk_seg [] [[]; []]
           (mk_ndarray2 [mk_ndarray int16 [7]; mk_ndarray int16 [8]] 1))).
Proof. vm_compute. reflexivity. Qed.

(** When the first trace has the unsupported code, [dtype] was never
    assigned and the decode fails on it. *)
Lemma unsupported_code_first_trace :
  read_seg Little unsupported_first_file
  = (["Data type not supported."%string],
     Raise (UnboundLocalError "dtype")).
Proof. vm_compute. reflexivity. Qed.

(** *** The decoder always ends *)

Lemma unpack_eH_two (endian : option endianness) (b : bytes) (z : Z) :
  unpack_eH endian b = Ok z -> length b = 2%nat.
Proof.
  unfold unpack_eH, unpack_fixed. destruct endian as [e|]; simpl.
  - destruct (Nat.eqb (length b) 2) eqn:E; [|discriminate].
    intros _. now apply Nat.eqb_eq.
  - discriminate.
Qed.

Lemma unpack_eH_total (endian : option endianness) (b : bytes) :
  unpack_eH endian b <> Diverged.
Proof.
  unfold unpack_eH, unpack_fixed. destruct endian as [e|]; simpl.
  - destruct (Nat.eqb (length b) 2); discriminate.
  - discriminate.
Qed.

Lemma decode_utf8_total (s : bytes) : decode_utf8 s <> Diverged.
Proof. unfold decode_utf8. destruct (utf8_valid s); discriminate. Qed.

Lemma f_read_cursor (data : bytes) (n : Z) (w : world) :
  exists got,
    f_read data n w = (mk_world (cursor w + length got) (stdout w), Ok got)
    /\ (n = 2 -> got = slice data (cursor w) (cursor w + 2)).
Proof.
  unfold f_read. eexists. split; [reflexivity|].
  intros ->. unfold slice.
  replace (cursor w + 2 - cursor w)%nat with 2%nat by lia. reflexivity.
Qed.

Lemma file_header_loop_total (data : bytes) (endian : option endianness)
      (fuel : nat) :
  forall (d : dict) (w : world),
    (length data - cursor w < fuel)%nat ->
    snd (file_header_loop data fuel endian d w) <> Diverged.
Proof.
  induction fuel as [|fuel IH]; intros d w Hfuel; [lia|].
  cbn [file_header_loop].
  destruct (f_read_cursor data 2 w) as (word & Hword & Hslice).
  specialize (Hslice eq_refl).
  rewrite (bind_ok _ _ _ _ _ Hword).
  unfold bind at 1. unfold lift at 1.
  destruct (unpack_eH endian word) as [offset| |] eqn:Eoff;
    [ | simpl; discriminate | now apply unpack_eH_total in Eoff ].
  apply unpack_eH_two in Eoff.
  assert (Hc : (cursor w + 2 <= length data)%nat).
  { rewrite Hslice, length_slice in Eoff. lia. }
  rewrite Eoff.
  destruct (offset =? 0); [simpl; discriminate|].
  destruct (f_read_cursor data (offset - 2) (mk_world (cursor w + 2)
                                                      (stdout w)))
    as (text & Htext & _).
  rewrite (bind_ok _ _ _ _ _ Htext). cbn [cursor stdout].
  assert (Hnext : forall d',
             snd (file_header_loop data fuel endian d'
                    (mk_world (cursor w + 2 + length text) (stdout w)))
             <> Diverged)
    by (intros d'; apply IH; simpl; lia).
  destruct (bytes_split text) as [|k [|v [|z t]]]; try apply Hnext.
  unfold bind at 1. unfold lift at 1.
  destruct (decode_utf8 (removelast v)) as [v'| |] eqn:Ev;
    [ | simpl; discriminate | now apply decode_utf8_total in Ev ].
  unfold bind at 1. unfold lift at 1.
  destruct (decode_utf8 k) as [k'| |] eqn:Ek;
    [ | simpl; discriminate | now apply decode_utf8_total in Ek ].
  apply Hnext.
Qed.

Lemma trace_header_loop_total (data : bytes) (endian : option endianness)
      (a : nat) (fuel : nat) :
  forall (h : store) (ths : list nat) (w : world),
    (length data - cursor w < fuel)%nat ->
    snd (trace_header_loop data fuel endian a h ths w) <> Diverged.
Proof.
  induction fuel as [|fuel IH]; intros h ths w Hfuel; [lia|].
  cbn [trace_header_loop].
  destruct (f_read_cursor data 2 w) as (word & Hword & Hslice).
  specialize (Hslice eq_refl).
  rewrite (bind_ok _ _ _ _ _ Hword).
  unfold bind at 1. unfold lift at 1.
  destruct (unpack_eH endian word) as [offset| |] eqn:Eoff;
    [ | simpl; discriminate | now apply unpack_eH_total in Eoff ].
  apply unpack_eH_two in Eoff.
  assert (Hc : (cursor w + 2 <= length data)%nat).
  { rewrite Hslice, length_slice in Eoff. lia. }
  rewrite Eoff.
  destruct (offset =? 0); [simpl; discriminate|].
  destruct (f_read_cursor data (offset - 2) (mk_world (cursor w + 2)
                                                      (stdout w)))
    as (text & Htext & _).
  rewrite (bind_ok _ _ _ _ _ Htext). cbn [cursor stdout].
  assert (Hnext : forall h' ths',
             snd (trace_header_loop data fuel endian a h' ths'
                    (mk_world (cursor w + 2 + length text) (stdout w)))
             <> Diverged)
    by (intros h' ths'; apply IH; simpl; lia).
  destruct (bytes_split text) as [|k [|v [|z t]]]; try apply Hnext.
  unfold bind at 1. unfold lift at 1.
  destruct (decode_utf8 (removelast v)) as [v'| |] eqn:Ev;
    [ | simpl; discriminate | now apply decode_utf8_total in Ev ].
  unfold bind at 1. unfold lift at 1.
  destruct (decode_utf8 k) as [k'| |] eqn:Ek;
    [ | simpl; discriminate | now apply decode_utf8_total in Ek ].
  apply Hnext.
Qed.

Lemma total_bind {A B} (m : py A) (k : A -> py B) :
  total m -> (forall a, total (k a)) -> total (bind m k).
Proof.
  intros Hm Hk w. unfold bind. specialize (Hm w).
  destruct (m w) as [w' [a| |]]; simpl in *;
    [apply Hk | discriminate | congruence].
Qed.

Lemma total_ret {A} (a : A) : total (ret a).
Proof. intros w. discriminate. Qed.

Lemma total_lift {A} (r : result A) : r <> Diverged -> total (lift r).
Proof. intros H w. exact H. Qed.

Lemma total_raise {A} (e : exn) : total (@raise A e).
Proof. intros w. discriminate. Qed.

Lemma total_print (s : string) : total (print s).
Proof. intros w. discriminate. Qed.

Lemma total_f_read (data : bytes) (n : Z) : total (f_read data n).
Proof. intros w. discriminate. Qed.

Lemma total_f_seek_set (p : Z) : total (f_seek_set p).
Proof. intros w. discriminate. Qed.

Lemma total_f_seek_cur (k : Z) : total (f_seek_cur k).
Proof. intros w. discriminate. Qed.

Lemma unpack_fixed_total (n : nat) (e : endianness) (b : bytes) :
  unpack_fixed n e b <> Diverged.
Proof. unfold unpack_fixed. destruct (Nat.eqb (length b) n); discriminate. Qed.

Lemma unpack_B_total (b : bytes) : unpack_B b <> Diverged.
Proof. apply unpack_fixed_total. Qed.

Lemma unpack_eB_total (endian : option endianness) (b : bytes) :
  unpack_eB endian b <> Diverged.
Proof.
  unfold unpack_eB. destruct endian; simpl;
    [apply unpack_fixed_total | discriminate].
Qed.

Lemma unpack_eL_total (endian : option endianness) (b : bytes) :
  unpack_eL endian b <> Diverged.
Proof.
  unfold unpack_eL. destruct endian; simpl;
    [apply unpack_fixed_total | discriminate].
Qed.

Lemma unpack_eHII_total (endian : option endianness) (b : bytes) :
  unpack_eHII endian b <> Diverged.
Proof.
  unfold unpack_eHII. destruct endian; simpl; [|discriminate].
  destruct (Nat.eqb (length b) 10); discriminate.
Qed.

Lemma unpack_BccBcc_total (b : bytes) : unpack_BccBcc b <> Diverged.
Proof.
  unfold unpack_BccBcc.
  destruct b as [|? [|? [|? [|? [|? [|? [|? ?]]]]]]]; discriminate.
Qed.

Lemma np_fromstring_total (native : endianness) (raw : bytes) (d : dtype) :
  np_fromstring native raw d <> Diverged.
Proof.
  unfold np_fromstring.
  destruct (Nat.eqb _ 0); discriminate.
Qed.

Lemma np_stack_total (arrays : list ndarray) : np_stack arrays <> Diverged.
Proof.
  unfold np_stack. destruct arrays as [|a rest]; [discriminate|].
  destruct (forallb _ rest); discriminate.
Qed.

Lemma pointers_loop_total (endian : option endianness) (block : bytes)
      (range : list nat) :
  forall acc, pointers_loop endian block range acc <> Diverged.
Proof.
  induction range as [|i range IH]; intros acc; [discriminate|].
  cbn [pointers_loop].
  destruct (unpack_eL endian _) as [pointer| |] eqn:E;
    [apply IH | discriminate | now apply unpack_eL_total in E].
Qed.

Lemma total_read_descriptor (data : bytes) : total (read_descriptor data).
Proof.
  unfold read_descriptor.
  apply total_bind; [apply total_f_read|intros block].
  apply total_bind; [apply total_lift, unpack_B_total|intros first_byte].
  apply total_bind.
  { destruct (first_byte =? 85); [apply total_ret|].
    destruct (first_byte =? 58); [apply total_ret|].
    apply total_bind; [apply total_print|intros _; apply total_ret]. }
  intros endian.
  apply total_bind; [apply total_lift, unpack_eH_total|intros rev].
  apply total_bind.
  { destruct (rev =? 1); [apply total_ret|apply total_print]. }
  intros _.
  apply total_bind; [apply total_lift, unpack_eH_total|intros M].
  apply total_bind; [apply total_lift, unpack_eH_total|intros N].
  apply total_bind; [apply total_lift, unpack_BccBcc_total|].
  intros [[[[[s s1] s2] t] t1] t2]. apply total_ret.
Qed.

Lemma total_read_trace_pointers (data : bytes)
      (endian : option endianness) (M N : Z) :
  total (read_trace_pointers data endian M N).
Proof.
  unfold read_trace_pointers.
  apply total_bind; [apply total_f_read|intros block].
  apply total_lift, pointers_loop_total.
Qed.

Lemma total_file_header_loop (data : bytes) (endian : option endianness)
      (d : dict) :
  total (file_header_loop data (S (length data)) endian d).
Proof. intros w. apply file_header_loop_total. lia. Qed.

Lemma total_trace_header_loop (data : bytes) (endian : option endianness)
      (a : nat) (h : store) (ths : list nat) :
  total (trace_header_loop data (S (length data)) endian a h ths).
Proof. intros w. apply trace_header_loop_total. lia. Qed.

Lemma total_trace_body (native : endianness) (data : bytes)
      (endian : option endianness) (p : Z) (l : locals) :
  total (trace_body native data endian p l).
Proof.
  unfold trace_body.
  apply total_bind; [apply total_f_seek_set|intros _].
  apply total_bind; [apply total_f_read|intros block].
  apply total_bind; [apply total_lift, unpack_eH_total|intros ID].
  apply total_bind.
  { destruct (ID =? 17442); [apply total_ret|apply total_raise]. }
  intros _.
  apply total_bind; [apply total_lift, unpack_eHII_total|].
  intros [[X Y] NS].
  apply total_bind; [apply total_lift, unpack_eB_total|intros code].
  apply total_bind.
  { destruct (DATA_FORMAT_CODES code); [apply total_ret|].
    apply total_bind; [apply total_print|intros _; apply total_ret]. }
  intros dtype_var.
  apply total_bind.
  { destruct dtype_var; [apply total_ret|apply total_raise]. }
  intros d.
  apply total_bind; [apply total_trace_header_loop|].
  intros [heap ths].
  apply total_bind; [apply total_f_seek_cur|intros _].
  apply total_bind; [apply total_f_read|intros raw].
  apply total_bind; [apply total_lift, np_fromstring_total|intros trace].
  apply total_ret.
Qed.

Lemma total_traces_loop (native : endianness) (data : bytes)
      (endian : option endianness) (ps : list Z) :
  forall l, total (traces_loop native data endian ps l).
Proof.
  induction ps as [|p ps IH]; intros l; [apply total_ret|].
  cbn [traces_loop]. apply total_bind; [apply total_trace_body|exact IH].
Qed.

(** [read_seg] and [read_seg2_header] return or raise on every file:
    the fuel they give to the loops over a header is never used up. *)
Lemma read_seg_total (native : endianness) (data : bytes) :
  snd (read_seg native data) <> Diverged.
Proof.
  unfold read_seg.
  assert (H : total (read_seg_body native data)).
  { unfold read_seg_body.
    apply total_bind; [apply total_read_descriptor|].
    intros [[endian M] N].
    apply total_bind; [apply total_read_trace_pointers|intros ps].
    apply total_bind; [apply total_traces_loop|intros l].
    apply total_bind; [apply total_lift, np_stack_total|intros x].
    apply total_ret. }
  specialize (H initial_world).
  destruct (read_seg_body native data initial_world). exact H.
Qed.

Lemma read_seg2_header_total (data : bytes) :
  snd (read_seg2_header data) <> Diverged.
Proof.
  unfold read_seg2_header.
  assert (H : total (read_seg2_header_body data)).
  { unfold read_seg2_header_body.
    apply total_bind; [apply total_read_descriptor|].
    intros [[endian M] N].
    apply total_bind; [apply total_read_trace_pointers|intros ps].
    apply total_file_header_loop. }
  specialize (H initial_world).
  destruct (read_seg2_header_body data initial_world). exact H.
Qed.

(** *** The first dimension of the array *)

Lemma bind_inv {A B} (m : py A) (k : A -> py B) (w w' : world) (b : B) :
  bind m k w = (w', Ok b) ->
  exists a w1, m w = (w1, Ok a) /\ k a w1 = (w', Ok b).
Proof.
  unfold bind. destruct (m w) as [w1 [a| |]]; intros H;
    try discriminate H.
  now exists a, w1.
Qed.

Lemma pointers_loop_length (endian : option endianness) (block : bytes)
      (range : list nat) :
  forall acc ps,
    pointers_loop endian block range acc = Ok ps ->
    length ps = (length acc + length range)%nat.
Proof.
  induction range as [|i range IH]; intros acc ps H.
  - injection H as <-. simpl. lia.
  - cbn [pointers_loop] in H.
    destruct (unpack_eL endian _) as [pointer| |]; try discriminate H.
    apply IH in H. rewrite H, length_app. simpl. lia.
Qed.

Lemma trace_body_appends (native : endianness) (data : bytes)
      (endian : option endianness) (p : Z) (l l' : locals) (w w' : world) :
  trace_body native data endian p l w = (w', Ok l') ->
  exists trace, l_traces l' = l_traces l ++ [trace].
Proof.
  unfold trace_body. intros H.
  apply bind_inv in H as (? & w1 & _ & H).
  apply bind_inv in H as (block & w2 & _ & H).
  apply bind_inv in H as (ID & w3 & _ & H).
  apply bind_inv in H as (? & w4 & _ & H).
  apply bind_inv in H as ([[X Y] NS] & w5 & _ & H).
  apply bind_inv in H as (code & w6 & _ & H).
  apply bind_inv in H as (dtype_var & w7 & _ & H).
  apply bind_inv in H as (d & w8 & _ & H).
  apply bind_inv in H as ([heap ths] & w9 & _ & H).
  apply bind_inv in H as (? & w10 & _ & H).
  apply bind_inv in H as (raw & w11 & _ & H).
  apply bind_inv in H as (trace & w12 & _ & H).
  unfold ret in H. injection H as _ <-.
  now exists trace.
Qed.

Lemma traces_loop_length (native : endianness) (data : bytes)
      (endian : option endianness) (ps : list Z) :
  forall l l' w w',
    traces_loop native data endian ps l w = (w', Ok l') ->
    length (l_traces l') = (length (l_traces l) + length ps)%nat.
Proof.
  induction ps as [|p ps IH]; intros l l' w w' H.
  - injection H as _ <-. simpl. lia.
  - cbn [traces_loop] in H.
    apply bind_inv in H as (l1 & w1 & Hbody & H).
    apply trace_body_appends in Hbody as [trace Ht].
    apply IH in H. rewrite H, Ht, length_app. simpl. lia.
Qed.

Lemma np_stack_rows (arrays : list ndarray) (x : ndarray2) :
  np_stack arrays = Ok x ->
  exists common, rows x = map (astype common) arrays.
Proof.
  unfold np_stack. destruct arrays as [|a rest]; [discriminate|].
  destruct (forallb _ rest); [|discriminate].
  intros [= <-]. eexists. reflexivity.
Qed.

Lemma np_stack_rows_dtype (arrays : list ndarray) (x : ndarray2) :
  np_stack arrays = Ok x ->
  rows x = map (astype (stack_dtype arrays)) arrays.
Proof.
  unfold np_stack. destruct arrays as [|a rest]; [discriminate|].
  destruct (forallb _ rest); [|discriminate].
  now intros [= <-].
Qed.

Lemma np_stack_length (arrays : list ndarray) (x : ndarray2) :
  np_stack arrays = Ok x -> length (rows x) = length arrays.
Proof.
  intros H. apply np_stack_rows in H as [common ->].
  apply length_map.
Qed.

(** X4.  Whenever [read_seg] returns, the array has as many rows as
    the descriptor declares traces: one pointer is read for each of the
    [N] traces, one trace is appended for each pointer, and [np.stack]
    keeps them all. *)
Lemma array_has_one_row_per_trace (native : endianness) (data : bytes)
      (out : list string) (s : seg) :
  read_seg native data = (out, Ok s) ->
  exists w endian M N,
    read_descriptor data initial_world = (w, Ok (endian, M, N)) /\
    fst (shape (seg_x_arr s)) = Z.to_nat N.
Proof.
  unfold read_seg. intros H.
  destruct (read_seg_body native data initial_world) as [w r] eqn:E.
  injection H as _ ->.
  unfold read_seg_body in E.
  apply bind_inv in E as ([[endian M] N] & w0 & Hd & E).
  apply bind_inv in E as (ps & w1 & Hp & E).
  apply bind_inv in E as (l & w2 & Hl & E).
  apply bind_inv in E as (x & w3 & Hx & E).
  unfold ret in E. injection E as _ <-.
  exists w0, endian, M, N. split; [exact Hd|].
  unfold read_trace_pointers in Hp.
  apply bind_inv in Hp as (block & w' & _ & Hp).
  unfold lift in Hp. injection Hp as _ Hp.
  apply pointers_loop_length in Hp. rewrite length_seq in Hp.
  apply traces_loop_length in Hl.
  unfold lift in Hx. injection Hx as _ Hx.
  apply np_stack_length in Hx.
  unfold shape. cbn [fst seg_x_arr]. rewrite Hx, Hl, Hp. reflexivity.
Qed.

(** *** Evaluations *)

(** The samples are read in the byte order of the host, not in the one
    the file declares: on a big-endian host the two little-endian
    samples 7 and 8 of [full_payload_file] come out as [0x0700] and
    [0x0800]. *)
Lemma samples_follow_host_order :
  snd (read_seg Little full_payload_file)
  = Ok (mk_seg [] [[]] (mk_ndarray2 [mk_ndarray int16 [7; 8]] 2))
  /\ snd (read_seg Big full_payload_file)
     = Ok (mk_seg [] [[]] (mk_ndarray2 [mk_ndarray int16 [1792; 2048]] 2)).
Proof. split; vm_compute; reflexivity. Qed.

(** [read_seg] on a trace whose header holds a text that does not
    split: the two entries around it are stored, and the trace is
    decoded. *)
Lemma read_seg_skips_bad_chunk :
  read_seg Big bad_chunk_trace_file
  = ([],
     Ok (mk_seg [0%nat; 0%nat]
           [[([x41], [x31]); ([x42], [x32; x33])]]
           (mk_ndarray2 [mk_ndarray int32 [9]] 1))).
Proof. vm_compute. reflexivity. Qed.

(** A revision other than 1 is only reported. *)
Lemma revision_is_a_warning :
  read_seg2_header
    ([x55; x00; x02; x00; x00; x00; x00; x00] ++ usual_terminators
       ++ repeat x00 18 ++ terminator)
  = (["This might not work, file is rev 2."%string], Ok []).
Proof. vm_compute. reflexivity. Qed.

(** *** A file header that does not end well *)

Section Unfinished.

Variable e : endianness.

(** The loop of [read_seg2_header] over the items that begin a block:
    one pass for each, whatever follows them. *)
Lemma file_header_loop_prefix (items : list item) :
  forall (fuel : nat) (pre rest : bytes) (d : dict) (out : list string),
    Forall item_ok items ->
    file_header_loop (pre ++ encode_items e items ++ rest)
                     (length items + fuel) (Some e) d
                     (mk_world (length pre) out)
    = file_header_loop (pre ++ encode_items e items ++ rest)
                       fuel (Some e) (store_items items d)
                       (mk_world (length pre + length (encode_items e items))
                                 out).
Proof.
  induction items as [|i items IH]; intros fuel pre rest d out Hok.
  - simpl. now rewrite Nat.add_0_r.
  - inversion Hok as [|? ? Hi Hitems]; subst.
    cbn [length Nat.add].
    unfold encode_items. cbn [map concat]. fold (encode_items e items).
    rewrite <- app_assoc.
    rewrite file_header_loop_chunk by now apply item_text_bound.
    assert (Hnext :
      forall d', file_header_loop
              (pre ++ chunk e (item_text i) ++ encode_items e items ++ rest)
              (length items + fuel) (Some e) d'
              (mk_world (length (pre ++ chunk e (item_text i))) out)
      = file_header_loop
          (pre ++ chunk e (item_text i) ++ encode_items e items ++ rest)
          fuel (Some e) (store_items items d')
          (mk_world (length pre +
                     length (chunk e (item_text i) ++ encode_items e items))
                    out)).
    { intros d'. rewrite app_assoc, IH by assumption.
      rewrite <- app_assoc, !length_app. do 2 f_equal. lia. }
    destruct i as [x|text].
    + cbn [item_text] in *. rewrite (bytes_split_entry x Hi).
      rewrite removelast_last.
      destruct Hi as (_ & _ & _ & _ & _ & _ & Hk & Hv & _).
      rewrite (decode_utf8_valid _ Hv), (decode_utf8_valid _ Hk).
      rewrite !bind_lift_ok, Hnext. reflexivity.
    + cbn [item_text] in *. destruct Hi as [Hsplit _].
      destruct (bytes_split text) as [|k [|v [|z l]]];
        try (simpl in Hsplit; congruence);
        rewrite Hnext; reflexivity.
Qed.

(** [read_seg2_header] on a file that begins with a descriptor block, a
    pointer sub-block and some items comes to the loop after these
    items with the assignments made. *)
Lemma read_seg2_header_prefix (M N : Z) (st table : bytes)
      (items : list item) (rest : bytes) (fuel : nat) :
  Forall item_ok items ->
  0 <= N -> M < 65536 -> N * 4 <= M -> Z.of_nat (length table) = M ->
  S (length (file_descriptor_block e M N st ++ table
               ++ encode_items e items ++ rest))
  = (length items + fuel)%nat ->
  read_seg2_header_body
    (file_descriptor_block e M N st ++ table
       ++ encode_items e items ++ rest) initial_world
  = file_header_loop
      (file_descriptor_block e M N st ++ table
         ++ encode_items e items ++ rest)
      fuel (Some e) (store_items items [])
      (mk_world (length (file_descriptor_block e M N st ++ table)
                 + length (encode_items e items)) []).
Proof.
  intros Hok HN HM Hcount Htable Hfuel.
  unfold read_seg2_header_body.
  rewrite (bind_ok _ _ _ _ _
             (read_descriptor_block e M N st _ ltac:(lia) ltac:(lia))).
  replace (mk_world 32 [])
    with (mk_world (length (file_descriptor_block e M N st)) [])
    by (now rewrite length_file_descriptor_block).
  rewrite <- Htable.
  rewrite (bind_ok _ _ _ _ _
             (read_trace_pointers_at e _ table _ N [] HN ltac:(lia))).
  rewrite <- length_app.
  rewrite <- Htable in Hfuel. rewrite Hfuel.
  rewrite (app_assoc (file_descriptor_block e (Z.of_nat (length table)) N st)
                     table).
  now rewrite file_header_loop_prefix.
Qed.

Lemma fuel_after_items (pre : bytes) (items : list item) (rest : bytes)
      (n : nat) :
  (n <= length rest)%nat ->
  exists fuel,
    S (length (pre ++ encode_items e items ++ rest))
    = (length items + fuel)%nat /\ (n < fuel)%nat.
Proof.
  intros Hn. pose proof (length_encode_items e items) as Hl.
  exists (S (length (pre ++ encode_items e items ++ rest)) - length items)%nat.
  rewrite !length_app. split; lia.
Qed.

End Unfinished.

Lemma f_read_rest (pre tail : bytes) (n : Z) (out : list string) :
  n < 0 \/ (length tail <= Z.to_nat n)%nat ->
  f_read (pre ++ tail) n (mk_world (length pre) out)
  = (mk_world (length pre + length tail) out, Ok tail).
Proof.
  intros Hn. unfold f_read. cbn [cursor stdout].
  rewrite skipn_app, skipn_all, Nat.sub_diag. simpl skipn.
  change ([] ++ tail) with tail.
  destruct (n <? 0) eqn:E; [reflexivity|].
  apply Z.ltb_ge in E. destruct Hn as [Hn|Hn]; [lia|].
  now rewrite firstn_all2 by lia.
Qed.

Lemma unpack_eH_short (e : endianness) (b : bytes) :
  (length b < 2)%nat -> unpack_eH (Some e) b = Raise StructError.
Proof.
  intros H. unfold unpack_eH, unpack_fixed. cbn [the_endian].
  destruct (Nat.eqb (length b) 2) eqn:E; [|reflexivity].
  apply Nat.eqb_eq in E. lia.
Qed.

(** At the end of the file, or one byte before it, the loop raises. *)
Lemma file_header_loop_at_end (e : endianness) (pre tail : bytes)
      (fuel : nat) (d : dict) (out : list string) :
  (length tail < 2)%nat ->
  file_header_loop (pre ++ tail) (S fuel) (Some e) d
                   (mk_world (length pre) out)
  = (mk_world (length pre + length tail) out, Raise StructError).
Proof.
  intros Hshort. cbn [file_header_loop].
  rewrite (bind_ok _ _ _ _ _
             (f_read_rest pre tail 2 out ltac:(right; simpl; lia))).
  now rewrite unpack_eH_short by assumption.
Qed.

(** X1.  A file header that is cut before its zero-length marker is an
    error: when the file ends after some chunks, with no byte or one
    byte left where the next length is expected, [read_seg2_header]
    raises [struct.error] and returns none of the entries it has
    read. *)
Theorem header_without_marker_raises
        (e : endianness) (M N : Z) (st table : bytes)
        (items : list item) (tail : bytes) :
  Forall item_ok items ->
  0 <= N -> M < 65536 -> N * 4 <= M -> Z.of_nat (length table) = M ->
  (length tail < 2)%nat ->
  read_seg2_header
    (file_descriptor_block e M N st ++ table
       ++ encode_items e items ++ tail)
  = ([], Raise StructError).
Proof.
  intros Hok HN HM Hcount Htable Hshort.
  destruct (fuel_after_items e (file_descriptor_block e M N st ++ table)
              items tail 0 ltac:(lia)) as (fuel & Hfuel & Hpos).
  rewrite <- app_assoc in Hfuel.
  unfold read_seg2_header.
  rewrite (read_seg2_header_prefix e M N st table items tail fuel)
    by assumption.
  destruct fuel as [|fuel]; [lia|].
  rewrite <- length_app.
  rewrite (app_assoc (file_descriptor_block e M N st) table),
    (app_assoc (file_descriptor_block e M N st ++ table)).
  now rewrite file_header_loop_at_end.
Qed.

Lemma header_without_marker_raises_witness :
  (Forall item_ok (map Good sample_entries) /\
   0 <= 0 /\ 0 < 65536 /\ 0 * 4 <= 0 /\
   Z.of_nat (length (@nil byte)) = 0 /\ (length [x00] < 2)%nat) /\
  read_seg2_header
    (file_descriptor_block Little 0 0 usual_terminators ++ []
       ++ encode_items Little (map Good sample_entries) ++ [x00])
  = ([], Raise StructError).
Proof.
  assert (H : Forall item_ok (map Good sample_entries))
    by (repeat constructor; simpl; try discriminate; try reflexivity).
  assert (H1 : 0 <= 0) by lia.
  assert (H2 : 0 < 65536) by lia.
  assert (H3 : 0 * 4 <= 0) by lia.
  assert (H4 : Z.of_nat (length (@nil byte)) = 0) by reflexivity.
  assert (H5 : (length [x00] < 2)%nat) by (simpl; lia).
  split; [tauto|].
  exact (header_without_marker_raises Little 0 0 usual_terminators []
           (map Good sample_entries) [x00] H H1 H2 H3 H4 H5).
Defined.

(** X2.  A chunk that splits into a key and a value is decoded outside
    the [try]: when the key, or the value without its last byte, is
    not UTF-8, [read_seg2_header] raises [UnicodeDecodeError] and the
    chunk is not skipped as a malformed one is. *)
Theorem undecodable_entry_raises
        (e : endianness) (M N : Z) (st table : bytes)
        (items : list item) (text rest : bytes) (k v : bytes) :
  Forall item_ok items ->
  0 <= N -> M < 65536 -> N * 4 <= M -> Z.of_nat (length table) = M ->
  Z.of_nat (length text) + 2 < 65536 ->
  bytes_split text = [k; v] ->
  utf8_valid k = false \/ utf8_valid (removelast v) = false ->
  read_seg2_header
    (file_descriptor_block e M N st ++ table
       ++ encode_items e items ++ chunk e text ++ rest)
  = ([], Raise UnicodeDecodeError).
Proof.
  intros Hok HN HM Hcount Htable Hlen Hsplit Hbad.
  destruct (fuel_after_items e (file_descriptor_block e M N st ++ table)
              items (chunk e text ++ rest) 0 ltac:(lia))
    as (fuel & Hfuel & Hpos).
  rewrite <- app_assoc in Hfuel.
  unfold read_seg2_header.
  rewrite (read_seg2_header_prefix e M N st table items _ fuel)
    by assumption.
  destruct fuel as [|fuel]; [lia|].
  rewrite <- length_app.
  rewrite (app_assoc (file_descriptor_block e M N st) table),
    (app_assoc (file_descriptor_block e M N st ++ table)).
  rewrite file_header_loop_chunk by assumption.
  rewrite Hsplit. unfold decode_utf8.
  destruct (utf8_valid (removelast v)) eqn:Ev.
  - destruct Hbad as [Hk|Hv]; [|discriminate].
    rewrite Hk, bind_lift_ok. reflexivity.
  - reflexivity.
Qed.

Lemma undecodable_entry_raises_witness :
  (Forall item_ok (map Good sample_entries) /\
   0 <= 0 /\ 0 < 65536 /\ 0 * 4 <= 0 /\
   Z.of_nat (length (@nil byte)) = 0 /\
   Z.of_nat (length bad_utf8_text) + 2 < 65536 /\
   bytes_split bad_utf8_text = [[xff]; [x56; x00]] /\
   (utf8_valid [xff] = false \/
    utf8_valid (removelast [x56; x00]) = false)) /\
  read_seg2_header
    (file_descriptor_block Big 0 0 usual_terminators ++ []
       ++ encode_items Big (map Good sample_entries)
       ++ chunk Big bad_utf8_text ++ terminator)
  = ([], Raise UnicodeDecodeError).
Proof.
  assert (H : Forall item_ok (map Good sample_entries))
    by (repeat constructor; simpl; try discriminate; try reflexivity).
  assert (H1 : 0 <= 0) by lia.
  assert (H2 : 0 < 65536) by lia.
  assert (H3 : 0 * 4 <= 0) by lia.
  assert (H4 : Z.of_nat (length (@nil byte)) = 0) by reflexivity.
  assert (H5 : Z.of_nat (length bad_utf8_text) + 2 < 65536)
    by (simpl; lia).
  assert (H6 : bytes_split bad_utf8_text = [[xff]; [x56; x00]])
    by reflexivity.
  assert (H7 : utf8_valid [xff] = false \/
               utf8_valid (removelast [x56; x00]) = false)
    by (left; reflexivity).
  split; [tauto|].
  exact (undecodable_entry_raises Big 0 0 usual_terminators []
           (map Good sample_entries) bad_utf8_text terminator
           [xff] [x56; x00] H H1 H2 H3 H4 H5 H6 H7).
Defined.

Lemma file_header_loop_eof (e : endianness) (data : bytes)
      (fuel : nat) (d : dict) (out : list string) :
  file_header_loop data (S fuel) (Some e) d (mk_world (length data) out)
  = (mk_world (length data) out, Raise StructError).
Proof.
  pose proof (file_header_loop_at_end e data [] fuel d out
                ltac:(simpl; lia)) as H.
  rewrite app_nil_r in H. simpl in H. now rewrite Nat.add_0_r in H.
Qed.

(** X3.  A length word of 1 never ends well.  [f.read(offset - 2)] is
    then [f.read(-1)], which takes all that is left of the file as the
    text of the chunk; whatever that text is, nothing is left for the
    next length and [read_seg2_header] raises: [struct.error], or
    [UnicodeDecodeError] when the text splits into two parts that
    cannot be decoded. *)
Theorem length_word_one_raises
        (e : endianness) (M N : Z) (st table : bytes)
        (items : list item) (rest : bytes) :
  Forall item_ok items ->
  0 <= N -> M < 65536 -> N * 4 <= M -> Z.of_nat (length table) = M ->
  read_seg2_header
    (file_descriptor_block e M N st ++ table
       ++ encode_items e items ++ pack e 2 1 ++ rest)
  = ([], Raise StructError)
  \/ read_seg2_header
       (file_descriptor_block e M N st ++ table
          ++ encode_items e items ++ pack e 2 1 ++ rest)
     = ([], Raise UnicodeDecodeError).
Proof.
  intros Hok HN HM Hcount Htable.
  destruct (fuel_after_items e (file_descriptor_block e M N st ++ table)
              items (pack e 2 1 ++ rest) 1
              ltac:(rewrite length_app, length_pack; lia))
    as (fuel & Hfuel & Hpos).
  rewrite <- app_assoc in Hfuel.
  unfold read_seg2_header.
  rewrite (read_seg2_header_prefix e M N st table items _ fuel)
    by assumption.
  destruct fuel as [|fuel]; [lia|].
  rewrite <- length_app.
  set (pre := (file_descriptor_block e M N st ++ table)
                ++ encode_items e items).
  replace (file_descriptor_block e M N st ++ table
             ++ encode_items e items ++ pack e 2 1 ++ rest)
    with (pre ++ pack e 2 1 ++ rest)
    by (unfold pre; now rewrite <- !app_assoc).
  cbn [file_header_loop].
  rewrite (bind_ok _ _ _ (mk_world (length pre + 2) []) (pack e 2 1))
    by (apply f_read_at with (pre := pre) (rest := rest);
        now rewrite ?length_pack).
  rewrite unpack_eH_pack by lia. rewrite bind_lift_ok.
  change (1 =? 0) with false. cbv iota.
  assert (Hrest :
    f_read (pre ++ pack e 2 1 ++ rest) (1 - 2)
           (mk_world (length pre + 2) [])
    = (mk_world (length (pre ++ pack e 2 1 ++ rest)) [], Ok rest)).
  { rewrite app_assoc.
    replace (length pre + 2)%nat with (length (pre ++ pack e 2 1))
      by (rewrite length_app, length_pack; lia).
    rewrite f_read_rest by (left; lia).
    now rewrite <- length_app. }
  rewrite (bind_ok _ _ _ _ _ Hrest).
  destruct fuel as [|fuel]; [lia|].
  destruct (bytes_split rest) as [|k [|v [|z l]]];
    try (rewrite file_header_loop_eof; now left).
  unfold decode_utf8.
  destruct (utf8_valid (removelast v)); [|now right].
  rewrite bind_lift_ok.
  destruct (utf8_valid k); [|now right].
  rewrite bind_lift_ok, file_header_loop_eof. now left.
Qed.

Lemma length_word_one_raises_witness :
  (Forall item_ok (map Good sample_entries) /\
   0 <= 0 /\ 0 < 65536 /\ 0 * 4 <= 0 /\
   Z.of_nat (length (@nil byte)) = 0) /\
  (read_seg2_header
     (file_descriptor_block Little 0 0 usual_terminators ++ []
        ++ encode_items Little (map Good sample_entries)
        ++ pack Little 2 1 ++ terminator)
   = ([], Raise StructError)
   \/ read_seg2_header
        (file_descriptor_block Little 0 0 usual_terminators ++ []
           ++ encode_items Little (map Good sample_entries)
           ++ pack Little 2 1 ++ terminator)
      = ([], Raise UnicodeDecodeError)).
Proof.
  assert (H : Forall item_ok (map Good sample_entries))
    by (repeat constructor; simpl; try discriminate; try reflexivity).
  assert (H1 : 0 <= 0) by lia.
  assert (H2 : 0 < 65536) by lia.
  assert (H3 : 0 * 4 <= 0) by lia.
  assert (H4 : Z.of_nat (length (@nil byte)) = 0) by reflexivity.
  split; [tauto|].
  exact (length_word_one_raises Little 0 0 usual_terminators []
           (map Good sample_entries) terminator H H1 H2 H3 H4).
Defined.

(** *** What a returned array is like *)

Lemma array_has_one_row_per_trace_witness :
  read_seg Little full_payload_file
  = ([], Ok (mk_seg [] [[]] (mk_ndarray2 [mk_ndarray int16 [7; 8]] 2))) /\
  exists w endian M N,
    read_descriptor full_payload_file initial_world
    = (w, Ok (endian, M, N)) /\
    fst (shape (seg_x_arr
                  (mk_seg [] [[]]
                          (mk_ndarray2 [mk_ndarray int16 [7; 8]] 2))))
    = Z.to_nat N.
Proof.
  assert (H : read_seg Little full_payload_file
              = ([], Ok (mk_seg [] [[]]
                           (mk_ndarray2 [mk_ndarray int16 [7; 8]] 2))))
    by (vm_compute; reflexivity).
  split; [exact H|].
  exact (array_has_one_row_per_trace Little full_payload_file [] _ H).
Defined.

Lemma np_stack_same_length (arrays : list ndarray) (x : ndarray2) :
  np_stack arrays = Ok x ->
  arrays <> [] /\
  Forall (fun a => length (arr_items a) = ncols x) arrays.
Proof.
  unfold np_stack. destruct arrays as [|a rest]; [discriminate|].
  destruct (forallb _ rest) eqn:E; [|discriminate].
  intros [= <-]. split; [discriminate|].
  cbn [ncols]. constructor; [reflexivity|].
  apply Forall_forall. intros a' Ha'.
  rewrite forallb_forall in E. specialize (E a' Ha').
  now apply Nat.eqb_eq in E.
Qed.

(** X5.  Whenever [read_seg] returns, the array is a rectangle with at
    least one row: every trace has the same number of samples, the
    second dimension of the array.  Traces of different lengths make
    [np.stack] raise instead. *)
Theorem returned_array_is_rectangular
        (native : endianness) (data : bytes) (out : list string) (s : seg) :
  read_seg native data = (out, Ok s) ->
  (1 <= fst (shape (seg_x_arr s)))%nat /\
  Forall (fun row => length (arr_items row) = snd (shape (seg_x_arr s)))
         (rows (seg_x_arr s)).
Proof.
  unfold read_seg. intros H.
  destruct (read_seg_body native data initial_world) as [w r] eqn:E.
  injection H as _ ->.
  unfold read_seg_body in E.
  apply bind_inv in E as ([[endian M] N] & w0 & _ & E).
  apply bind_inv in E as (ps & w1 & _ & E).
  apply bind_inv in E as (l & w2 & _ & E).
  apply bind_inv in E as (x & w3 & Hx & E).
  unfold ret in E. injection E as _ <-.
  unfold lift in Hx. injection Hx as _ Hx.
  pose proof (np_stack_rows _ _ Hx) as [common Hrows].
  apply np_stack_same_length in Hx as [Hne Hall].
  unfold shape. cbn [fst snd seg_x_arr]. rewrite Hrows. split.
  - rewrite length_map. destruct (l_traces l); [congruence|simpl; lia].
  - apply Forall_forall. intros row Hrow.
    apply in_map_iff in Hrow as (a & <- & Ha).
    rewrite Forall_forall in Hall. specialize (Hall a Ha).
    unfold astype. cbn [arr_items]. now rewrite length_map.
Qed.

Lemma returned_array_is_rectangular_witness :
  read_seg Little stale_dtype_file
  = (["Data type not supported."%string],
     Ok (mk_seg [] [[]; []]
           (mk_ndarray2 [mk_ndarray int16 [7]; mk_ndarray int16 [8]] 1))) /\
  Nat.le 1 (fst (shape (mk_ndarray2
                          [mk_ndarray int16 [7]; mk_ndarray int16 [8]] 1))).
Proof.
  assert (H : read_seg Little stale_dtype_file
              = (["Data type not supported."%string],
                 Ok (mk_seg [] [[]; []]
                       (mk_ndarray2 [mk_ndarray int16 [7];
                                     mk_ndarray int16 [8]] 1))))
    by (vm_compute; reflexivity).
  split; [exact H|].
  exact (proj1 (returned_array_is_rectangular Little stale_dtype_file _ _ H)).
Defined.

(** X6.  Traces with different numbers of samples cannot be returned:
    when every trace has been decoded and one of them is not as long as
    the first, [np.stack] raises [ValueError] and [read_seg] returns
    nothing. *)
Theorem ragged_traces_raise
        (native : endianness) (data : bytes) (endian : option endianness)
        (M N : Z) (w0 w1 w2 : world) (ps : list Z) (l : locals)
        (a : ndarray) (rest : list ndarray) :
  read_descriptor data initial_world = (w0, Ok (endian, M, N)) ->
  read_trace_pointers data endian M N w0 = (w1, Ok ps) ->
  traces_loop native data endian ps (mk_locals None [] [] []) w1
  = (w2, Ok l) ->
  l_traces l = a :: rest ->
  Exists (fun a' => length (arr_items a') <> length (arr_items a)) rest ->
  snd (read_seg native data)
  = Raise (ValueError "all input arrays must have the same shape").
Proof.
  intros Hd Hp Hl Ht Hex.
  unfold read_seg, read_seg_body.
  rewrite (bind_ok _ _ _ _ _ Hd), (bind_ok _ _ _ _ _ Hp),
    (bind_ok _ _ _ _ _ Hl).
  rewrite Ht. unfold np_stack.
  destruct (forallb _ rest) eqn:E; [|reflexivity].
  rewrite forallb_forall in E.
  apply Exists_exists in Hex as (a' & Hin & Hne).
  specialize (E a' Hin). apply Nat.eqb_eq in E. contradiction.
Qed.

Lemma ragged_traces_raise_witness :
  (read_descriptor ragged_file initial_world
   = (mk_world 32 [], Ok (Some Little, 8, 2)) /\
   read_trace_pointers ragged_file (Some Little) 8 2 (mk_world 32 [])
   = (mk_world 40 [], Ok [40; 77]) /\
   traces_loop Little ragged_file (Some Little) [40; 77]
               (mk_locals None [] [] []) (mk_world 40 [])
   = (mk_world 116 [],
      Ok (mk_locals (Some int16) [[]; []] []
                    [mk_ndarray int16 [7]; mk_ndarray int16 [8; 9]])) /\
   l_traces (mk_locals (Some int16) [[]; []] []
                       [mk_ndarray int16 [7]; mk_ndarray int16 [8; 9]])
   = mk_ndarray int16 [7] :: [mk_ndarray int16 [8; 9]] /\
   Exists (fun a' => length (arr_items a')
                     <> length (arr_items (mk_ndarray int16 [7])))
          [mk_ndarray int16 [8; 9]]) /\
  snd (read_seg Little ragged_file)
  = Raise (ValueError "all input arrays must have the same shape").
Proof.
  assert (H1 : read_descriptor ragged_file initial_world
               = (mk_world 32 [], Ok (Some Little, 8, 2)))
    by (vm_compute; reflexivity).
  assert (H2 : read_trace_pointers ragged_file (Some Little) 8 2
                 (mk_world 32 [])
               = (mk_world 40 [], Ok [40; 77]))
    by (vm_compute; reflexivity).
  assert (H3 : traces_loop Little ragged_file (Some Little) [40; 77]
                 (mk_locals None [] [] []) (mk_world 40 [])
               = (mk_world 116 [],
                  Ok (mk_locals (Some int16) [[]; []] []
                        [mk_ndarray int16 [7]; mk_ndarray int16 [8; 9]])))
    by (vm_compute; reflexivity).
  assert (H4 : l_traces (mk_locals (Some int16) [[]; []] []
                           [mk_ndarray int16 [7]; mk_ndarray int16 [8; 9]])
               = mk_ndarray int16 [7] :: [mk_ndarray int16 [8; 9]])
    by reflexivity.
  assert (H5 : Exists (fun a' => length (arr_items a')
                          <> length (arr_items (mk_ndarray int16 [7])))
                      [mk_ndarray int16 [8; 9]])
    by (constructor; simpl; discriminate).
  split; [tauto|].
  exact (ragged_traces_raise Little ragged_file (Some Little) 8 2 _ _ _ _ _
           _ _ H1 H2 H3 H4 H5).
Defined.

(** *** Files that are too short *)

Lemma bind_raise_snd {A B} (m : py A) (k : A -> py B) (w : world) (x : exn) :
  snd (m w) = Raise x -> snd (bind m k w) = Raise x.
Proof.
  unfold bind. destruct (m w) as [w' [a| |]]; simpl; intros H;
    try discriminate H. now injection H as ->.
Qed.

Lemma unpack_BccBcc_short (b : bytes) :
  length b <> 6%nat -> unpack_BccBcc b = Raise StructError.
Proof.
  unfold unpack_BccBcc.
  destruct b as [|? [|? [|? [|? [|? [|? [|? ?]]]]]]]; simpl; intros H;
    reflexivity || congruence.
Qed.

Lemma read_descriptor_short (e : endianness) (rest : bytes) :
  (length rest < 13)%nat ->
  snd (read_descriptor (magic e :: rest) initial_world) = Raise StructError.
Proof.
  intros Hlen. unfold read_descriptor.
  assert (Hread : f_read (magic e :: rest) 32 initial_world
                  = (mk_world (S (length rest)) [], Ok (magic e :: rest))).
  { unfold f_read, initial_world. cbn [cursor stdout skipn Z.ltb Z.compare].
    change (Z.to_nat 32) with 32%nat.
    rewrite firstn_all2 by (simpl; lia). reflexivity. }
  rewrite (bind_ok _ _ _ _ _ Hread).
  change (slice (magic e :: rest) 0 1) with [magic e].
  rewrite unpack_B_one, bind_lift_ok.
  assert (Hend :
    (if byte_val (magic e) =? 0x55 then ret (Some Little)
     else if byte_val (magic e) =? 0x3a then ret (Some Big)
          else print "This is not a SEG2 file." ;;; ret None)
    = ret (Some e)) by (destruct e; reflexivity).
  rewrite Hend. clear Hend Hread.
  unfold bind at 1. unfold ret at 1.
  unfold unpack_eH, unpack_fixed. cbn [the_endian].
  destruct (Nat.eqb (length (slice (magic e :: rest) 2 4)) 2);
    [|reflexivity].
  rewrite bind_lift_ok.
  destruct (int_from_bytes e (slice (magic e :: rest) 2 4) =? 1).
  all: unfold bind at 1; unfold ret, print; cbn [cursor stdout].
  all: destruct (Nat.eqb (length (slice (magic e :: rest) 4 6)) 2);
    [|reflexivity].
  all: rewrite bind_lift_ok.
  all: destruct (Nat.eqb (length (slice (magic e :: rest) 6 8)) 2);
    [|reflexivity].
  all: rewrite bind_lift_ok.
  all: rewrite unpack_BccBcc_short
    by (rewrite length_slice; simpl length; lia).
  all: reflexivity.
Qed.

(** X7.  A file that begins with a magic byte but holds fewer than the
    fourteen bytes of the descriptor that are decoded makes both
    functions raise [struct.error]; so does the empty file, in which no
    first byte can be unpacked. *)
Theorem short_descriptor_raises
        (native e : endianness) (rest : bytes) :
  (length rest < 13)%nat ->
  snd (read_seg native (magic e :: rest)) = Raise StructError
  /\ snd (read_seg2_header (magic e :: rest)) = Raise StructError
  /\ snd (read_seg native []) = Raise StructError
  /\ snd (read_seg2_header []) = Raise StructError.
Proof.
  intros Hlen.
  pose proof (read_descriptor_short e rest Hlen) as Hd.
  repeat split.
  - unfold read_seg, read_seg_body.
    pose proof (bind_raise_snd (read_descriptor (magic e :: rest))
                  (fun x => match x with
                            | (endian, M, N) =>
                                trace_pointers <-
                                  read_trace_pointers (magic e :: rest)
                                                      endian M N ;;
                                l <- traces_loop native (magic e :: rest)
                                       endian trace_pointers
                                       (mk_locals None [] [] []) ;;
                                x_arr <- lift (np_stack (l_traces l)) ;;
                                ret (mk_seg (l_trace_headers l) (l_heap l)
                                            x_arr)
                            end)
                  initial_world StructError Hd) as H.
    destruct (bind _ _ initial_world) as [w r]. exact H.
  - unfold read_seg2_header, read_seg2_header_body.
    pose proof (bind_raise_snd (read_descriptor (magic e :: rest))
                  (fun x => match x with
                            | (endian, M, N) =>
                                trace_pointers <-
                                  read_trace_pointers (magic e :: rest)
                                                      endian M N ;;
                                file_header_loop (magic e :: rest)
                                  (S (length (magic e :: rest))) endian []
                            end)
                  initial_world StructError Hd) as H.
    destruct (bind _ _ initial_world) as [w r]. exact H.
Qed.

Lemma short_descriptor_raises_witness :
  (length [x00; x01; x00] < 13)%nat /\
  snd (read_seg Big (magic Little :: [x00; x01; x00])) = Raise StructError.
Proof.
  assert (H : (length [x00; x01; x00] < 13)%nat) by (simpl; lia).
  split; [exact H|].
  exact (proj1 (short_descriptor_raises Big Little [x00; x01; x00] H)).
Defined.

(** *** What a file must hold for [read_seg] to return *)

Lemma byte_val_is_x55 (b : byte) : (byte_val b =? 0x55) = true -> b = x55.
Proof.
  intros H. destruct b; try reflexivity; vm_compute in H; discriminate H.
Qed.

Lemma byte_val_is_x3a (b : byte) : (byte_val b =? 0x3a) = true -> b = x3a.
Proof.
  intros H. destruct b; try reflexivity; vm_compute in H; discriminate H.
Qed.

(** A descriptor is read only from a file that begins with a magic byte
    and holds fourteen bytes; [M] and [N] are then read in the byte
    order of the magic byte. *)
Lemma read_descriptor_inv (data : bytes) (w : world)
      (endian : option endianness) (M N : Z) :
  read_descriptor data initial_world = (w, Ok (endian, M, N)) ->
  exists e rest,
    data = magic e :: rest /\ (13 <= length rest)%nat /\
    endian = Some e /\
    M = int_from_bytes e (slice data 4 6) /\
    N = int_from_bytes e (slice data 6 8) /\
    cursor w = Nat.min 32 (length data).
Proof.
  intros H.
  destruct data as [|b rest]; [discriminate H|].
  assert (He : exists e, b = magic e).
  { unfold read_descriptor in H.
    assert (Hread : f_read (b :: rest) 32 initial_world
                    = (mk_world (S (length (firstn 31 rest))) [],
                       Ok (b :: firstn 31 rest))) by reflexivity.
    rewrite (bind_ok _ _ _ _ _ Hread) in H.
    change (slice (b :: firstn 31 rest) 0 1) with [b] in H.
    rewrite unpack_B_one, bind_lift_ok in H.
    destruct (byte_val b =? 0x55) eqn:E55;
      [exists Little; now apply byte_val_is_x55|].
    destruct (byte_val b =? 0x3a) eqn:E3a;
      [exists Big; now apply byte_val_is_x3a|].
    discriminate H. }
  destruct He as [e ->].
  destruct (Nat.le_gt_cases 13 (length rest)) as [Hlen|Hshort].
  - destruct (read_descriptor_magic e rest Hlen) as [out Hd].
    rewrite Hd in H. injection H as <- <- <- <-.
    exists e, rest. repeat split; try assumption.
  - pose proof (read_descriptor_short e rest Hshort) as Hd.
    rewrite H in Hd. discriminate Hd.
Qed.

(** X8.  [read_seg] returns only for a file that begins with a magic
    byte, declares at least one trace, declares a pointer sub-block
    large enough for its [N] pointers, and holds these pointers after
    the 32 bytes of the descriptor.  Every other file makes it
    raise. *)
Theorem read_seg_returns_only_if
        (native : endianness) (data : bytes) (out : list string) (s : seg) :
  read_seg native data = (out, Ok s) ->
  exists e rest,
    data = magic e :: rest /\
    1 <= int_from_bytes e (slice data 6 8) /\
    int_from_bytes e (slice data 6 8) * 4
    <= int_from_bytes e (slice data 4 6) /\
    (32 + 4 * Z.to_nat (int_from_bytes e (slice data 6 8))
     <= length data)%nat.
Proof.
  unfold read_seg. intros H.
  destruct (read_seg_body native data initial_world) as [w r] eqn:E.
  injection H as _ ->.
  unfold read_seg_body in E.
  apply bind_inv in E as ([[endian M] N] & w0 & Hd & E).
  apply bind_inv in E as (ps & w1 & Hp & E).
  apply bind_inv in E as (l & w2 & Hl & E).
  apply bind_inv in E as (x & w3 & Hx & E).
  apply read_descriptor_inv in Hd
    as (e & rest & Hdata & Hlen & -> & HM & HN & Hc).
  exists e, rest. split; [exact Hdata|].
  rewrite <- HM, <- HN.
  assert (HMr : 0 <= M) by (rewrite HM; apply int_from_bytes_range).
  assert (HNr : 0 <= N) by (rewrite HN; apply int_from_bytes_range).
  unfold read_trace_pointers in Hp.
  apply bind_inv in Hp as (block & w' & Hr & Hp).
  rewrite f_read_slice in Hr by assumption. injection Hr as _ <-.
  unfold lift in Hp. injection Hp as _ Hp.
  pose proof (pointers_loop_length _ _ _ _ _ Hp) as Hps.
  rewrite length_seq in Hps. simpl in Hps.
  apply traces_loop_length in Hl. simpl in Hl.
  unfold lift in Hx. injection Hx as _ Hx.
  apply np_stack_same_length in Hx as [Hne _].
  assert (Hpos : (0 < Z.to_nat N)%nat).
  { destruct (l_traces l); [congruence|]. simpl in Hl. lia. }
  destruct (Nat.le_gt_cases
              (4 * (0 + Z.to_nat N))
              (length (slice data (cursor w0) (cursor w0 + Z.to_nat M))))
    as [Hfit|Hshort].
  - rewrite length_slice in Hfit. lia.
  - rewrite (pointers_loop_short e _ (Z.to_nat N) 0 [] Hpos Hshort) in Hp.
    discriminate Hp.
Qed.

Lemma read_seg_returns_only_if_witness :
  read_seg Little full_payload_file
  = ([], Ok (mk_seg [] [[]] (mk_ndarray2 [mk_ndarray int16 [7; 8]] 2))) /\
  exists e rest,
    full_payload_file = magic e :: rest /\
    1 <= int_from_bytes e (slice full_payload_file 6 8) /\
    int_from_bytes e (slice full_payload_file 6 8) * 4
    <= int_from_bytes e (slice full_payload_file 4 6) /\
    (32 + 4 * Z.to_nat (int_from_bytes e (slice full_payload_file 6 8))
     <= length full_payload_file)%nat.
Proof.
  assert (H : read_seg Little full_payload_file
              = ([], Ok (mk_seg [] [[]]
                           (mk_ndarray2 [mk_ndarray int16 [7; 8]] 2))))
    by (vm_compute; reflexivity).
  split; [exact H|].
  exact (read_seg_returns_only_if Little full_payload_file [] _ H).
Defined.

(** *** The revision number *)

(** X9.  The revision number is never fatal.  For a file that begins
    with a magic byte and holds the fourteen decoded bytes of the
    descriptor, the byte order, [M] and [N] are read the same whatever
    the revision is; a revision other than 1 only adds the warning to
    what is printed. *)
Theorem revision_only_warns (e : endianness) (rest : bytes) :
  (13 <= length rest)%nat ->
  read_descriptor (magic e :: rest) initial_world
  = (mk_world (Nat.min 32 (S (length rest)))
       (if int_from_bytes e (slice (magic e :: rest) 2 4) =? 1 then []
        else [("This might not work, file is rev "
                 ++ show_int (int_from_bytes e (slice (magic e :: rest) 2 4))
                 ++ ".")%string]),
     Ok (Some e,
         int_from_bytes e (slice (magic e :: rest) 4 6),
         int_from_bytes e (slice (magic e :: rest) 6 8))).
Proof.
  intros Hlen.
  do 13 (destruct rest as [|? rest]; [simpl in Hlen; lia|]).
  unfold read_descriptor.
  assert (Hread :
    f_read (magic e :: b :: b0 :: b1 :: b2 :: b3 :: b4 :: b5 :: b6 :: b7
              :: b8 :: b9 :: b10 :: b11 :: rest) 32 initial_world
    = (mk_world (Nat.min 32 (S (length (b :: b0 :: b1 :: b2 :: b3 :: b4
                 :: b5 :: b6 :: b7 :: b8 :: b9 :: b10 :: b11 :: rest)))) [],
       Ok (magic e :: b :: b0 :: b1 :: b2 :: b3 :: b4 :: b5 :: b6 :: b7
             :: b8 :: b9 :: b10 :: b11 :: firstn 18 rest))).
  { unfold f_read, initial_world. cbn [cursor stdout skipn Z.ltb Z.compare].
    change (Z.to_nat 32) with 32%nat.
    change (firstn 32 (magic e :: b :: b0 :: b1 :: b2 :: b3 :: b4 :: b5
                         :: b6 :: b7 :: b8 :: b9 :: b10 :: b11 :: rest))
      with (magic e :: b :: b0 :: b1 :: b2 :: b3 :: b4 :: b5 :: b6 :: b7
              :: b8 :: b9 :: b10 :: b11 :: firstn 18 rest).
    f_equal. f_equal. cbn [length]. rewrite length_firstn. lia. }
  rewrite (bind_ok _ _ _ _ _ Hread).
  change (slice (magic e :: b :: b0 :: b1 :: b2 :: b3 :: b4 :: b5 :: b6
                   :: b7 :: b8 :: b9 :: b10 :: b11 :: firstn 18 rest) 0 1)
    with [magic e].
  rewrite unpack_B_one, bind_lift_ok.
  assert (Hend :
    (if byte_val (magic e) =? 0x55 then ret (Some Little)
     else if byte_val (magic e) =? 0x3a then ret (Some Big)
          else print "This is not a SEG2 file." ;;; ret None)
    = ret (Some e)) by (destruct e; reflexivity).
  rewrite Hend. clear Hend Hread.
  unfold bind at 1. unfold ret at 1.
  cbn [slice Nat.sub skipn firstn].
  unfold unpack_eH, unpack_fixed. cbn [the_endian length Nat.eqb].
  rewrite !bind_lift_ok.
  destruct (int_from_bytes e [b0; b1] =? 1); reflexivity.
Qed.

Lemma revision_only_warns_witness :
  (13 <= length ([x00; x02; x00; x00; x00; x00; x00]
                   ++ usual_terminators))%nat /\
  read_descriptor
    (magic Little :: [x00; x02; x00; x00; x00; x00; x00]
                       ++ usual_terminators) initial_world
  = (mk_world 14 ["This might not work, file is rev 2."%string],
     Ok (Some Little, 0, 0)).
Proof.
  assert (H : (13 <= length ([x00; x02; x00; x00; x00; x00; x00]
                               ++ usual_terminators))%nat)
    by (simpl; lia).
  split; [exact H|].
  exact (revision_only_warns Little
           ([x00; x02; x00; x00; x00; x00; x00] ++ usual_terminators) H).
Defined.

(** *** Pointers that lead nowhere *)

Lemma trace_body_past_end (native : endianness) (data : bytes)
      (e : endianness) (p : Z) (l : locals) (w : world) :
  (length data < Z.to_nat p + 2)%nat ->
  snd (trace_body native data (Some e) p l w) = Raise StructError.
Proof.
  intros Hlen. unfold trace_body.
  unfold bind at 1. unfold f_seek_set at 1.
  unfold bind at 1. unfold f_read at 1. cbn [cursor stdout Z.ltb Z.compare].
  change (Z.to_nat 32) with 32%nat.
  rewrite firstn_slice_prefix by lia.
  rewrite unpack_eH_short by (rewrite length_slice; lia).
  reflexivity.
Qed.

(** X10.  [f.seek] accepts any offset, and reading at or after the end
    of the file gives no bytes.  So when the decoder comes to a trace
    pointer that leaves fewer than two bytes before the end of the
    file, the block ID cannot be unpacked and [read_seg] raises
    [struct.error]. *)
Theorem pointer_past_end_raises
        (native e : endianness) (data : bytes) (M N : Z)
        (w0 w1 w2 : world) (ps1 ps2 : list Z) (p : Z) (l : locals) :
  read_descriptor data initial_world = (w0, Ok (Some e, M, N)) ->
  read_trace_pointers data (Some e) M N w0 = (w1, Ok (ps1 ++ p :: ps2)) ->
  traces_loop native data (Some e) ps1 (mk_locals None [] [] []) w1
  = (w2, Ok l) ->
  (length data < Z.to_nat p + 2)%nat ->
  snd (read_seg native data) = Raise StructError.
Proof.
  intros Hd Hp Hl Hlen.
  unfold read_seg, read_seg_body.
  rewrite (bind_ok _ _ _ _ _ Hd), (bind_ok _ _ _ _ _ Hp).
  unfold bind at 1. rewrite traces_loop_app.
  rewrite (bind_ok _ _ _ _ _ Hl).
  cbn [traces_loop]. unfold bind at 1.
  pose proof (trace_body_past_end native data e p l w2 Hlen) as Hb.
  destruct (trace_body native data (Some e) p l w2) as [w3 r].
  simpl in Hb. subst r. reflexivity.
Qed.

Lemma pointer_past_end_raises_witness :
  (read_descriptor dangling_pointer_file initial_world
   = (mk_world 32 [], Ok (Some Little, 4, 1)) /\
   read_trace_pointers dangling_pointer_file (Some Little) 4 1
                       (mk_world 32 [])
   = (mk_world 36 [], Ok ([] ++ 36 :: [])) /\
   traces_loop Little dangling_pointer_file (Some Little) []
               (mk_locals None [] [] []) (mk_world 36 [])
   = (mk_world 36 [], Ok (mk_locals None [] [] [])) /\
   (length dangling_pointer_file < Z.to_nat 36 + 2)%nat) /\
  snd (read_seg Little dangling_pointer_file) = Raise StructError.
Proof.
  assert (H1 : read_descriptor dangling_pointer_file initial_world
               = (mk_world 32 [], Ok (Some Little, 4, 1)))
    by (vm_compute; reflexivity).
  assert (H2 : read_trace_pointers dangling_pointer_file (Some Little) 4 1
                 (mk_world 32 [])
               = (mk_world 36 [], Ok ([] ++ 36 :: [])))
    by (vm_compute; reflexivity).
  assert (H3 : traces_loop Little dangling_pointer_file (Some Little) []
                 (mk_locals None [] [] []) (mk_world 36 [])
               = (mk_world 36 [], Ok (mk_locals None [] [] [])))
    by reflexivity.
  assert (H4 : (length dangling_pointer_file < Z.to_nat 36 + 2)%nat)
    by (vm_compute; lia).
  split; [tauto|].
  exact (pointer_past_end_raises Little Little dangling_pointer_file 4 1
           _ _ _ [] [] 36 _ H1 H2 H3 H4).
Defined.

(** *** What a returned header is like *)

Lemma bytes_split_nonspace_parts (s : bytes) :
  Forall (fun w => forallb nonspace w = true) (bytes_split s).
Proof.
  induction s as [|b t IH]; [constructor|].
  destruct t as [|c t'].
  - simpl. destruct (isspace b) eqn:Eb; repeat constructor.
    simpl. unfold nonspace. now rewrite Eb.
  - rewrite bytes_split_cons2.
    destruct (isspace b) eqn:Eb; [exact IH|].
    assert (Hb : nonspace b = true) by (unfold nonspace; now rewrite Eb).
    destruct (isspace c).
    + constructor; [simpl; now rewrite Hb | exact IH].
    + destruct (bytes_split (c :: t')) as [|w ws].
      * repeat constructor. simpl. now rewrite Hb.
      * inversion IH as [|? ? Hw Hws]; subst.
        constructor; [simpl; now rewrite Hb, Hw | assumption].
Qed.

Lemma forallb_removelast {A} (f : A -> bool) (l : list A) :
  forallb f l = true -> forallb f (removelast l) = true.
Proof.
  induction l as [|a l IH]; [reflexivity|].
  simpl. intros H. apply andb_true_iff in H as [Ha Hl].
  destruct l as [|a' l']; [reflexivity|].
  simpl. rewrite Ha. exact (IH Hl).
Qed.

Lemma existsb_str_eqb_false (ks : list str) (k : str) :
  existsb (fun k' => str_eqb k' k) ks = false -> ~ In k ks.
Proof.
  induction ks as [|k0 ks IH]; simpl; [tauto|].
  intros H. apply orb_false_iff in H as [H0 H1].
  apply str_eqb_neq in H0. intros [Heq|Hin]; [congruence|].
  now apply IH.
Qed.

Lemma dict_setitem_forall (P : str * str -> Prop) (d : dict) (k v : str) :
  Forall P d -> P (k, v) -> Forall P (dict_setitem d k v).
Proof.
  intros Hd Hkv. induction Hd as [|[k0 v0] d H0 Hd IH]; simpl.
  - now constructor.
  - destruct (str_eqb k0 k); constructor; assumption.
Qed.

Lemma dict_setitem_header_like (d : dict) (k v : str) :
  header_like d -> word_pair (k, v) -> header_like (dict_setitem d k v).
Proof.
  intros [Hnd Hall] Hkv. split.
  - rewrite keys_setitem.
    destruct (existsb _ (map fst d)) eqn:E; [exact Hnd|].
    apply existsb_str_eqb_false in E.
    apply NoDup_app; [exact Hnd | repeat constructor; simpl; tauto |].
    intros x Hx [<-|[]]. contradiction.
  - now apply dict_setitem_forall.
Qed.

Lemma split_pair_is_words (s k v v' k' : bytes) :
  bytes_split s = [k; v] ->
  decode_utf8 (removelast v) = Ok v' -> decode_utf8 k = Ok k' ->
  word_pair (k', v').
Proof.
  intros Hs Hv Hk.
  pose proof (bytes_split_nonempty_parts s) as Hne.
  pose proof (bytes_split_nonspace_parts s) as Hns.
  rewrite Hs in Hne, Hns.
  inversion Hne as [|? ? Hk1 _]; subst.
  inversion Hns as [|? ? Hk2 Hns']; subst.
  inversion Hns' as [|? ? Hv2 _]; subst.
  unfold decode_utf8 in Hv, Hk.
  destruct (utf8_valid (removelast v)) eqn:Ev; [|discriminate].
  destruct (utf8_valid k) eqn:Ek; [|discriminate].
  injection Hv as <-. injection Hk as <-.
  unfold word_pair. cbn [fst snd].
  repeat split; try assumption.
  now apply forallb_removelast.
Qed.

Lemma file_header_loop_header_like (data : bytes)
      (endian : option endianness) (fuel : nat) :
  forall (d d' : dict) (w w' : world),
    file_header_loop data fuel endian d w = (w', Ok d') ->
    header_like d -> header_like d'.
Proof.
  induction fuel as [|fuel IH]; intros d d' w w' H Hd; [discriminate H|].
  cbn [file_header_loop] in H.
  apply bind_inv in H as (word & w1 & _ & H).
  apply bind_inv in H as (offset & w2 & _ & H).
  destruct (offset =? 0).
  - unfold ret in H. now injection H as _ <-.
  - apply bind_inv in H as (text & w3 & _ & H).
    destruct (bytes_split text) as [|k [|v [|z t]]] eqn:Es;
      try (eapply IH; eassumption).
    apply bind_inv in H as (v' & w4 & Hv & H).
    apply bind_inv in H as (k' & w5 & Hk & H).
    unfold lift in Hv, Hk. injection Hv as _ Hv. injection Hk as _ Hk.
    eapply IH; [exact H|].
    apply dict_setitem_header_like; [assumption|].
    exact (split_pair_is_words _ _ _ _ _ Es Hv Hk).
Qed.

(** X11.  Whatever the file, a header that [read_seg2_header] returns
    has distinct keys; every key is a non-empty word without
    whitespace and every value is without whitespace, since both come
    from the parts of a split, and both were decoded as UTF-8.  A value
    of several words never appears in it. *)
Theorem returned_header_is_made_of_words
        (data : bytes) (out : list string) (d : dict) :
  read_seg2_header data = (out, Ok d) -> header_like d.
Proof.
  unfold read_seg2_header. intros H.
  destruct (read_seg2_header_body data initial_world) as [w r] eqn:E.
  injection H as _ ->.
  unfold read_seg2_header_body in E.
  apply bind_inv in E as ([[endian M] N] & w0 & _ & E).
  apply bind_inv in E as (ps & w1 & _ & E).
  eapply file_header_loop_header_like; [exact E|].
  split; constructor.
Qed.

Lemma returned_header_is_made_of_words_witness :
  read_seg2_header
    (file_descriptor_block Big 0 0 nul2_terminators
       ++ chunk Big nul2_text ++ terminator ++ [])
  = ([], Ok [([x4b], removelast [x56; x00; x00])]) /\
  header_like [([x4b], removelast [x56; x00; x00])].
Proof.
  assert (H : read_seg2_header
                (file_descriptor_block Big 0 0 nul2_terminators
                   ++ chunk Big nul2_text ++ terminator ++ [])
              = ([], Ok [([x4b], removelast [x56; x00; x00])]))
    by (vm_compute; reflexivity).
  split; [exact H|].
  exact (returned_header_is_made_of_words _ _ _ H).
Defined.

(** *** What the returned trace headers are like *)

Lemma length_store_update (h : store) (a : nat) (f : dict -> dict) :
  length (store_update h a f) = length h.
Proof.
  revert a. induction h as [|d h IH]; intros a; [reflexivity|].
  destruct a; simpl; [reflexivity|]. now rewrite IH.
Qed.

Lemma store_get_update_same (h : store) (a : nat) (f : dict -> dict) :
  (a < length h)%nat ->
  store_get (store_update h a f) a = f (store_get h a).
Proof.
  unfold store_get. revert a.
  induction h as [|d h IH]; intros a Ha; [simpl in Ha; lia|].
  destruct a; simpl; [reflexivity|]. apply IH. simpl in Ha. lia.
Qed.

Lemma store_get_update_other (h : store) (a i : nat) (f : dict -> dict) :
  i <> a -> store_get (store_update h a f) i = store_get h i.
Proof.
  unfold store_get. revert a i.
  induction h as [|d h IH]; intros a i Hne; [reflexivity|].
  destruct a, i; simpl; try reflexivity; try congruence.
  apply IH. congruence.
Qed.

Lemma store_update_forall (P : dict -> Prop) (h : store) (a : nat)
      (f : dict -> dict) :
  Forall P h -> (forall d, P d -> P (f d)) ->
  Forall P (store_update h a f).
Proof.
  intros Hh Hf. revert a.
  induction Hh as [|d h Hd Hh IH]; intros a; [constructor|].
  destruct a; simpl; constructor; auto.
Qed.

Lemma dict_setitem_nonempty (d : dict) (k v : str) :
  dict_setitem d k v <> [].
Proof.
  destruct d as [|[k0 v0] d]; simpl; [discriminate|].
  destruct (str_eqb k0 k); discriminate.
Qed.

Lemma headers_ok_update (h : store) (ths : list nat) (a : nat)
      (k v : str) :
  (a < length h)%nat -> word_pair (k, v) -> headers_ok h ths ->
  headers_ok (store_update h a (fun d => dict_setitem d k v)) (ths ++ [a]).
Proof.
  intros Ha Hkv [Hrefs Hall]. split.
  - intros i. rewrite length_store_update, in_app_iff.
    destruct (Nat.eq_dec i a) as [->|Hne].
    + rewrite store_get_update_same by assumption. split.
      * intros _. split; [assumption|apply dict_setitem_nonempty].
      * intros _. right. now left.
    + rewrite store_get_update_other by assumption.
      rewrite Hrefs. simpl. split; [|tauto].
      intros [H|[H|[]]]; [assumption|congruence].
  - apply store_update_forall; [assumption|].
    intros d Hd. now apply dict_setitem_header_like.
Qed.

Lemma headers_ok_new (h : store) (ths : list nat) :
  headers_ok h ths -> headers_ok (h ++ [[]]) ths.
Proof.
  intros [Hrefs Hall]. split.
  - intros i. rewrite Hrefs, length_app. simpl. unfold store_get.
    destruct (Nat.lt_ge_cases i (length h)) as [Hlt|Hge].
    + rewrite app_nth1 by assumption. split; intros [H1 H2]; split;
        try assumption; lia.
    + split; [lia|]. intros [H1 H2]. exfalso. apply H2.
      assert (i = length h) as -> by lia.
      now rewrite nth_middle.
  - apply Forall_app. split; [assumption|].
    repeat constructor.
Qed.

Lemma trace_header_loop_headers_ok (data : bytes)
      (endian : option endianness) (a : nat) (fuel : nat) :
  forall (h h' : store) (ths ths' : list nat) (w w' : world),
    trace_header_loop data fuel endian a h ths w = (w', Ok (h', ths')) ->
    (a < length h)%nat -> headers_ok h ths ->
    length h' = length h /\ headers_ok h' ths'.
Proof.
  induction fuel as [|fuel IH]; intros h h' ths ths' w w' H Ha Hok;
    [discriminate H|].
  cbn [trace_header_loop] in H.
  apply bind_inv in H as (word & w1 & _ & H).
  apply bind_inv in H as (offset & w2 & _ & H).
  destruct (offset =? 0).
  - unfold ret in H. injection H as _ <- <-. now split.
  - apply bind_inv in H as (text & w3 & _ & H).
    destruct (bytes_split text) as [|k [|v [|z t]]] eqn:Es;
      try (eapply IH; eassumption).
    apply bind_inv in H as (v' & w4 & Hv & H).
    apply bind_inv in H as (k' & w5 & Hk & H).
    unfold lift in Hv, Hk. injection Hv as _ Hv. injection Hk as _ Hk.
    apply IH in H.
    + rewrite length_store_update in H. exact H.
    + now rewrite length_store_update.
    + apply headers_ok_update; [assumption| |assumption].
      exact (split_pair_is_words _ _ _ _ _ Es Hv Hk).
Qed.

Lemma trace_body_headers_ok (native : endianness) (data : bytes)
      (endian : option endianness) (p : Z) (l l' : locals) (w w' : world) :
  trace_body native data endian p l w = (w', Ok l') ->
  headers_ok (l_heap l) (l_trace_headers l) ->
  length (l_heap l') = S (length (l_heap l)) /\
  headers_ok (l_heap l') (l_trace_headers l').
Proof.
  unfold trace_body. intros H Hok.
  apply bind_inv in H as (? & w1 & _ & H).
  apply bind_inv in H as (block & w2 & _ & H).
  apply bind_inv in H as (ID & w3 & _ & H).
  apply bind_inv in H as (? & w4 & _ & H).
  apply bind_inv in H as ([[X Y] NS] & w5 & _ & H).
  apply bind_inv in H as (code & w6 & _ & H).
  apply bind_inv in H as (dtype_var & w7 & _ & H).
  apply bind_inv in H as (d & w8 & _ & H).
  apply bind_inv in H as ([heap ths] & w9 & Hloop & H).
  apply bind_inv in H as (? & w10 & _ & H).
  apply bind_inv in H as (raw & w11 & _ & H).
  apply bind_inv in H as (trace & w12 & _ & H).
  unfold ret in H. injection H as _ <-. cbn [l_heap l_trace_headers].
  apply trace_header_loop_headers_ok in Hloop.
  - rewrite length_app in Hloop. simpl in Hloop.
    destruct Hloop as [Hlen Hok']. split; [lia|assumption].
  - rewrite length_app. simpl. lia.
  - now apply headers_ok_new.
Qed.

Lemma traces_loop_headers_ok (native : endianness) (data : bytes)
      (endian : option endianness) (ps : list Z) :
  forall l l' w w',
    traces_loop native data endian ps l w = (w', Ok l') ->
    headers_ok (l_heap l) (l_trace_headers l) ->
    length (l_heap l') = (length (l_heap l) + length ps)%nat /\
    headers_ok (l_heap l') (l_trace_headers l').
Proof.
  induction ps as [|p ps IH]; intros l l' w w' H Hok.
  - injection H as _ <-. split; [simpl; lia|assumption].
  - cbn [traces_loop] in H.
    apply bind_inv in H as (l1 & w1 & Hbody & H).
    apply trace_body_headers_ok in Hbody as [Hlen1 Hok1]; [|assumption].
    apply IH in H as [Hlen Hok']; [|assumption].
    split; [simpl; lia|assumption].
Qed.

(** X12.  Whenever [read_seg] returns, there is one dictionary for each
    row of the array; the entries of [trace_headers] name exactly the
    dictionaries that hold at least one entry, so a trace whose header
    is empty has no place in the list; and every dictionary has
    distinct keys and is made of words, as a file header is. *)
Theorem returned_trace_headers_are_sound
        (native : endianness) (data : bytes) (out : list string) (s : seg) :
  read_seg native data = (out, Ok s) ->
  length (seg_heap s) = fst (shape (seg_x_arr s)) /\
  headers_ok (seg_heap s) (seg_trace_headers s) /\
  Forall (fun d => d <> [] /\ header_like d) (trace_headers_of s).
Proof.
  unfold read_seg. intros H.
  destruct (read_seg_body native data initial_world) as [w r] eqn:E.
  injection H as _ ->.
  unfold read_seg_body in E.
  apply bind_inv in E as ([[endian M] N] & w0 & _ & E).
  apply bind_inv in E as (ps & w1 & _ & E).
  apply bind_inv in E as (l & w2 & Hl & E).
  apply bind_inv in E as (x & w3 & Hx & E).
  unfold ret in E. injection E as _ <-.
  unfold lift in Hx. injection Hx as _ Hx.
  apply np_stack_length in Hx.
  pose proof (traces_loop_length _ _ _ _ _ _ _ _ Hl) as Hn.
  apply traces_loop_headers_ok in Hl as [Hlen Hok].
  2:{ split; [|constructor]. intros a. simpl. split; [tauto|lia]. }
  cbn [seg_heap seg_trace_headers seg_x_arr l_heap l_traces] in *.
  split; [|split].
  - unfold shape. cbn [fst]. rewrite Hx. simpl in Hn, Hlen. lia.
  - exact Hok.
  - unfold trace_headers_of. cbn [seg_heap seg_trace_headers].
    apply Forall_forall. intros d Hd.
    apply in_map_iff in Hd as (a & <- & Ha).
    destruct Hok as [Hrefs Hall].
    apply Hrefs in Ha as [Hlt Hne]. split; [assumption|].
    rewrite Forall_forall in Hall. apply Hall.
    unfold store_get. now apply nth_In.
Qed.

Lemma returned_trace_headers_are_sound_witness :
  read_seg Big bad_chunk_trace_file
  = ([],
     Ok (mk_seg [0%nat; 0%nat]
           [[([x41], [x31]); ([x42], [x32; x33])]]
           (mk_ndarray2 [mk_ndarray int32 [9]] 1))) /\
  length (seg_heap (mk_seg [0%nat; 0%nat]
                      [[([x41], [x31]); ([x42], [x32; x33])]]
                      (mk_ndarray2 [mk_ndarray int32 [9]] 1)))
  = fst (shape (seg_x_arr (mk_seg [0%nat; 0%nat]
                      [[([x41], [x31]); ([x42], [x32; x33])]]
                      (mk_ndarray2 [mk_ndarray int32 [9]] 1)))).
Proof.
  assert (H : read_seg Big bad_chunk_trace_file
              = ([],
                 Ok (mk_seg [0%nat; 0%nat]
                       [[([x41], [x31]); ([x42], [x32; x33])]]
                       (mk_ndarray2 [mk_ndarray int32 [9]] 1))))
    by (vm_compute; reflexivity).
  split; [exact H|].
  exact (proj1 (returned_trace_headers_are_sound Big bad_chunk_trace_file
                  _ _ H)).
Defined.

(** *** An unsupported code in the first trace *)

Lemma trace_body_unbound_dtype (native e : endianness) (data : bytes)
      (p : Z) (l : locals) (w : world) :
  0 <= p -> (Z.to_nat p + 13 <= length data)%nat ->
  int_from_bytes e (slice data (Z.to_nat p) (Z.to_nat p + 2)) = 0x4422 ->
  DATA_FORMAT_CODES
    (int_from_bytes e (slice data (Z.to_nat p + 12) (Z.to_nat p + 13)))
  = None ->
  l_dtype l = None ->
  trace_body native data (Some e) p l w
  = (mk_world (Z.to_nat p + Nat.min 32 (length data - Z.to_nat p))
              (stdout w ++ ["Data type not supported."%string]),
     Raise (UnboundLocalError "dtype")).
Proof.
  intros Hp Hlen Hid Hcode Hdt.
  set (P := Z.to_nat p) in *.
  unfold trace_body.
  unfold bind at 1. unfold f_seek_set at 1. fold P.
  unfold bind at 1. rewrite f_read_slice by lia.
  cbn [cursor stdout]. change (Z.to_nat 32) with 32%nat.
  rewrite !slice_slice by lia.
  rewrite !Nat.add_0_r.
  unfold unpack_eH, unpack_eHII, unpack_eB, unpack_fixed.
  cbn [the_endian].
  rewrite !length_slice.
  replace (Nat.min (P + 2 - P) (length data - P)) with 2%nat by lia.
  replace (Nat.min (P + 12 - (P + 2)) (length data - (P + 2)))
    with 10%nat by lia.
  replace (Nat.min (P + 13 - (P + 12)) (length data - (P + 12)))
    with 1%nat by lia.
  replace (P + 32 - P)%nat with 32%nat by lia.
  cbn [Nat.eqb]. rewrite bind_lift_ok, Hid, Z.eqb_refl.
  unfold bind at 1. unfold ret at 1.
  rewrite bind_lift_ok. cbv beta iota.
  rewrite bind_lift_ok, Hcode, Hdt.
  reflexivity.
Qed.

(** X13.  When the first trace of a file carries a format code other
    than 1, 2, 4 and 5, [read_seg] prints that the data type is not
    supported and then raises on [dtype], which no trace has assigned
    yet: nothing is returned. *)
Theorem unsupported_first_code_raises
        (native e : endianness) (data : bytes) (M N : Z)
        (w0 w1 : world) (p : Z) (ps : list Z) :
  read_descriptor data initial_world = (w0, Ok (Some e, M, N)) ->
  read_trace_pointers data (Some e) M N w0 = (w1, Ok (p :: ps)) ->
  0 <= p -> (Z.to_nat p + 13 <= length data)%nat ->
  int_from_bytes e (slice data (Z.to_nat p) (Z.to_nat p + 2)) = 0x4422 ->
  DATA_FORMAT_CODES
    (int_from_bytes e (slice data (Z.to_nat p + 12) (Z.to_nat p + 13)))
  = None ->
  read_seg native data
  = (stdout w1 ++ ["Data type not supported."%string],
     Raise (UnboundLocalError "dtype")).
Proof.
  intros Hd Hp Hp0 Hlen Hid Hcode.
  unfold read_seg, read_seg_body.
  rewrite (bind_ok _ _ _ _ _ Hd), (bind_ok _ _ _ _ _ Hp).
  unfold bind at 1. cbn [traces_loop]. unfold bind at 1.
  rewrite (trace_body_unbound_dtype native e data p
             (mk_locals None [] [] []) w1 Hp0 Hlen Hid Hcode eq_refl).
  reflexivity.
Qed.

Lemma unsupported_first_code_raises_witness :
  (read_descriptor unsupported_first_file initial_world
   = (mk_world 32 [], Ok (Some Little, 4, 1)) /\
   read_trace_pointers unsupported_first_file (Some Little) 4 1
                       (mk_world 32 [])
   = (mk_world 36 [], Ok [36]) /\
   0 <= 36 /\
   (Z.to_nat 36 + 13 <= length unsupported_first_file)%nat /\
   int_from_bytes Little
     (slice unsupported_first_file (Z.to_nat 36) (Z.to_nat 36 + 2))
   = 0x4422 /\
   DATA_FORMAT_CODES
     (int_from_bytes Little
        (slice unsupported_first_file (Z.to_nat 36 + 12)
               (Z.to_nat 36 + 13))) = None) /\
  read_seg Big unsupported_first_file
  = (stdout (mk_world 36 []) ++ ["Data type not supported."%string],
     Raise (UnboundLocalError "dtype")).
Proof.
  assert (H1 : read_descriptor unsupported_first_file initial_world
               = (mk_world 32 [], Ok (Some Little, 4, 1)))
    by (vm_compute; reflexivity).
  assert (H2 : read_trace_pointers unsupported_first_file (Some Little) 4 1
                 (mk_world 32 [])
               = (mk_world 36 [], Ok [36]))
    by (vm_compute; reflexivity).
  assert (H3 : 0 <= 36) by lia.
  assert (H4 : (Z.to_nat 36 + 13 <= length unsupported_first_file)%nat)
    by (vm_compute; lia).
  assert (H5 : int_from_bytes Little
                 (slice unsupported_first_file (Z.to_nat 36)
                        (Z.to_nat 36 + 2)) = 0x4422)
    by (vm_compute; reflexivity).
  assert (H6 : DATA_FORMAT_CODES
                 (int_from_bytes Little
                    (slice unsupported_first_file (Z.to_nat 36 + 12)
                           (Z.to_nat 36 + 13))) = None)
    by (vm_compute; reflexivity).
  split; [tauto|].
  exact (unsupported_first_code_raises Big Little unsupported_first_file
           4 1 _ _ 36 [] H1 H2 H3 H4 H5 H6).
Defined.

(** *** The two loops over a header *)

(** X14.  Neither function can run forever.  Each pass of a
    [while True] loop over the chunks of a header reads the two bytes
    of a length word or raises, so the loops end before the file does:
    on every file, [read_seg] and [read_seg2_header] return or
    raise. *)
Theorem decoders_always_end (native : endianness) (data : bytes) :
  ((exists s, snd (read_seg native data) = Ok s) \/
   (exists x, snd (read_seg native data) = Raise x))
  /\ ((exists d, snd (read_seg2_header data) = Ok d) \/
      (exists x, snd (read_seg2_header data) = Raise x)).
Proof.
  split.
  - pose proof (read_seg_total native data) as H.
    destruct (snd (read_seg native data)) as [s|x|];
      [left; now exists s | right; now exists x | congruence].
  - pose proof (read_seg2_header_total data) as H.
    destruct (snd (read_seg2_header data)) as [d|x|];
      [left; now exists d | right; now exists x | congruence].
Qed.

(** X15.  The loop over a trace header in [read_seg] parses as the loop
    over the file header in [read_seg2_header] does.  From the same
    cursor both end at the same cursor, print the same, and raise the
    same exception or both return; the dictionary of the trace then
    holds what the file header loop would return, and the name of that
    dictionary has been appended to [trace_headers] some number of
    times. *)
Theorem trace_loop_parses_like_file_loop
        (data : bytes) (endian : option endianness) (fuel : nat) :
  forall (h1 h2 : store) (d : dict) (ths : list nat) (w : world),
    match file_header_loop data fuel endian d w with
    | (w', Ok d') =>
        exists n,
          trace_header_loop data fuel endian (length h1) (h1 ++ d :: h2)
                            ths w
          = (w', Ok (h1 ++ d' :: h2, ths ++ repeat (length h1) n))
    | (w', Raise x) =>
        trace_header_loop data fuel endian (length h1) (h1 ++ d :: h2) ths w
        = (w', Raise x)
    | (w', Diverged) =>
        trace_header_loop data fuel endian (length h1) (h1 ++ d :: h2) ths w
        = (w', Diverged)
    end.
Proof.
  induction fuel as [|fuel IH]; intros h1 h2 d ths w; [reflexivity|].
  cbn [file_header_loop trace_header_loop].
  destruct (f_read_cursor data 2 w) as (word & Hword & _).
  rewrite (bind_ok _ _ _ _ _ Hword), (bind_ok _ _ _ _ _ Hword).
  destruct (unpack_eH endian word) as [offset| |]; try reflexivity.
  rewrite !bind_lift_ok.
  destruct (offset =? 0).
  - exists 0%nat. unfold ret. simpl. now rewrite app_nil_r.
  - destruct (f_read_cursor data (offset - 2)
                (mk_world (cursor w + length word) (stdout w)))
      as (text & Htext & _).
    rewrite (bind_ok _ _ _ _ _ Htext), (bind_ok _ _ _ _ _ Htext).
    destruct (bytes_split text) as [|k [|v [|z t]]]; try apply IH.
    destruct (decode_utf8 (removelast v)) as [v'| |]; try reflexivity.
    rewrite !bind_lift_ok.
    destruct (decode_utf8 k) as [k'| |]; try reflexivity.
    rewrite !bind_lift_ok, store_update_at.
    specialize (IH h1 h2 (dict_setitem d k' v') (ths ++ [length h1])
                   (mk_world (cursor w + length word + length text)
                             (stdout w))).
    cbn [cursor stdout] in *.
    destruct (file_header_loop data fuel endian (dict_setitem d k' v') _)
      as [w' [d'| |]]; try exact IH.
    destruct IH as [n IH]. exists (S n).
    rewrite IH. simpl. now rewrite <- app_assoc.
Qed.

(** *** Rows and pointers *)

(** The loop over a trace header moves the cursor the same way and ends
    the same way whatever store and list it works on, and prints
    nothing. *)
Lemma trace_header_loop_transfer (data : bytes)
      (endian : option endianness) (fuel : nat) :
  forall a1 h1 ths1 a2 h2 ths2 w1 w2 w1' r1,
    cursor w1 = cursor w2 ->
    trace_header_loop data fuel endian a1 h1 ths1 w1 = (w1', Ok r1) ->
    exists r2,
      trace_header_loop data fuel endian a2 h2 ths2 w2
      = (mk_world (cursor w1') (stdout w2), Ok r2).
Proof.
  induction fuel as [|fuel IH];
    intros a1 h1 ths1 a2 h2 ths2 w1 w2 w1' r1 Hc H; [discriminate H|].
  cbn [trace_header_loop] in *.
  unfold bind at 1 in H. unfold f_read at 1 in H.
  unfold bind at 1. unfold f_read at 1.
  cbn [cursor stdout] in *. rewrite <- Hc.
  change (2 <? 0) with false in *. cbv iota in *.
  unfold bind at 1 in H. unfold lift at 1 in H.
  unfold bind at 1. unfold lift at 1.
  destruct (unpack_eH endian _) as [offset| |]; try discriminate H.
  destruct (offset =? 0).
  - unfold ret in *. injection H as <- _. cbn [cursor].
    eexists. reflexivity.
  - unfold bind at 1 in H. unfold f_read at 1 in H.
    unfold bind at 1. unfold f_read at 1.
    cbn [cursor stdout] in *.
    match goal with
    | |- context [bytes_split ?t] => set (text := t) in *
    end.
    destruct (bytes_split text) as [|k [|v [|z t]]];
      try (refine (IH _ _ _ _ _ _ _ _ _ _ _ H); reflexivity).
    unfold bind at 1 in H. unfold lift at 1 in H.
    unfold bind at 1. unfold lift at 1.
    destruct (decode_utf8 (removelast v)) as [v'| |]; try discriminate H.
    unfold bind at 1 in H. unfold lift at 1 in H.
    unfold bind at 1. unfold lift at 1.
    destruct (decode_utf8 k) as [k'| |]; try discriminate H.
    refine (IH _ _ _ _ _ _ _ _ _ _ _ H). reflexivity.
Qed.

Lemma unpack_eB_value (e : endianness) (b : bytes) (z : Z) :
  unpack_eB (Some e) b = Ok z -> z = int_from_bytes e b.
Proof.
  unfold unpack_eB, unpack_fixed. cbn [the_endian].
  destruct (Nat.eqb (length b) 1); [|discriminate]. now intros [= <-].
Qed.

(** A trace with a supported format code is decoded the same way
    whatever was decoded before it. *)
Lemma trace_body_transfer (native e : endianness) (data : bytes) (p : Z)
      (l l' : locals) (w w' : world) :
  trace_body native data (Some e) p l w = (w', Ok l') ->
  DATA_FORMAT_CODES (code_at e data p) <> None ->
  exists t d,
    l_traces l' = l_traces l ++ [t] /\ l_dtype l' = Some d /\
    forall l2 w2,
    exists heap2 ths2,
      trace_body native data (Some e) p l2 w2
      = (mk_world (cursor w') (stdout w2),
         Ok (mk_locals (Some d) heap2 ths2 (l_traces l2 ++ [t]))).
Proof.
  intros H Hcode. unfold code_at in Hcode.
  unfold trace_body in H.
  unfold bind at 1 in H. unfold f_seek_set at 1 in H.
  unfold bind at 1 in H. rewrite f_read_slice in H by lia.
  cbn [cursor stdout] in H. change (Z.to_nat 32) with 32%nat in H.
  set (P := Z.to_nat p) in *.
  set (block := slice data P (P + 32)) in *.
  unfold bind at 1 in H. unfold lift at 1 in H.
  destruct (unpack_eH (Some e) (slice block 0 2)) as [ID| |] eqn:EID;
    try discriminate H.
  unfold bind at 1 in H.
  destruct (ID =? 17442) eqn:EIDv; [|discriminate H].
  unfold ret at 1 in H.
  unfold bind at 1 in H. unfold lift at 1 in H.
  destruct (unpack_eHII (Some e) (slice block 2 12))
    as [[[X Y] NS]| |] eqn:EHII; try discriminate H.
  unfold bind at 1 in H. unfold lift at 1 in H.
  destruct (unpack_eB (Some e) (slice block 12 13)) as [code| |] eqn:EB;
    try discriminate H.
  assert (Hc : code = int_from_bytes e (slice data (P + 12) (P + 13))).
  { apply unpack_eB_value in EB. subst code. unfold block.
    now rewrite slice_slice by lia. }
  rewrite <- Hc in Hcode.
  destruct (DATA_FORMAT_CODES code) as [d|] eqn:Ed; [|congruence].
  unfold bind at 1 in H. unfold ret at 1 in H.
  unfold bind at 1 in H. unfold ret at 1 in H.
  unfold bind at 1 in H.
  destruct (trace_header_loop data (S (length data)) (Some e)
              (length (l_heap l)) (l_heap l ++ [[]]) (l_trace_headers l) _)
    as [w9 [[heap ths]| |]] eqn:Eloop; try discriminate H.
  unfold bind at 1 in H. unfold f_seek_cur at 1 in H.
  unfold bind at 1 in H. unfold f_read at 1 in H.
  cbn [cursor stdout] in H.
  unfold bind at 1 in H. unfold lift at 1 in H.
  match type of H with
  | context [np_fromstring native ?r d] => set (raw := r) in *
  end.
  destruct (np_fromstring native raw d) as [t| |] eqn:Enp;
    try discriminate H.
  unfold ret in H. injection H as <- <-.
  exists t, d. cbn [l_traces l_dtype cursor].
  split; [reflexivity|]. split; [reflexivity|].
  intros l2 w2.
  destruct (trace_header_loop_transfer data (Some e) (S (length data))
              (length (l_heap l)) (l_heap l ++ [[]]) (l_trace_headers l)
              (length (l_heap l2)) (l_heap l2 ++ [[]]) (l_trace_headers l2)
              (mk_world (P + length block) (stdout w))
              (mk_world (P + length block) (stdout w2)) _ _
              eq_refl Eloop) as [[heap2 ths2] Eloop2].
  exists heap2, ths2.
  unfold trace_body.
  unfold bind at 1. unfold f_seek_set at 1.
  unfold bind at 1. rewrite f_read_slice by lia.
  cbn [cursor stdout]. change (Z.to_nat 32) with 32%nat.
  fold P. fold block.
  rewrite EID, bind_lift_ok, EIDv.
  unfold bind at 1. unfold ret at 1.
  rewrite EHII, bind_lift_ok. cbv beta iota.
  rewrite EB, bind_lift_ok, Ed.
  unfold bind at 1. unfold ret at 1.
  unfold bind at 1. unfold ret at 1.
  rewrite (bind_ok _ _ _ _ _ Eloop2).
  unfold bind at 1. unfold f_seek_cur at 1.
  unfold bind at 1. unfold f_read at 1.
  cbn [cursor stdout]. fold raw.
  rewrite Enp, bind_lift_ok. reflexivity.
Qed.

Lemma traces_loop_alone (native e : endianness) (data : bytes)
      (ps : list Z) :
  forall l l' w w',
    traces_loop native data (Some e) ps l w = (w', Ok l') ->
    Forall (fun p => DATA_FORMAT_CODES (code_at e data p) <> None) ps ->
    exists ts,
      l_traces l' = l_traces l ++ ts /\
      map Some ts = map (trace_alone native e data) ps.
Proof.
  induction ps as [|p ps IH]; intros l l' w w' H Hall.
  - injection H as _ <-. exists []. simpl. now rewrite app_nil_r.
  - inversion Hall as [|? ? Hp Hps]; subst.
    cbn [traces_loop] in H.
    apply bind_inv in H as (l1 & w1 & Hbody & H).
    destruct (trace_body_transfer _ _ _ _ _ _ _ _ Hbody Hp)
      as (t & d & Ht & _ & Halone).
    destruct (IH _ _ _ _ H Hps) as (ts & Hts & Hmap).
    exists (t :: ts). split.
    + rewrite Hts, Ht, <- app_assoc. reflexivity.
    + cbn [map]. rewrite Hmap. f_equal.
      unfold trace_alone.
      destruct (Halone (mk_locals None [] [] []) initial_world)
        as (heap2 & ths2 & ->).
      reflexivity.
Qed.

Lemma promote_types_same (d : dtype) : promote_types d d = d.
Proof. now destruct d. Qed.

Lemma stack_dtype_same (ts : list ndarray) (d : dtype) :
  ts <> [] -> Forall (fun t => arr_dtype t = d) ts -> stack_dtype ts = d.
Proof.
  destruct ts as [|a rest]; [congruence|]. intros _ H.
  inversion H as [|? ? Ha Hrest]; subst. cbn [stack_dtype].
  induction Hrest as [|b rest Hb Hrest IH]; [reflexivity|].
  cbn [map fold_left]. rewrite Hb, promote_types_same. apply IH.
  constructor; [reflexivity|assumption].
Qed.

Lemma astype_same (t : ndarray) : astype (arr_dtype t) t = t.
Proof.
  destruct t as [d items]. unfold astype. cbn [arr_dtype arr_items].
  f_equal. induction items as [|z items IH]; [reflexivity|].
  cbn [map]. rewrite IH. f_equal. now destruct d.
Qed.

(** X16.  The rows of the array follow the pointer table, and each row
    is the work of its pointer alone.  When [read_seg] returns and the
    format codes at all the pointers are supported, the row of the
    [i]-th pointer is the trace that [read_seg] would decode at that
    pointer if it were the first, converted by [np.stack] to the dtype
    that holds the dtypes of all the traces: the order of the traces in
    the file, and what was decoded before, have no part in it.  When
    all the traces have one dtype the rows are these traces
    themselves. *)
Theorem rows_follow_pointers
        (native e : endianness) (data : bytes) (M N : Z)
        (w0 w1 : world) (ps : list Z) (out : list string) (s : seg) :
  read_descriptor data initial_world = (w0, Ok (Some e, M, N)) ->
  read_trace_pointers data (Some e) M N w0 = (w1, Ok ps) ->
  read_seg native data = (out, Ok s) ->
  Forall (fun p => DATA_FORMAT_CODES (code_at e data p) <> None) ps ->
  exists ts,
    map Some ts = map (trace_alone native e data) ps /\
    rows (seg_x_arr s) = map (astype (stack_dtype ts)) ts /\
    (forall d, Forall (fun t => arr_dtype t = d) ts ->
               rows (seg_x_arr s) = ts).
Proof.
  intros Hd Hp H Hall.
  unfold read_seg, read_seg_body in H.
  rewrite (bind_ok _ _ _ _ _ Hd), (bind_ok _ _ _ _ _ Hp) in H.
  destruct (bind _ _ w1) as [w r] eqn:E.
  injection H as _ ->.
  apply bind_inv in E as (l & w2 & Hl & E).
  apply bind_inv in E as (x & w3 & Hx & E).
  unfold ret in E. injection E as _ <-. cbn [seg_x_arr].
  unfold lift in Hx. injection Hx as _ Hx.
  pose proof (np_stack_same_length _ _ Hx) as [Hne _].
  apply np_stack_rows_dtype in Hx. rewrite Hx.
  destruct (traces_loop_alone _ _ _ _ _ _ _ _ Hl Hall) as (ts & Hts & Hmap).
  simpl in Hts. rewrite Hts in *.
  exists ts. split; [exact Hmap|]. split; [reflexivity|].
  intros d Hd'. rewrite (stack_dtype_same ts d Hne Hd').
  clear - Hd'. induction Hd' as [|t ts Ht Hts IH]; [reflexivity|].
  cbn [map]. rewrite IH. f_equal. rewrite <- Ht. apply astype_same.
Qed.

Lemma rows_follow_pointers_witness :
  (read_descriptor mixed_file initial_world
   = (mk_world 32 [], Ok (Some Little, 8, 2)) /\
   read_trace_pointers mixed_file (Some Little) 8 2 (mk_world 32 [])
   = (mk_world 40 [], Ok [40; 77]) /\
   read_seg Little mixed_file
   = ([], Ok (mk_seg [] [[]; []]
                (mk_ndarray2 [mk_ndarray float32 [0x40E00000];
                              mk_ndarray float32 [0x3F800000]] 1))) /\
   Forall (fun p => DATA_FORMAT_CODES (code_at Little mixed_file p)
                    <> None) [40; 77]) /\
  exists ts,
    map Some ts = map (trace_alone Little Little mixed_file) [40; 77] /\
    rows (seg_x_arr
            (mk_seg [] [[]; []]
               (mk_ndarray2 [mk_ndarray float32 [0x40E00000];
                             mk_ndarray float32 [0x3F800000]] 1)))
    = map (astype (stack_dtype ts)) ts /\
    (forall d, Forall (fun t => arr_dtype t = d) ts ->
               rows (seg_x_arr
                       (mk_seg [] [[]; []]
                          (mk_ndarray2 [mk_ndarray float32 [0x40E00000];
                                        mk_ndarray float32 [0x3F800000]] 1)))
               = ts).
Proof.
  assert (H1 : read_descriptor mixed_file initial_world
               = (mk_world 32 [], Ok (Some Little, 8, 2)))
    by (vm_compute; reflexivity).
  assert (H2 : read_trace_pointers mixed_file (Some Little) 8 2
                 (mk_world 32 [])
               = (mk_world 40 [], Ok [40; 77]))
    by (vm_compute; reflexivity).
  assert (H3 : read_seg Little mixed_file
               = ([], Ok (mk_seg [] [[]; []]
                            (mk_ndarray2 [mk_ndarray float32 [0x40E00000];
                                          mk_ndarray float32 [0x3F800000]]
                                         1))))
    by (vm_compute; reflexivity).
  assert (H4 : Forall (fun p => DATA_FORMAT_CODES
                                  (code_at Little mixed_file p) <> None)
                      [40; 77])
    by (repeat constructor; vm_compute; discriminate).
  split; [tauto|].
  exact (rows_follow_pointers Little Little mixed_file 8 2 _ _ _ _ _
           H1 H2 H3 H4).
Defined.

(** *** A pointer sub-block that is too short *)

Lemma read_trace_pointers_short (e : endianness) (data : bytes) (M N : Z)
      (w : world) :
  0 <= M -> 1 <= N ->
  (length (slice data (cursor w) (cursor w + Z.to_nat M))
   < 4 * Z.to_nat N)%nat ->
  read_trace_pointers data (Some e) M N w
  = (mk_world (cursor w
               + length (slice data (cursor w) (cursor w + Z.to_nat M)))
              (stdout w),
     Raise StructError).
Proof.
  intros HM HN Hshort. unfold read_trace_pointers.
  rewrite (bind_ok _ _ _ _ _ (f_read_slice data M w HM)).
  unfold lift.
  now rewrite pointers_loop_short by lia.
Qed.

(** X17.  Both functions raise [struct.error] on a file that declares
    at least one trace but cannot hold its pointers: when the declared
    size [M] of the pointer sub-block is less than [N * 4], or when the
    file ends less than [N * 4] bytes after the 32 bytes of the
    descriptor. *)
Theorem short_pointer_table_raises
        (native e : endianness) (rest : bytes) :
  (13 <= length rest)%nat ->
  1 <= int_from_bytes e (slice (magic e :: rest) 6 8) ->
  int_from_bytes e (slice (magic e :: rest) 4 6)
  < int_from_bytes e (slice (magic e :: rest) 6 8) * 4
  \/ (length (magic e :: rest)
      < 32 + 4 * Z.to_nat (int_from_bytes e (slice (magic e :: rest) 6 8)))%nat
  ->
  snd (read_seg native (magic e :: rest)) = Raise StructError
  /\ snd (read_seg2_header (magic e :: rest)) = Raise StructError.
Proof.
  intros Hlen HN Hshort.
  destruct (read_descriptor_magic e rest Hlen) as [out Hd].
  set (data := magic e :: rest) in *.
  set (M := int_from_bytes e (slice data 4 6)) in *.
  set (N := int_from_bytes e (slice data 6 8)) in *.
  assert (HM : 0 <= M) by apply int_from_bytes_range.
  assert (Hp : read_trace_pointers data (Some e) M N
                 (mk_world (Nat.min 32 (S (length rest))) out)
               = (mk_world
                    (Nat.min 32 (S (length rest))
                     + length (slice data (Nat.min 32 (S (length rest)))
                                     (Nat.min 32 (S (length rest))
                                      + Z.to_nat M)))
                    out,
                  Raise StructError)).
  { apply (read_trace_pointers_short e data M N
             (mk_world (Nat.min 32 (S (length rest))) out) HM HN).
    cbn [cursor]. rewrite length_slice.
    change (length data) with (S (length rest)) in *.
    destruct Hshort as [H|H]; lia. }
  split.
  - unfold read_seg, read_seg_body.
    rewrite (bind_ok _ _ _ _ _ Hd), (bind_raise _ _ _ _ _ Hp).
    reflexivity.
  - unfold read_seg2_header, read_seg2_header_body.
    rewrite (bind_ok _ _ _ _ _ Hd), (bind_raise _ _ _ _ _ Hp).
    reflexivity.
Qed.

Lemma short_pointer_table_raises_witness :
  ((13 <= length (tl (file_descriptor_block Big 4 2 usual_terminators
                        ++ pack Big 4 40)))%nat /\
   1 <= int_from_bytes Big
          (slice (magic Big
                    :: tl (file_descriptor_block Big 4 2 usual_terminators
                             ++ pack Big 4 40)) 6 8) /\
   (int_from_bytes Big
      (slice (magic Big
                :: tl (file_descriptor_block Big 4 2 usual_terminators
                         ++ pack Big 4 40)) 4 6)
    < int_from_bytes Big
        (slice (magic Big
                  :: tl (file_descriptor_block Big 4 2 usual_terminators
                           ++ pack Big 4 40)) 6 8) * 4
    \/ (length (magic Big
                  :: tl (file_descriptor_block Big 4 2 usual_terminators
                           ++ pack Big 4 40))
        < 32 + 4 * Z.to_nat
                     (int_from_bytes Big
                        (slice (magic Big
                                  :: tl (file_descriptor_block Big 4 2
                                           usual_terminators
                                           ++ pack Big 4 40)) 6 8)))%nat)) /\
  snd (read_seg Little
         (magic Big :: tl (file_descriptor_block Big 4 2 usual_terminators
                             ++ pack Big 4 40)))
  = Raise StructError.
Proof.
  assert (H1 : (13 <= length (tl (file_descriptor_block Big 4 2
                                     usual_terminators
                                     ++ pack Big 4 40)))%nat)
    by (vm_compute; lia).
  assert (H2 : 1 <= int_from_bytes Big
                      (slice (magic Big
                                :: tl (file_descriptor_block Big 4 2
                                         usual_terminators
                                         ++ pack Big 4 40)) 6 8))
    by (vm_compute; discriminate).
  assert (H3 : int_from_bytes Big
                 (slice (magic Big
                           :: tl (file_descriptor_block Big 4 2
                                    usual_terminators
                                    ++ pack Big 4 40)) 4 6)
               < int_from_bytes Big
                   (slice (magic Big
                             :: tl (file_descriptor_block Big 4 2
                                      usual_terminators
                                      ++ pack Big 4 40)) 6 8) * 4
               \/ (length (magic Big
                             :: tl (file_descriptor_block Big 4 2
                                      usual_terminators
                                      ++ pack Big 4 40))
                   < 32 + 4 * Z.to_nat
                                (int_from_bytes Big
                                   (slice (magic Big
                                             :: tl (file_descriptor_block
                                                      Big 4 2
                                                      usual_terminators
                                                      ++ pack Big 4 40))
                                          6 8)))%nat)
    by (left; vm_compute; reflexivity).
  split; [tauto|].
  exact (proj1 (short_pointer_table_raises Little Big
                  (tl (file_descriptor_block Big 4 2 usual_terminators
                         ++ pack Big 4 40)) H1 H2 H3)).
Defined.

(** *** The byte order of the samples *)

(** C3 at [big_endian_payload_file] on a little-endian host.  The first
    byte [0x3A] makes [endian] big-endian, and the descriptor, the
    pointer and the trace descriptor are unpacked so: the pointer is 36
    and the trace has two samples.  But [np.fromstring] is not given
    [endian]: it reads the samples [00 07] and [00 08] in the order of
    the host, as [0x0700] and [0x0800], where the byte order of the file
    gives 7 and 8, as a big-endian host returns them. *)
Theorem big_endian_samples_read_in_host_order :
  read_descriptor big_endian_payload_file initial_world
  = (mk_world 32 [], Ok (Some Big, 4, 1))
  /\ read_trace_pointers big_endian_payload_file (Some Big) 4 1
                         (mk_world 32 [])
     = (mk_world 36 [], Ok [36])
  /\ read_seg Little big_endian_payload_file
     = ([], Ok (mk_seg [] [[]]
                  (mk_ndarray2 [mk_ndarray int16 [1792; 2048]] 2)))
  /\ read_seg Big big_endian_payload_file
     = ([], Ok (mk_seg [] [[]] (mk_ndarray2 [mk_ndarray int16 [7; 8]] 2))).
Proof. repeat split; vm_compute; reflexivity. Qed.
